(** * CarbonWise: the "insights since last checkpoint" advice pipeline

    A shallow embedding of [AdviceButton.js] (the component holding
    [generateLocalAdvice], [saveInsightsToFirestore] and [handleGetAdvice])
    together with the part of [Dashboard.js] that builds the [userActions]
    array handed to it.

    - JavaScript strings are sequences of UTF-16 code units ([list N]).
    - JavaScript numbers are binary64 floats ([PrimFloat.float]).
    - A property that may be [undefined] (or [null]) is an [option].
    - The Firestore user document is a record of finite maps ([gmap]).
    - Built-ins of the host whose result the code only passes along
      ([Date.parse], [Number.prototype.toFixed], number to string and
      string to number conversion) are variables of the section that holds
      the pipeline, so every statement about the pipeline holds for any host.
*)

From Stdlib Require Import ZArith NArith Lia List Bool Ascii String Floats Uint63.
From Stdlib Require Import Permutation Sorted.
From stdpp Require Import gmap.
Import ListNotations.

#[local] Set Warnings "-register-all".

Local Open Scope N_scope.
Local Open Scope list_scope.

(** ** 1. JavaScript strings *)

Definition jsstring := list N.

(** An ASCII literal as a JavaScript string. *)
Definition js (s : string) : jsstring :=
  map N_of_ascii (list_ascii_of_string s).

(** The subscript two of "CO₂" (U+2082) and the double quote (U+0022). *)
Definition sub2 : jsstring := [0x2082].
Definition dquote : jsstring := [34].

(** [ToBoolean] on an optional string: [undefined], [null] and [''] are
    falsy. *)
Definition truthy (v : option jsstring) : bool :=
  match v with
  | Some (_ :: _) => true
  | _ => false
  end.

(** [a || b] on optional strings. *)
Definition or_str (a b : option jsstring) : option jsstring :=
  if truthy a then a else b.

(** [ToBoolean] on an optional number: [undefined], [+0], [-0] and [NaN]
    are falsy. *)
Definition truthy_num (v : option float) : bool :=
  match v with
  | Some x => negb (PrimFloat.is_zero x || PrimFloat.is_nan x)
  | None => false
  end.

(** [a || b] on optional numbers. *)
Definition or_num (a b : option float) : option float :=
  if truthy_num a then a else b.

(** WhiteSpace and LineTerminator code units: what [\s] matches and what
    [String.prototype.trim] removes. *)
Definition is_ws (c : N) : bool :=
  (9 <=? c) && (c <=? 13) || (c =? 32) || (c =? 160) || (c =? 0x1680)
  || (0x2000 <=? c) && (c <=? 0x200A)
  || (c =? 0x2028) || (c =? 0x2029) || (c =? 0x202F) || (c =? 0x205F)
  || (c =? 0x3000) || (c =? 0xFEFF).

Fixpoint trimStart (s : jsstring) : jsstring :=
  match s with
  | c :: r => if is_ws c then trimStart r else s
  | [] => []
  end.

Definition trim (s : jsstring) : jsstring :=
  rev (trimStart (rev (trimStart s))).

Fixpoint startsWith (p s : jsstring) : bool :=
  match p, s with
  | [], _ => true
  | a :: p', b :: s' => (a =? b) && startsWith p' s'
  | _ :: _, [] => false
  end.

(** [s.split('\n')]: always at least one piece. *)
Fixpoint split_lines (s : jsstring) : list jsstring :=
  match s with
  | [] => [[]]
  | c :: r =>
      if c =? 10 then [] :: split_lines r
      else match split_lines r with
           | l :: ls => (c :: l) :: ls
           | [] => [[c]]
           end
  end.

(** Comparison of strings by code units, the order of [<] on strings and
    of [Array.prototype.sort] without a comparator. *)
Fixpoint str_leb (a b : jsstring) : bool :=
  match a, b with
  | [], _ => true
  | _ :: _, [] => false
  | x :: a', y :: b' => (x <? y) || (x =? y) && str_leb a' b'
  end.

(** Decimal digits of a natural number ([String(n)] for an array length). *)
Definition digit (d : N) : N := 48 + d.

Fixpoint digits_fuel (fuel : nat) (n : N) (acc : jsstring) : jsstring :=
  match fuel with
  | O => acc
  | S f =>
      let acc' := digit (n mod 10) :: acc in
      if n / 10 =? 0 then acc' else digits_fuel f (n / 10) acc'
  end.

Definition N_toString (n : N) : jsstring :=
  digits_fuel (S (N.to_nat (N.log2 n))) n [].

Definition nat_toString (n : nat) : jsstring := N_toString (N.of_nat n).

(** ** 2. The host and the values the pipeline handles *)

(** A completion of a JavaScript computation: a value, or a thrown error
    carrying its [message]. *)
Inductive Completion (A : Type) : Type :=
| Normal (a : A)
| Throw (message : jsstring).
Arguments Normal {A} a.
Arguments Throw {A} message.

(** A value produced by [JSON.parse] (and accepted by [JSON.stringify]).
    An object lists its own properties in enumeration order. *)
Inductive json : Type :=
| JNull
| JBool (b : bool)
| JNum (x : float)
| JStr (s : jsstring)
| JArr (items : list json)
| JObj (props : list (jsstring * json)).

(** ** A reference host

    One concrete choice for the built-ins the pipeline takes from its host,
    following ECMA-262: [Date.parse] on the format [toISOString] writes,
    [Number.prototype.toFixed(1)], [Number::toString] and the value of a
    JSON numeric literal.  The pipeline's properties are proved for every
    host; this one runs the definitions on sample inputs. *)
Module RefHost.

Local Open Scope Z_scope.

Definition digitVal (c : N) : option Z :=
  if ((48 <=? c) && (c <=? 57))%N then Some (Z.of_N c - 48) else None.

(** The number written by a run of decimal digits, [None] if the run is
    empty or holds another character. *)
Fixpoint digitsVal (acc : Z) (s : jsstring) : option Z :=
  match s with
  | [] => Some acc
  | c :: r =>
      match digitVal c with
      | Some d => digitsVal (acc * 10 + d) r
      | None => None
      end
  end.

Definition number_of (s : jsstring) : option Z :=
  match s with
  | [] => None
  | _ :: _ => digitsVal 0 s
  end.

(** Days from 1970-01-01 to the given civil date (proleptic Gregorian). *)
Definition daysFromCivil (y m d : Z) : Z :=
  let y' := if m <=? 2 then y - 1 else y in
  let era := y' / 400 in
  let yoe := y' - era * 400 in
  let doy := (153 * (if 2 <? m then m - 3 else m + 9) + 2) / 5 + d - 1 in
  let doe := yoe * 365 + yoe / 4 - yoe / 100 + doy in
  era * 146097 + doe - 719468.

Definition isLeap (y : Z) : bool :=
  ((y mod 4 =? 0) && negb (y mod 100 =? 0)) || (y mod 400 =? 0).

Definition daysInMonth (y m : Z) : Z :=
  if m =? 2 then (if isLeap y then 29 else 28)
  else if (m =? 4) || (m =? 6) || (m =? 9) || (m =? 11) then 30
  else 31.

(** [Date.parse] on [YYYY-MM-DDTHH:mm:ss.sssZ]; any other text is an
    invalid date here. *)
Definition Date_parse (s : jsstring) : option Z :=
  match s with
  | [y1; y2; y3; y4; d1; m1; m2; d2; a1; a2; t; h1; h2; c1; n1; n2; c2; s1; s2;
     p; f1; f2; f3; z] =>
      if ((d1 =? 45) && (d2 =? 45) && (t =? 84) && (c1 =? 58) && (c2 =? 58)
          && (p =? 46) && (z =? 90))%N then
        match number_of [y1; y2; y3; y4], number_of [m1; m2], number_of [a1; a2],
              number_of [h1; h2], number_of [n1; n2], number_of [s1; s2],
              number_of [f1; f2; f3] with
        | Some y, Some m, Some d, Some h, Some mi, Some sec, Some ms =>
            if (1 <=? m) && (m <=? 12) && (1 <=? d) && (d <=? daysInMonth y m)
               && (h <=? 23) && (mi <=? 59) && (sec <=? 59) then
              Some ((((daysFromCivil y m d * 24 + h) * 60 + mi) * 60 + sec) * 1000 + ms)
            else None
        | _, _, _, _, _, _, _ => None
        end
      else None
  | _ => None
  end.

(** Decimal digits of a non-negative integer. *)
Definition Z_digits (n : Z) : jsstring := N_toString (Z.to_N n).

Fixpoint zeros (n : nat) : jsstring :=
  match n with
  | O => []
  | S k => 48%N :: zeros k
  end.

(** The magnitude of a finite non-zero binary64 as [m * 2^e]. *)
Definition magnitude (x : float) : option (Z * Z) :=
  match Prim2SF x with
  | S754_finite _ m e => Some (Zpos m, e)
  | _ => None
  end.

(** A non-negative rational [num / den], [den > 0]. *)
Definition ratio_of (m e : Z) : Z * Z :=
  if 0 <=? e then (m * 2 ^ e, 1) else (m, 2 ^ (- e)).

(** [num / den] times [10 ^ p] *)
Definition scale10 (q : Z * Z) (p : Z) : Z * Z :=
  let (num, den) := q in
  if 0 <=? p then (num * 10 ^ p, den) else (num, den * 10 ^ (- p)).

Definition qle (a b : Z * Z) : bool := fst a * snd b <=? fst b * snd a.
Definition qlt (a b : Z * Z) : bool := fst a * snd b <? fst b * snd a.
Definition qsub_abs (a b : Z * Z) : Z * Z :=
  (Z.abs (fst a * snd b - fst b * snd a), snd a * snd b).

(** The least [n] with [q < 10 ^ n], searched upwards from [n0]. *)
Fixpoint decimalExponent (fuel : nat) (n0 : Z) (q : Z * Z) : Z :=
  match fuel with
  | O => n0
  | S f => if qlt q (scale10 (1, 1) n0) then n0 else decimalExponent f (n0 + 1) q
  end.

(** The interval of reals that round to [m * 2^e]: its bounds and whether
    they belong to it. *)
Definition roundingInterval (m e : Z) : (Z * Z) * (Z * Z) * bool :=
  let lowGap := if (m =? 2 ^ 52) && (-1074 <? e) then 1 else 2 in
  (* everything in units of 2^(e-2) *)
  let unit := ratio_of 1 (e - 2) in
  let times (k : Z) := (k * fst unit, snd unit) in
  (times (4 * m - lowGap), times (4 * m + 2), Z.even m).

Definition inInterval (iv : (Z * Z) * (Z * Z) * bool) (c : Z * Z) : bool :=
  let '(lo, hi, closed) := iv in
  if closed then qle lo c && qle c hi else qlt lo c && qlt c hi.

(** The shortest digit string [s] and the exponent [n] such that
    [s * 10^(n - k)], [k] the number of digits of [s], rounds to the number:
    the closest such, the even one on a tie.  [n0] is the least exponent
    with [v < 10^n0]; a candidate that reaches [10^k] stands for [10^n0] and
    so has exponent [n0 + 1]. *)
Fixpoint shortest (fuel : nat) (k : Z) (n0 : Z) (v : Z * Z)
    (iv : (Z * Z) * (Z * Z) * bool) : Z * Z :=
  match fuel with
  | O => (0, n0)
  | S f =>
      let scaled := scale10 v (k - n0) in
      let s0 := fst scaled / snd scaled in
      let c0 := scale10 (s0, 1) (n0 - k) in
      let c1 := scale10 (s0 + 1, 1) (n0 - k) in
      let up := (s0 + 1, if s0 + 1 =? 10 ^ k then n0 + 1 else n0) in
      let ok0 := inInterval iv c0 && (0 <? s0) in
      let ok1 := inInterval iv c1 in
      if ok0 && ok1 then
        let d0 := qsub_abs v c0 in
        let d1 := qsub_abs v c1 in
        if qlt d0 d1 then (s0, n0)
        else if qlt d1 d0 then up
        else if Z.even s0 then (s0, n0) else up
      else if ok0 then (s0, n0)
      else if ok1 then up
      else shortest f (k + 1) n0 v iv
  end.

Fixpoint stripZeros (fuel : nat) (s : Z) : Z :=
  match fuel with
  | O => s
  | S f => if (s mod 10 =? 0) && negb (s =? 0) then stripZeros f (s / 10) else s
  end.

(** [Number::toString] of a positive finite number given its digits
    [s] (no trailing zero) and the exponent [n]. *)
Definition formatDigits (s n : Z) : jsstring :=
  let ds := Z_digits s in
  let k := Z.of_nat (length ds) in
  if (k <=? n) && (n <=? 21) then ds ++ zeros (Z.to_nat (n - k))
  else if (0 <? n) && (n <=? 21) then
    firstn (Z.to_nat n) ds ++ [46%N] ++ skipn (Z.to_nat n) ds
  else if (-6 <? n) && (n <=? 0) then
    [48%N; 46%N] ++ zeros (Z.to_nat (- n)) ++ ds
  else
    let e := n - 1 in
    let etext := (if 0 <=? e then [43%N] else [45%N]) ++ Z_digits (Z.abs e) in
    match ds with
    | [d] => [d] ++ [101%N] ++ etext
    | d :: rest => [d] ++ [46%N] ++ rest ++ [101%N] ++ etext
    | [] => []
    end.

Definition Number_toString (x : float) : jsstring :=
  if PrimFloat.is_nan x then js "NaN"
  else if PrimFloat.is_zero x then js "0"
  else if PrimFloat.is_infinity x then
    (if PrimFloat.ltb x 0 then js "-Infinity" else js "Infinity")
  else
    match magnitude x with
    | Some (m, e) =>
        let v := ratio_of m e in
        let n0 := decimalExponent 700 (-330) v in
        let (s, n) := shortest 18 1 n0 v (roundingInterval m e) in
        (if PrimFloat.ltb x 0 then [45%N] else [])
        ++ formatDigits (stripZeros 20 s) n
    | None => js "0"
    end.

(** [x.toFixed(1)]: the integer nearest to ten times the magnitude, the
    larger one on a tie, written with one fraction digit; numbers of
    magnitude 10^21 and more, and the non-finite ones, are written by
    [Number::toString]. *)
Definition toFixed1 (x : float) : jsstring :=
  if PrimFloat.is_nan x || PrimFloat.is_infinity x then Number_toString x
  else if PrimFloat.is_zero x then js "0.0"
  else
    match magnitude x with
    | Some (m, e) =>
        let v := ratio_of m e in
        if qle (10 ^ 21, 1) v then Number_toString x
        else
          let (num, den) := v in
          let n := (2 * 10 * num + den) / (2 * den) in
          (if PrimFloat.ltb x 0 then [45%N] else [])
          ++ Z_digits (n / 10) ++ [46%N] ++ Z_digits (n mod 10)
    | None => js "0.0"
    end.

(** The binary64 nearest to [num / den] (both positive), ties to even. *)
Definition nearestFloat (num den : Z) : float :=
  let t := Z.log2 num - Z.log2 den in
  (* 2^(t-1) <= num/den < 2^(t+1) *)
  let t' := if qle (ratio_of 1 t) (num, den) then t else t - 1 in
  let e := Z.max (t' - 52) (-1074) in
  let (n2, d2) := if 0 <=? e then (num, den * 2 ^ e) else (num * 2 ^ (- e), den) in
  let q := n2 / d2 in
  let r := n2 mod d2 in
  let m := if 2 * r <? d2 then q
           else if d2 <? 2 * r then q + 1
           else if Z.even q then q else q + 1 in
  if 1024 <=? Z.log2 m + e then PrimFloat.infinity
  else Z.ldexp (PrimFloat.of_uint63 (Uint63.of_Z m)) e.

Definition splitAt (c1 c2 : N) (s : jsstring) : jsstring * option jsstring :=
  (fix go (s : jsstring) : jsstring * option jsstring :=
     match s with
     | [] => ([], None)
     | c :: r =>
         if ((c =? c1) || (c =? c2))%N then ([], Some r)
         else let (a, b) := go r in (c :: a, b)
     end) s.

(** The value of a JSON numeric literal (its grammar already checked). *)
Definition StringToNumber (lit : jsstring) : float :=
  let (neg, body) :=
    match lit with
    | c :: r => if (c =? 45)%N then (true, r) else (false, lit)
    | [] => (false, [])
    end in
  let (mant, expo) := splitAt 101 69 body in
  let (ipart, fpart) := splitAt 46 46 mant in
  let frac := match fpart with Some f => f | None => [] end in
  let ex :=
    match expo with
    | Some (c :: r) =>
        if (c =? 45)%N then - (match number_of r with Some n => n | None => 0 end)
        else if (c =? 43)%N then match number_of r with Some n => n | None => 0 end
        else match number_of (c :: r) with Some n => n | None => 0 end
    | _ => 0
    end in
  let digits := match digitsVal 0 (ipart ++ frac) with Some n => n | None => 0 end in
  let p := ex - Z.of_nat (length frac) in
  let magnitudeValue :=
    if digits =? 0 then 0%float
    else let (num, den) := scale10 (digits, 1) p in nearestFloat num den in
  if neg then PrimFloat.opp magnitudeValue else magnitudeValue.

End RefHost.
Section Pipeline.

(** [Date.parse]: the time value in milliseconds, [None] for [NaN]. *)
Variable Date_parse : jsstring -> option Z.
(** [Number.prototype.toFixed] with one fraction digit. *)
Variable toFixed1 : float -> jsstring.
(** [Number::toString], used by template literals and [JSON.stringify]. *)
Variable Number_toString : float -> jsstring.
(** The number a JSON numeric literal denotes. *)
Variable StringToNumber : jsstring -> float.

(** *** JSON.stringify *)

Definition hexdigit (d : N) : N := if d <? 10 then 48 + d else 87 + d.

(** [\uXXXX], lower-case hexadecimal. *)
Definition unicodeEscape (c : N) : jsstring :=
  [92; 117; hexdigit (c / 4096 mod 16); hexdigit (c / 256 mod 16);
   hexdigit (c / 16 mod 16); hexdigit (c mod 16)].

Definition is_high_surrogate (c : N) : bool := (0xD800 <=? c) && (c <=? 0xDBFF).
Definition is_low_surrogate (c : N) : bool := (0xDC00 <=? c) && (c <=? 0xDFFF).

(** One code unit that is not half of a surrogate pair, as QuoteJSONString
    writes it. *)
Definition quoteUnit (c : N) : jsstring :=
  if c =? 8 then [92; 98]
  else if c =? 9 then [92; 116]
  else if c =? 10 then [92; 110]
  else if c =? 12 then [92; 102]
  else if c =? 13 then [92; 114]
  else if c =? 34 then [92; 34]
  else if c =? 92 then [92; 92]
  else if (c <? 32) || is_high_surrogate c || is_low_surrogate c
       then unicodeEscape c
  else [c].

Fixpoint quoteChars (s : jsstring) : jsstring :=
  match s with
  | [] => []
  | c :: r =>
      if is_high_surrogate c then
        match r with
        | d :: r' =>
            if is_low_surrogate d then c :: d :: quoteChars r'
            else quoteUnit c ++ quoteChars r
        | [] => quoteUnit c
        end
      else quoteUnit c ++ quoteChars r
  end.

Definition QuoteJSONString (s : jsstring) : jsstring :=
  dquote ++ quoteChars s ++ dquote.

(** [parts.join(',')] *)
Fixpoint join_comma (parts : list jsstring) : jsstring :=
  match parts with
  | [] => []
  | [p] => p
  | p :: ps => p ++ [44] ++ join_comma ps
  end.

(** A number is written by [Number::toString] when finite, as [null]
    otherwise. *)
Definition stringify_num (x : float) : jsstring :=
  if PrimFloat.is_nan x || PrimFloat.is_infinity x then js "null"
  else Number_toString x.

Fixpoint JSON_stringify (v : json) : jsstring :=
  match v with
  | JNull => js "null"
  | JBool true => js "true"
  | JBool false => js "false"
  | JNum x => stringify_num x
  | JStr s => QuoteJSONString s
  | JArr items => [91] ++ join_comma (map JSON_stringify items) ++ [93]
  | JObj props =>
      [123]
      ++ join_comma
           (map (fun kv => QuoteJSONString (fst kv) ++ [58] ++ JSON_stringify (snd kv))
                props)
      ++ [125]
  end.

(** *** JSON.parse *)

Definition is_json_ws (c : N) : bool :=
  (c =? 9) || (c =? 10) || (c =? 13) || (c =? 32).

Fixpoint skip_ws (s : jsstring) : jsstring :=
  match s with
  | c :: r => if is_json_ws c then skip_ws r else s
  | [] => []
  end.

Definition hexval (c : N) : option N :=
  if (48 <=? c) && (c <=? 57) then Some (c - 48)
  else if (97 <=? c) && (c <=? 102) then Some (c - 87)
  else if (65 <=? c) && (c <=? 70) then Some (c - 55)
  else None.

Definition hex4 (a b c d : N) : option N :=
  match hexval a, hexval b, hexval c, hexval d with
  | Some x, Some y, Some z, Some w => Some (((x * 16 + y) * 16 + z) * 16 + w)
  | _, _, _, _ => None
  end.

(** The code unit a single-character escape stands for. *)
Definition unescape (e : N) : option N :=
  if e =? 34 then Some 34
  else if e =? 92 then Some 92
  else if e =? 47 then Some 47
  else if e =? 98 then Some 8
  else if e =? 102 then Some 12
  else if e =? 110 then Some 10
  else if e =? 114 then Some 13
  else if e =? 116 then Some 9
  else None.

(** The characters of a string literal after its opening quote, up to and
    including the closing quote. *)
Fixpoint parse_chars (s : jsstring) : option (jsstring * jsstring) :=
  match s with
  | [] => None
  | c :: r =>
      if c =? 34 then Some ([], r)
      else if c =? 92 then
        match r with
        | e :: r1 =>
            if e =? 117 then
              match r1 with
              | h1 :: h2 :: h3 :: h4 :: r2 =>
                  match hex4 h1 h2 h3 h4, parse_chars r2 with
                  | Some u, Some (str, rest) => Some (u :: str, rest)
                  | _, _ => None
                  end
              | _ => None
              end
            else
              match unescape e, parse_chars r1 with
              | Some u, Some (str, rest) => Some (u :: str, rest)
              | _, _ => None
              end
        | [] => None
        end
      else if c <? 32 then None
      else
        match parse_chars r with
        | Some (str, rest) => Some (c :: str, rest)
        | None => None
        end
  end.

Definition is_digit (c : N) : bool := (48 <=? c) && (c <=? 57).

Fixpoint take_digits (s : jsstring) : jsstring * jsstring :=
  match s with
  | c :: r =>
      if is_digit c then let (d, rest) := take_digits r in (c :: d, rest)
      else ([], s)
  | [] => ([], [])
  end.

Definition scan_int (s : jsstring) : option (jsstring * jsstring) :=
  match s with
  | c :: r =>
      if c =? 48 then Some ([48], r)
      else if is_digit c then let (d, rest) := take_digits r in Some (c :: d, rest)
      else None
  | [] => None
  end.

Definition scan_frac (s : jsstring) : option (jsstring * jsstring) :=
  match s with
  | c :: r =>
      if c =? 46 then
        match take_digits r with
        | ([], _) => None
        | (d, rest) => Some (46 :: d, rest)
        end
      else Some ([], s)
  | [] => Some ([], [])
  end.

Definition scan_sign (s : jsstring) : jsstring * jsstring :=
  match s with
  | x :: r => if (x =? 43) || (x =? 45) then ([x], r) else ([], s)
  | [] => ([], [])
  end.

Definition scan_exp (s : jsstring) : option (jsstring * jsstring) :=
  match s with
  | c :: r =>
      if (c =? 101) || (c =? 69) then
        let (sign, r1) := scan_sign r in
        match take_digits r1 with
        | ([], _) => None
        | (d, rest) => Some (c :: sign ++ d, rest)
        end
      else Some ([], s)
  | [] => Some ([], [])
  end.

(** A JSON numeric literal at the head of [s]: its text and what follows. *)
Definition scan_number (s : jsstring) : option (jsstring * jsstring) :=
  let (sign, r0) :=
    match s with
    | c :: r => if c =? 45 then ([45], r) else ([], s)
    | [] => ([], [])
    end in
  match scan_int r0 with
  | Some (i, r1) =>
      match scan_frac r1 with
      | Some (f, r2) =>
          match scan_exp r2 with
          | Some (e, r3) => Some (sign ++ i ++ f ++ e, r3)
          | None => None
          end
      | None => None
      end
  | None => None
  end.

(** A property key that is an array index (the canonical decimal form of an
    integer below 2^32 - 1): such keys are enumerated first, in ascending
    order. *)
Definition array_index (k : jsstring) : option N :=
  match k with
  | [] => None
  | c :: r =>
      if forallb is_digit k && (negb (c =? 48) || (length r =? 0)%nat) then
        let n := fold_left (fun acc d => acc * 10 + (d - 48)) k 0 in
        if n <? 4294967295 then Some n else None
      else None
  end.

Fixpoint obj_has (k : jsstring) (props : list (jsstring * json)) : bool :=
  match props with
  | (k', _) :: ps => if decide (k = k') then true else obj_has k ps
  | [] => false
  end.

Fixpoint obj_replace (k : jsstring) (v : json) (props : list (jsstring * json))
  : list (jsstring * json) :=
  match props with
  | (k', v') :: ps =>
      if decide (k = k') then (k', v) :: ps else (k', v') :: obj_replace k v ps
  | [] => []
  end.

Fixpoint obj_insert_index (n : N) (k : jsstring) (v : json)
    (props : list (jsstring * json)) : list (jsstring * json) :=
  match props with
  | (k', v') :: ps =>
      match array_index k' with
      | Some m =>
          if m <? n then (k', v') :: obj_insert_index n k v ps
          else (k, v) :: props
      | None => (k, v) :: props
      end
  | [] => [(k, v)]
  end.

(** CreateDataProperty on an ordinary object: an existing key keeps its
    place, a new array index goes among the indices, any other new key goes
    last. *)
Definition obj_set (k : jsstring) (v : json) (props : list (jsstring * json))
  : list (jsstring * json) :=
  if obj_has k props then obj_replace k v props
  else match array_index k with
       | Some n => obj_insert_index n k v props
       | None => props ++ [(k, v)]
       end.

Fixpoint parse_value (fuel : nat) (s : jsstring) {struct fuel}
  : option (json * jsstring) :=
  match fuel with
  | O => None
  | S f =>
      match skip_ws s with
      | [] => None
      | c :: r =>
          if c =? 34 then
            match parse_chars r with
            | Some (str, rest) => Some (JStr str, rest)
            | None => None
            end
          else if c =? 91 then
            match skip_ws r with
            | d :: r' =>
                if d =? 93 then Some (JArr [], r')
                else match parse_elems f r with
                     | Some (l, rest) => Some (JArr l, rest)
                     | None => None
                     end
            | [] => None
            end
          else if c =? 123 then
            match skip_ws r with
            | d :: r' =>
                if d =? 125 then Some (JObj [], r')
                else match parse_members f r [] with
                     | Some (ps, rest) => Some (JObj ps, rest)
                     | None => None
                     end
            | [] => None
            end
          else if startsWith (js "true") (c :: r) then Some (JBool true, skipn 3 r)
          else if startsWith (js "false") (c :: r) then Some (JBool false, skipn 4 r)
          else if startsWith (js "null") (c :: r) then Some (JNull, skipn 3 r)
          else
            match scan_number (c :: r) with
            | Some (lit, rest) => Some (JNum (StringToNumber lit), rest)
            | None => None
            end
      end
  end
with parse_elems (fuel : nat) (s : jsstring) {struct fuel}
  : option (list json * jsstring) :=
  match fuel with
  | O => None
  | S f =>
      match parse_value f s with
      | Some (v, r) =>
          match skip_ws r with
          | c :: r' =>
              if c =? 44 then
                match parse_elems f r' with
                | Some (l, rest) => Some (v :: l, rest)
                | None => None
                end
              else if c =? 93 then Some ([v], r')
              else None
          | [] => None
          end
      | None => None
      end
  end
with parse_members (fuel : nat) (s : jsstring) (acc : list (jsstring * json))
    {struct fuel} : option (list (jsstring * json) * jsstring) :=
  match fuel with
  | O => None
  | S f =>
      match skip_ws s with
      | c :: r =>
          if c =? 34 then
            match parse_chars r with
            | Some (k, r1) =>
                match skip_ws r1 with
                | c1 :: r2 =>
                    if c1 =? 58 then
                      match parse_value f r2 with
                      | Some (v, r3) =>
                          match skip_ws r3 with
                          | c3 :: r4 =>
                              if c3 =? 44 then parse_members f r4 (obj_set k v acc)
                              else if c3 =? 125 then Some (obj_set k v acc, r4)
                              else None
                          | [] => None
                          end
                      | None => None
                      end
                    else None
                | [] => None
                end
            | None => None
            end
          else None
      | [] => None
      end
  end.

(** [JSON.parse(text)]; [None] stands for the SyntaxError it throws.  The
    fuel is two per code unit, which no text exhausts. *)
Definition JSON_parse (text : jsstring) : option json :=
  match parse_value (2 * length text + 1) text with
  | Some (v, rest) =>
      match skip_ws rest with
      | [] => Some v
      | _ :: _ => None
      end
  | None => None
  end.

(** *** Property access on parsed values *)

Fixpoint obj_get (k : jsstring) (props : list (jsstring * json)) : option json :=
  match props with
  | (k', v) :: ps => if decide (k = k') then Some v else obj_get k ps
  | [] => None
  end.

(** [v[key]] for a value that is neither [null] nor [undefined]; [None] is
    [undefined].  Meant for keys that name no built-in property (the
    pipeline reads [candidates], [content], [parts], [text] and [0]). *)
Definition get_prop (v : json) (key : jsstring) : option json :=
  match v with
  | JObj props => obj_get key props
  | JArr items =>
      match array_index key with
      | Some n => nth_error items (N.to_nat n)
      | None => None
      end
  | JStr s =>
      match array_index key with
      | Some n => option_map (fun c => JStr [c]) (nth_error s (N.to_nat n))
      | None => None
      end
  | _ => None
  end.

(** [v?.[key]]: [undefined] when [v] is [undefined] or [null]. *)
Definition opt_get (v : option json) (key : jsstring) : option json :=
  match v with
  | None | Some JNull => None
  | Some x => get_prop x key
  end.

(** ** 3. Actions *)

(** An element of the [userActions] prop.  [handleGetAdvice] reads each
    property defensively, so each may be missing. *)
Record Action := {
  ua_action : option jsstring;
  ua_description : option jsstring;
  ua_name : option jsstring;
  ua_sustainabilityScore : option float;
  ua_score : option float;
  ua_carbonImpact : option float;
  ua_timestamp : option jsstring;
  ua_date : option jsstring;
  ua_category : option jsstring;
  ua_type : option jsstring
}.

(** An element of [formattedActions]. *)
Record FAction := {
  fa_action : jsstring;
  fa_sustainabilityScore : float;
  fa_timestamp : jsstring;
  fa_category : jsstring
}.

(** The result of [generateLocalAdvice]. *)
Record AdviceRecord := {
  insights : list jsstring;
  recommendations : list jsstring;
  summary : jsstring
}.

(** The object literal [{ insights, recommendations, summary }] as a value. *)
Definition advice_value (r : AdviceRecord) : json :=
  JObj [ (js "insights", JArr (map JStr (insights r)));
         (js "recommendations", JArr (map JStr (recommendations r)));
         (js "summary", JStr (summary r)) ].

(** ** 4. Checkpoint selection ([handleGetAdvice], the filter on
       [mostRecentInsightsTimestamp]) *)

(** [new Date(a) > new Date(b)]: both sides become time values; a [NaN]
    on either side makes the comparison false. *)
Definition date_gt (a b : option Z) : bool :=
  match a, b with
  | Some x, Some y => (y <? x)%Z
  | _, _ => false
  end.

(** The callback of [userActions.filter]. *)
Definition isNewAction (lastInsightsDate : option Z) (action : Action) : bool :=
  let actionTimestamp := or_str (ua_timestamp action) (ua_date action) in
  if negb (truthy actionTimestamp) then false
  else match actionTimestamp with
       | Some ts => date_gt (Date_parse ts) lastInsightsDate
       | None => false
       end.

(** [newActions] as computed from [userActions] and the checkpoint read
    from the store. *)
Definition newActions (userActions : list Action)
    (mostRecentInsightsTimestamp : option jsstring) : list Action :=
  if truthy mostRecentInsightsTimestamp then
    match mostRecentInsightsTimestamp with
    | Some T => List.filter (isNewAction (Date_parse T)) userActions
    | None => userActions
    end
  else userActions.

(** ** 5. Aggregation *)

(** [v || lit] where [lit] is a non-empty literal. *)
Definition str_or_literal (v : option jsstring) (lit : jsstring) : jsstring :=
  match v with
  | Some (c :: s) => c :: s
  | _ => lit
  end.

(** [v || 0] *)
Definition num_or_zero (v : option float) : float :=
  match v with
  | Some x => if truthy_num v then x else 0%float
  | None => 0%float
  end.

(** The object built by the callback of [newActions.map]; [timestamp] is the
    value of [action.timestamp || action.date || new Date().toISOString()],
    computed by [timestampOf] below because it may read the clock. *)
Definition formatAction (timestamp : jsstring) (action : Action) : FAction :=
  {| fa_action :=
       str_or_literal
         (or_str (or_str (ua_action action) (ua_description action)) (ua_name action))
         (js "Unknown action");
     fa_sustainabilityScore :=
       num_or_zero
         (or_num (or_num (ua_sustainabilityScore action) (ua_score action))
                 (ua_carbonImpact action));
     fa_timestamp := timestamp;
     fa_category :=
       str_or_literal (or_str (ua_category action) (ua_type action)) (js "General") |}.

(** [formattedActions.reduce((sum, a) => sum + a.sustainabilityScore, 0)] *)
Definition sumScores (l : list FAction) : float :=
  fold_left (fun sum a => (sum + fa_sustainabilityScore a)%float) l 0%float.

(** An array length as a number (exact: lengths stay below 2^32). *)
Definition length_num {A} (l : list A) : float :=
  PrimFloat.of_uint63 (Uint63.of_Z (Z.of_nat (length l))).

Definition avgOf (totalScore : float) (formattedActions : list FAction) : float :=
  if (0 <? length formattedActions)%nat
  then (totalScore / length_num formattedActions)%float
  else 0%float.

Definition isHighImpact (a : FAction) : bool :=
  (50 <? fa_sustainabilityScore a)%float.

Definition isLowImpact (a : FAction) : bool :=
  (fa_sustainabilityScore a <? 25)%float.

Definition highImpactOf (formattedActions : list FAction) : list FAction :=
  List.filter isHighImpact formattedActions.

Definition lowImpactOf (formattedActions : list FAction) : list FAction :=
  List.filter isLowImpact formattedActions.

(** The actions in neither bucket. *)
Definition neitherOf (formattedActions : list FAction) : list FAction :=
  List.filter (fun a => negb (isHighImpact a) && negb (isLowImpact a)) formattedActions.

(** ** 6. The local advice generator

    The literal [0.7] is written as the binary64 value it denotes. *)

Definition bindC {A B} (c : Completion A) (k : A -> Completion B) : Completion B :=
  match c with
  | Normal a => k a
  | Throw e => Throw e
  end.

Definition kgCO2 : jsstring := js " kg CO" ++ sub2.

Definition plural (n : nat) : jsstring := if (1 <? n)%nat then js "s" else [].

Definition hasCategory (c : string) (a : FAction) : bool :=
  bool_decide (fa_category a = js c).

Definition generateLocalAdvice (actions : list FAction) (totalScore avgScore : float)
    (highImpactActions lowImpactActions : list FAction) : Completion AdviceRecord :=
  bindC
    (if (0 <? length highImpactActions)%nat then
       match nth_error highImpactActions 0 with
       | Some top =>
           Normal
             [ js "You have " ++ nat_toString (length highImpactActions)
               ++ js " high-impact action" ++ plural (length highImpactActions)
               ++ js " with carbon scores above 50" ++ kgCO2
               ++ js ". Focus on reducing these first for maximum impact.";
               js "Top concern: " ++ dquote ++ fa_action top ++ dquote
               ++ js " has a carbon impact of "
               ++ Number_toString (fa_sustainabilityScore top) ++ kgCO2 ++ js "." ]
       | None => Throw (js "Cannot read properties of undefined (reading 'action')")
       end
     else Normal [])
    (fun ins1 =>
       let ins2 :=
         if (0 <? length lowImpactActions)%nat then
           ins1 ++ [ js "Great job! You have " ++ nat_toString (length lowImpactActions)
                     ++ js " low-impact action" ++ plural (length lowImpactActions)
                     ++ js " with carbon scores below 25" ++ kgCO2 ++ js "." ]
         else ins1 in
       let transportationActions := List.filter (hasCategory "Transportation") actions in
       let ins3 :=
         if (0 <? length transportationActions)%nat then
           let transportScore := sumScores transportationActions in
           ins2 ++ [ js "Transportation accounts for "
                     ++ toFixed1 ((transportScore / totalScore) * 100)%float
                     ++ js "% of your total carbon impact." ]
         else ins2 in
       let ins4 :=
         ins3 ++ [ js "Your average carbon impact per action is "
                   ++ toFixed1 avgScore ++ kgCO2 ++ js "." ] in
       let rec1 :=
         if existsb (hasCategory "Transportation") highImpactActions then
           [ js "Consider using public transportation, cycling, or walking instead of driving. These alternatives can reduce your transportation carbon footprint by 60-80%." ]
         else [] in
       let rec2 :=
         if existsb (hasCategory "Energy") highImpactActions then
           rec1 ++ [ js "Optimize your energy usage: turn off lights when not in use, use energy-efficient appliances, and consider renewable energy sources." ]
         else rec1 in
       let rec3 :=
         if existsb (fun a => hasCategory "Food" a
                              && (20 <? fa_sustainabilityScore a)%float) actions then
           rec2 ++ [ js "Incorporate more plant-based meals into your diet. Plant-based foods typically have a much lower carbon footprint than meat and dairy." ]
         else rec2 in
       let rec4 :=
         rec3 ++ [ js "Continue your positive actions like composting, using reusable items, and choosing sustainable transportation options." ] in
       let rec5 :=
         rec4 ++ [ js "Set a goal to reduce your average carbon impact per action from "
                   ++ toFixed1 avgScore ++ kgCO2 ++ js " to below "
                   ++ toFixed1 (avgScore * 0x1.6666666666666p-1)%float ++ kgCO2
                   ++ js " over the next month." ] in
       Normal
         {| insights := firstn 5 ins4;
            recommendations := firstn 5 rec5;
            summary :=
              js "Based on " ++ nat_toString (length actions)
              ++ js " tracked actions, you have a total carbon impact of "
              ++ toFixed1 totalScore ++ kgCO2 ++ js ". "
              ++ (if (0 <? length highImpactActions)%nat
                  then js "Focus on reducing high-impact activities, particularly in transportation and energy usage."
                  else js "Continue your sustainable practices and look for additional opportunities to reduce your carbon footprint.") |}).

(** ** 7. The world the component runs in *)

(** The Firestore document [users/{uid}]. *)
Record UserDoc := {
  actions : gmap jsstring float;
  actionTimestamps : gmap jsstring jsstring;
  previousAdvice : option (gmap jsstring jsstring);
  mostRecentInsightsTimestamp : option jsstring
}.

(** A resolved [fetch]. *)
Record Response := {
  ok : bool;
  statusText : jsstring;
  body : jsstring
}.

Inductive FetchOutcome :=
| FetchRejected (message : jsstring)
| FetchResponse (r : Response).

(** What one run of the handler finds around it. *)
Record Env := {
  user : bool;                  (* [user] is not null *)
  apiKey : option jsstring;     (* [process.env.REACT_APP_GEMINI_API_KEY] *)
  clock : nat -> jsstring;      (* the n-th [new Date().toISOString()] *)
  rejects : nat -> bool;        (* whether the n-th Firestore call rejects *)
  fetch : FetchOutcome          (* how the service answers the request *)
}.

(** The variables [handleGetAdvice] declares before its [try]. *)
Record Locals := {
  formattedActions : list FAction;
  totalScore : float;
  avgScore : float;
  highImpactActions : list FAction;
  lowImpactActions : list FAction
}.

Record State := {
  doc : option UserDoc;         (* the stored document, if it exists *)
  ticks : nat;                  (* clock readings so far *)
  calls : nat;                  (* Firestore calls so far *)
  advice : json;                (* component state, [JNull] for null *)
  error : option jsstring;
  loading : bool;
  locals : Locals
}.

Definition M (A : Type) : Type := State -> Completion A * State.

Definition ret {A} (a : A) : M A := fun st => (Normal a, st).

Definition throw {A} (message : jsstring) : M A := fun st => (Throw message, st).

Definition bind {A B} (m : M A) (k : A -> M B) : M B :=
  fun st =>
    match m st with
    | (Normal a, st') => k a st'
    | (Throw e, st') => (Throw e, st')
    end.

Notation "x <- m ;; k" := (bind m (fun x => k))
  (at level 100, m at next level, right associativity).
Notation "m ;;; k" := (bind m (fun _ => k))
  (at level 100, right associativity).

(** [try { m } catch (e) { h e }] *)
Definition try_catch {A} (m : M A) (h : jsstring -> M A) : M A :=
  fun st =>
    match m st with
    | (Normal a, st') => (Normal a, st')
    | (Throw e, st') => h e st'
    end.

(** [try { m } finally { f }] *)
Definition try_finally {A} (m : M A) (f : M unit) : M A :=
  fun st =>
    match m st with
    | (c, st') =>
        match f st' with
        | (Normal _, st'') => (c, st'')
        | (Throw e, st'') => (Throw e, st'')
        end
    end.

Definition liftC {A} (c : Completion A) : M A := fun st => (c, st).

Definition with_advice (st : State) (v : json) : State :=
  {| doc := doc st; ticks := ticks st; calls := calls st; advice := v;
     error := error st; loading := loading st; locals := locals st |}.

Definition with_error (st : State) (e : option jsstring) : State :=
  {| doc := doc st; ticks := ticks st; calls := calls st; advice := advice st;
     error := e; loading := loading st; locals := locals st |}.

Definition with_loading (st : State) (b : bool) : State :=
  {| doc := doc st; ticks := ticks st; calls := calls st; advice := advice st;
     error := error st; loading := b; locals := locals st |}.

Definition with_locals (st : State) (l : Locals) : State :=
  {| doc := doc st; ticks := ticks st; calls := calls st; advice := advice st;
     error := error st; loading := loading st; locals := l |}.

Definition ticked (st : State) : State :=
  {| doc := doc st; ticks := S (ticks st); calls := calls st;
     advice := advice st; error := error st; loading := loading st;
     locals := locals st |}.

(** The state after one more Firestore call that left the document as [d]. *)
Definition called (st : State) (d : option UserDoc) : State :=
  {| doc := d; ticks := ticks st; calls := S (calls st); advice := advice st;
     error := error st; loading := loading st; locals := locals st |}.

Definition setAdvice (v : json) : M unit :=
  fun st => (Normal tt, with_advice st v).

Definition setError (e : option jsstring) : M unit :=
  fun st => (Normal tt, with_error st e).

Definition setLoading (b : bool) : M unit :=
  fun st => (Normal tt, with_loading st b).

Definition setLocals (l : Locals) : M unit :=
  fun st => (Normal tt, with_locals st l).

Definition getLocals : M Locals := fun st => (Normal (locals st), st).

(** [new Date().toISOString()] *)
Definition now (env : Env) : M jsstring :=
  fun st => (Normal (clock env (ticks st)), ticked st).

(** [await getDoc(userDocRef)]: the data when the document exists. *)
Definition getDoc (env : Env) : M (option UserDoc) :=
  fun st =>
    if rejects env (calls st) then (Throw (js "unavailable"), called st (doc st))
    else (Normal (doc st), called st (doc st)).

(** [await updateDoc(userDocRef, { mostRecentInsightsTimestamp, previousAdvice })]:
    the two fields are replaced, the others kept. *)
Definition updateDoc (env : Env) (timestamp : jsstring)
    (advices : gmap jsstring jsstring) : M unit :=
  fun st =>
    if rejects env (calls st) then (Throw (js "unavailable"), called st (doc st))
    else match doc st with
         | Some d =>
             (Normal tt,
              called st (Some {| actions := actions d;
                                 actionTimestamps := actionTimestamps d;
                                 previousAdvice := Some advices;
                                 mostRecentInsightsTimestamp := Some timestamp |}))
         | None => (Throw (js "not-found"), called st None)
         end.

(** ** 8. [saveInsightsToFirestore] *)

(** [userData.previousAdvice || {}] *)
Definition adviceMap (userData : UserDoc) : gmap jsstring jsstring :=
  match previousAdvice userData with
  | Some m => m
  | None => ∅
  end.

Definition saveInsightsToFirestore (env : Env) (adviceData : json) : M unit :=
  if negb (user env) then ret tt
  else
    try_catch
      (userDoc <- getDoc env ;;
       match userDoc with
       | Some userData =>
           let currentPreviousAdvice := adviceMap userData in
           timestamp <- now env ;;
           let adviceString := JSON_stringify adviceData in
           updateDoc env timestamp (<[timestamp := adviceString]> currentPreviousAdvice)
       | None => ret tt
       end)
      (fun _ => ret tt).

(** ** 9. [handleGetAdvice] *)

Definition msgNoActions : jsstring :=
  js "No user actions available. Please record some actions first.".

Definition msgNoNewActions : jsstring :=
  js "No new actions since your last insights. Add some new actions to get updated insights!".

Definition noLocals : Locals :=
  {| formattedActions := []; totalScore := 0%float; avgScore := 0%float;
     highImpactActions := []; lowImpactActions := [] |}.

(** The first [try] of the handler: the checkpoint read from the store,
    [userData.mostRecentInsightsTimestamp || null]. *)
Definition fetchCheckpoint (env : Env) : M (option jsstring) :=
  if user env then
    try_catch
      (userDoc <- getDoc env ;;
       match userDoc with
       | Some userData =>
           ret (or_str (mostRecentInsightsTimestamp userData) None)
       | None => ret None
       end)
      (fun _ => ret None)
  else ret None.

(** Insertion of a key into a list sorted by [str_leb]. *)
Fixpoint insert_sorted (k : jsstring) (l : list jsstring) : list jsstring :=
  match l with
  | [] => [k]
  | x :: r => if str_leb k x then k :: l else x :: insert_sorted k r
  end.

(** [keys.sort()] *)
Definition sort_strings (keys : list jsstring) : list jsstring :=
  fold_right insert_sorted [] keys.

(** [Object.keys(previousAdvice).sort().reverse()] *)
Definition adviceTimestamps (advices : gmap jsstring jsstring) : list jsstring :=
  rev (sort_strings (map fst (map_to_list advices))).

(** [try { setAdvice(JSON.parse(text)) } catch { console.error }] *)
Definition showStored (text : option jsstring) : M unit :=
  match text with
  | Some s =>
      match JSON_parse s with
      | Some previousAdviceData => setAdvice previousAdviceData
      | None => ret tt
      end
  | None => ret tt
  end.

(** The branch taken when a checkpoint exists and nothing is newer. *)
Definition showPreviousAdvice (env : Env) (checkpoint : jsstring) : M unit :=
  try_catch
    (userDoc <- getDoc env ;;
     match userDoc with
     | Some userData =>
         let advices := adviceMap userData in
         let mostRecentAdviceString := advices !! checkpoint in
         if truthy mostRecentAdviceString then showStored mostRecentAdviceString
         else
           match adviceTimestamps advices with
           | latest :: _ => showStored (advices !! latest)
           | [] => ret tt
           end
     | None => ret tt
     end)
    (fun _ => ret tt).

(** [action.timestamp || action.date || new Date().toISOString()] *)
Definition timestampOf (env : Env) (action : Action) : M jsstring :=
  match or_str (ua_timestamp action) (ua_date action) with
  | Some (c :: s) => ret (c :: s)
  | _ => now env
  end.

(** [newActions.map(action => ({ ... }))] *)
Fixpoint formatActions (env : Env) (l : list Action) : M (list FAction) :=
  match l with
  | [] => ret []
  | action :: rest =>
      timestamp <- timestampOf env action ;;
      formatted <- formatActions env rest ;;
      ret (formatAction timestamp action :: formatted)
  end.

(** The statistics over the new actions. *)
Definition statsOf (formatted : list FAction) : Locals :=
  let total := sumScores formatted in
  {| formattedActions := formatted;
     totalScore := total;
     avgScore := avgOf total formatted;
     highImpactActions := highImpactOf formatted;
     lowImpactActions := lowImpactOf formatted |}.

Definition localAdviceOf (l : Locals) : Completion AdviceRecord :=
  generateLocalAdvice (formattedActions l) (totalScore l) (avgScore l)
                      (highImpactActions l) (lowImpactActions l).

Definition fence : jsstring := js "```".

(** [([\s\S]*?)\s*```] at the head of [s]: the shortest prefix after which
    optional white space and a closing fence follow. *)
Fixpoint lazy_capture (s : jsstring) : option jsstring :=
  match s with
  | [] => None
  | c :: r =>
      if startsWith fence (trimStart s) then Some []
      else option_map (cons c) (lazy_capture r)
  end.

(** Group 1 of the leftmost match of [opener\s*([\s\S]*?)\s*```] in [s]. *)
Fixpoint match_fence (opener s : jsstring) : option jsstring :=
  match s with
  | [] => None
  | _ :: r =>
      if startsWith opener s then
        match lazy_capture (trimStart (skipn (length opener) s)) with
        | Some captured => Some captured
        | None => match_fence opener r
        end
      else match_fence opener r
  end.

(** The object built when the text is not JSON. *)
Definition rawAdvice (responseText : jsstring) : json :=
  JObj [ (js "message", JStr responseText);
         (js "insights",
          JArr (map JStr
                  (firstn 5
                     (List.filter (fun line => (0 <? length (trim line))%nat)
                             (split_lines responseText))))) ].

(** [jsonMatch ? jsonMatch[1] : responseText], where [jsonMatch] is the
    match of the [```json] pattern or else of the bare [```] pattern. *)
Definition jsonTextOf (responseText : jsstring) : jsstring :=
  let jsonMatch :=
    match match_fence (js "```json") responseText with
    | Some captured => Some captured
    | None => match_fence fence responseText
    end in
  match jsonMatch with
  | Some captured => captured
  | None => responseText
  end.

(** The inner [try]/[catch] around [JSON.parse]. *)
Definition adviceFromText (responseText : jsstring) : json :=
  match JSON_parse (trim (jsonTextOf responseText)) with
  | Some adviceData => adviceData
  | None => rawAdvice responseText
  end.

(** [ToBoolean] of a value met by [|| ''] *)
Definition json_truthy (v : option json) : bool :=
  match v with
  | None | Some JNull => false
  | Some (JBool b) => b
  | Some (JNum x) => negb (PrimFloat.is_zero x || PrimFloat.is_nan x)
  | Some (JStr s) => negb (length s =? 0)%nat
  | Some (JArr _) | Some (JObj _) => true
  end.

(** [geminiData.candidates?.[0]?.content?.parts?.[0]?.text || ''] *)
Definition responseTextOf (geminiData : json) : Completion json :=
  match geminiData with
  | JNull => Throw (js "Cannot read properties of null (reading 'candidates')")
  | _ =>
      let text :=
        opt_get
          (opt_get
             (opt_get
                (opt_get (opt_get (get_prop geminiData (js "candidates")) (js "0"))
                         (js "content"))
                (js "parts"))
             (js "0"))
          (js "text") in
      Normal (match text with
              | Some v => if json_truthy text then v else JStr []
              | None => JStr []
              end)
  end.

(** The part of the outer [try] from the credentials check on. *)
Definition generateRemote (env : Env) (l : Locals) : M unit :=
  if negb (truthy (apiKey env)) then
    localAdvice <- liftC (localAdviceOf l) ;;
    setAdvice (advice_value localAdvice) ;;;
    saveInsightsToFirestore env (advice_value localAdvice)
  else
    match fetch env with
    | FetchRejected message => throw message
    | FetchResponse geminiResponse =>
        if negb (ok geminiResponse) then
          throw (js "Gemini API error: " ++ statusText geminiResponse)
        else
          match JSON_parse (body geminiResponse) with
          | None => throw (js "Unexpected token in JSON")
          | Some geminiData =>
              responseText <- liftC (responseTextOf geminiData) ;;
              match responseText with
              | JStr text =>
                  let adviceData := adviceFromText text in
                  setAdvice adviceData ;;;
                  saveInsightsToFirestore env adviceData
              | _ => throw (js "responseText.split is not a function")
              end
          end
    end.

(** The outer [catch]. *)
Definition fallbackLocal (env : Env) (message : jsstring) : M unit :=
  l <- getLocals ;;
  try_catch
    (localAdvice <- liftC (localAdviceOf l) ;;
     setAdvice (advice_value localAdvice) ;;;
     saveInsightsToFirestore env (advice_value localAdvice) ;;;
     setError None)
    (fun _ =>
       setError (Some (match message with
                       | [] => js "Failed to fetch personalized advice. Please try again."
                       | _ :: _ => message
                       end))).

Definition handleGetAdvice (env : Env) (userActions : list Action) : M unit :=
  if (length userActions =? 0)%nat then setError (Some msgNoActions)
  else
    setLoading true ;;;
    setAdvice JNull ;;;
    setError None ;;;
    setLocals noLocals ;;;
    try_finally
      (try_catch
         (checkpoint <- fetchCheckpoint env ;;
          let selected := newActions userActions checkpoint in
          if (length selected =? 0)%nat then
            (if truthy checkpoint then
               match checkpoint with
               | Some T => showPreviousAdvice env T ;;; setError (Some msgNoNewActions)
               | None => ret tt
               end
             else setError (Some msgNoActions)) ;;;
            setLoading false
          else
            formatted <- formatActions env selected ;;
            setLocals (statsOf formatted) ;;;
            generateRemote env (statsOf formatted))
         (fallbackLocal env))
      (setLoading false).

(** ** 10. Notions used to state the properties *)

(** [Selects P l r]: [r] is [l] with exactly the elements satisfying [P]
    kept, in the order of [l]. *)
Inductive Selects {A : Type} (P : A -> Prop) : list A -> list A -> Prop :=
| Selects_nil : Selects P [] []
| Selects_keep a l r : P a -> Selects P l r -> Selects P (a :: l) (a :: r)
| Selects_drop a l r : ~ P a -> Selects P l r -> Selects P (a :: l) r.

(** The action carries a time: its [timestamp], or its [date] when it has
    no [timestamp], is a non-empty string that parses to [t]. *)
Definition hasTime (a : Action) (t : Z) : Prop :=
  exists ts : jsstring,
    ts <> []
    /\ (ua_timestamp a = Some ts
        \/ (truthy (ua_timestamp a) = false /\ ua_date a = Some ts))
    /\ Date_parse ts = Some t.

(** The action's time is strictly after the checkpoint [T]. *)
Definition newerThan (T : jsstring) (a : Action) : Prop :=
  exists t t0 : Z, hasTime a t /\ Date_parse T = Some t0 /\ (t0 < t)%Z.

(** Two formatted actions that differ at most in their timestamp. *)
Definition sameButTimestamp (a b : FAction) : Prop :=
  fa_action a = fa_action b
  /\ fa_sustainabilityScore a = fa_sustainabilityScore b
  /\ fa_category a = fa_category b.

(** The score lies in the closed interval from 25 to 50. *)
Definition isMidImpact (a : FAction) : bool :=
  (25 <=? fa_sustainabilityScore a)%float && (fa_sustainabilityScore a <=? 50)%float.

(** A formatted action with its timestamp blanked. *)
Definition untimed (a : FAction) : FAction :=
  {| fa_action := fa_action a;
     fa_sustainabilityScore := fa_sustainabilityScore a;
     fa_timestamp := [];
     fa_category := fa_category a |}.

(** [f] is what the [map] callback builds from [a], for some reading of the
    clock. *)
Definition formats (a : Action) (f : FAction) : Prop :=
  exists timestamp : jsstring, f = formatAction timestamp a.

(** The checkpoint the handler works with: the stored one when a user is
    signed in, the read succeeds, the document exists and the value is a
    non-empty string; [null] otherwise. *)
Definition checkpointSeen (env : Env) (st : State) : option jsstring :=
  if user env then
    if rejects env (calls st) then None
    else match doc st with
         | Some d => or_str (mostRecentInsightsTimestamp d) None
         | None => None
         end
  else None.

(** The state after the checkpoint read. *)
Definition afterFetch (env : Env) (st : State) : State :=
  if user env then called st (doc st) else st.

(** Between [st] and [st'] one write happened: it put [blob] under the key
    [ts] of the advice mapping, set the pointer to [ts], and left every other
    key and field alone. *)
Definition persisted (st st' : State) (ts blob : jsstring) : Prop :=
  exists d d' : UserDoc,
    doc st = Some d /\ doc st' = Some d'
    /\ mostRecentInsightsTimestamp d' = Some ts
    /\ adviceMap d' !! ts = Some blob
    /\ (forall k, k <> ts -> adviceMap d' !! k = adviceMap d !! k)
    /\ actions d' = actions d
    /\ actionTimestamps d' = actionTimestamps d.

(** [k] is the greatest key of the mapping in code-unit order. *)
Definition greatestKey (m : gmap jsstring jsstring) (k : jsstring) : Prop :=
  is_Some (m !! k)
  /\ forall k', is_Some (m !! k') -> str_leb k' k = true.

(** Between [st] and [st'] the document is untouched, or one write stored
    the advice that [st'] shows and pointed the checkpoint at its key. *)
Definition storedWhatIsShown (st st' : State) : Prop :=
  doc st' = doc st
  \/ exists ts : jsstring, persisted st st' ts (JSON_stringify (advice st')).

(** The state once the handler has reset the component
    ([setLoading(true); setAdvice(null); setError(null)]) and its locals. *)
Definition started (st : State) : State :=
  with_locals (with_error (with_advice (with_loading st true) JNull) None) noLocals.

(** The stored text the "nothing new" branch shows: the one under the
    checkpoint when it is a non-empty string, otherwise the one under the
    head of the sorted, reversed key list. *)
Definition storedTextFor (m : gmap jsstring jsstring) (T : jsstring)
  : option jsstring :=
  if truthy (m !! T) then m !! T
  else match adviceTimestamps m with
       | latest :: _ => m !! latest
       | [] => None
       end.

(** ** 11. Sample inputs *)

(** An element of [userActions] as [Dashboard] builds it from the stored
    mappings: name, score (twice), timestamp (twice) and inferred category. *)
Definition dashboardAction (name : string) (score : float) (time category : string)
  : Action :=
  {| ua_action := Some (js name);
     ua_description := None;
     ua_name := None;
     ua_sustainabilityScore := Some score;
     ua_score := None;
     ua_carbonImpact := Some score;
     ua_timestamp := Some (js time);
     ua_date := Some (js time);
     ua_category := Some (js category);
     ua_type := None |}.

Definition droveToWork : Action :=
  dashboardAction "Drove to work" 62 "2025-01-02T08:00:00.000Z" "Transportation".

Definition recycledBottles : Action :=
  dashboardAction "Recycled bottles" 10 "2025-01-03T09:30:00.000Z" "Waste".

Definition plantedTree : Action :=
  dashboardAction "Planted a tree" (-5) "2025-01-04T17:45:00.000Z" "Environment".

Definition oldAction : Action :=
  dashboardAction "Left the lights on" 30 "2024-12-24T20:00:00.000Z" "Energy".

(** An action without [timestamp] and [date]. *)
Definition untimedAction : Action :=
  {| ua_action := Some (js "Flew to a conference");
     ua_description := None;
     ua_name := None;
     ua_sustainabilityScore := Some 400%float;
     ua_score := None;
     ua_carbonImpact := None;
     ua_timestamp := None;
     ua_date := None;
     ua_category := None;
     ua_type := None |}.

(** The checkpoint [2025-01-01T00:00:00.000Z] as its first code unit and the
    rest. *)
Definition checkpointHead : N := 50.
Definition checkpointTail : jsstring := js "025-01-01T00:00:00.000Z".
Definition checkpoint0 : jsstring := checkpointHead :: checkpointTail.

Definition formatted (name : string) (score : float) (time category : string)
  : FAction :=
  {| fa_action := js name; fa_sustainabilityScore := score;
     fa_timestamp := js time; fa_category := js category |}.

(** A stored record, written out as the text [JSON.stringify] gives it. *)
Definition storedRecord : AdviceRecord :=
  {| insights := [js "Your average carbon impact per action is 30.0 kg."];
     recommendations := [js "Keep going."];
     summary := js "One action so far." |}.

Definition storedBlob : jsstring :=
  [123] ++ dquote ++ js "insights" ++ dquote ++ js ":["
  ++ dquote ++ js "Your average carbon impact per action is 30.0 kg." ++ dquote
  ++ js "]," ++ dquote ++ js "recommendations" ++ dquote ++ js ":["
  ++ dquote ++ js "Keep going." ++ dquote ++ js "],"
  ++ dquote ++ js "summary" ++ dquote ++ js ":"
  ++ dquote ++ js "One action so far." ++ dquote ++ [125].

(** A user document holding the checkpoint and the record stored under it. *)
Definition checkpointedDoc : UserDoc :=
  {| actions := ∅;
     actionTimestamps := ∅;
     previousAdvice := Some {[ checkpoint0 := storedBlob ]};
     mostRecentInsightsTimestamp := Some checkpoint0 |}.

(** A user document of a user who never asked for advice. *)
Definition freshDoc : UserDoc :=
  {| actions := ∅; actionTimestamps := ∅; previousAdvice := None;
     mostRecentInsightsTimestamp := None |}.

(** The component at rest over a stored document. *)
Definition idle (d : option UserDoc) : State :=
  {| doc := d; ticks := 0; calls := 0; advice := JNull; error := None;
     loading := false; locals := noLocals |}.

Definition sampleClock (n : nat) : jsstring :=
  js "2025-02-01T12:00:0" ++ nat_toString n ++ js ".000Z".

(** The body [{"candidates":[{"content":{"parts":[{"text":"hello"}]}}]}]. *)
Definition helloBody : jsstring :=
  [123] ++ dquote ++ js "candidates" ++ dquote ++ js ":[{"
  ++ dquote ++ js "content" ++ dquote ++ js ":{"
  ++ dquote ++ js "parts" ++ dquote ++ js ":[{"
  ++ dquote ++ js "text" ++ dquote ++ js ":"
  ++ dquote ++ js "hello" ++ dquote ++ js "}]}}]}".

(** A signed-in user, credentials present, a store that answers, and a
    service answering 200 with [helloBody]. *)
Definition helloEnv : Env :=
  {| user := true;
     apiKey := Some (js "key");
     clock := sampleClock;
     rejects := fun _ => false;
     fetch := FetchResponse {| ok := true; statusText := js "OK"; body := helloBody |} |}.

(** The same, with the service answering 500. *)
Definition failingEnv : Env :=
  {| user := true;
     apiKey := Some (js "key");
     clock := sampleClock;
     rejects := fun _ => false;
     fetch := FetchResponse {| ok := false; statusText := js "Internal Server Error";
                               body := js "oops" |} |}.

(** A signed-in user without credentials, over a store that answers. *)
Definition keylessEnv : Env :=
  {| user := true;
     apiKey := None;
     clock := sampleClock;
     rejects := fun _ => false;
     fetch := FetchRejected (js "Failed to fetch") |}.

(** A signed-in user whose store rejects every call. *)
Definition offlineEnv : Env :=
  {| user := true;
     apiKey := None;
     clock := sampleClock;
     rejects := fun _ => true;
     fetch := FetchRejected (js "Failed to fetch") |}.

(** The body [{"error":{"code":429}}]: a 2xx answer without candidates. *)
Definition noCandidatesBody : jsstring :=
  [123] ++ dquote ++ js "error" ++ dquote ++ js ":{"
  ++ dquote ++ js "code" ++ dquote ++ js ":429}}".

Definition noCandidatesEnv : Env :=
  {| user := true;
     apiKey := Some (js "key");
     clock := sampleClock;
     rejects := fun _ => false;
     fetch := FetchResponse {| ok := true; statusText := js "OK";
                               body := noCandidatesBody |} |}.

(** ** 12. Notions used by the further properties *)

(** Whether formatting the action reads the clock: it has neither a
    [timestamp] nor a [date]. *)
Definition readsClock (action : Action) : bool :=
  negb (truthy (or_str (ua_timestamp action) (ua_date action))).

(** The sentence every list of insights ends with. *)
Definition averageInsight (avg : float) : jsstring :=
  js "Your average carbon impact per action is " ++ toFixed1 avg ++ kgCO2 ++ js ".".

(** The sentence every list of recommendations ends with. *)
Definition goalRecommendation (avg : float) : jsstring :=
  js "Set a goal to reduce your average carbon impact per action from "
  ++ toFixed1 avg ++ kgCO2 ++ js " to below "
  ++ toFixed1 (avg * 0x1.6666666666666p-1)%float ++ kgCO2
  ++ js " over the next month.".

(** The recommendation pushed just before the goal. *)
Definition keepGoingRecommendation : jsstring :=
  js "Continue your positive actions like composting, using reusable items, and choosing sustainable transportation options.".

(** Whether a closing or opening fence occurs anywhere in the text. *)
Fixpoint hasFence (s : jsstring) : bool :=
  match s with
  | [] => false
  | _ :: r => startsWith fence s || hasFence r
  end.

(** Whether every code unit is white space. *)
Definition allSpace (s : jsstring) : bool := forallb is_ws s.

(** Whether the text is non-empty and begins and ends with a code unit that
    is not white space. *)
Definition tight (s : jsstring) : bool :=
  match s with
  | c :: _ => negb (is_ws c) && negb (is_ws (List.last s c))
  | [] => false
  end.

(** Whether the text holds no backtick. *)
Definition noBacktick (s : jsstring) : bool := forallb (fun c => negb (c =? 96)) s.

(** One for [true], zero for [false]. *)
Definition count_true (b : bool) : nat := if b then 1 else 0.

(** The lines of the text that [rawAdvice] keeps as insights. *)
Definition rawInsights (responseText : jsstring) : list jsstring :=
  firstn 5
    (List.filter (fun line => (0 <? length (trim line))%nat)
                 (split_lines responseText)).

(** The object shown for an empty candidate text. *)
Definition emptyAdvice : json :=
  JObj [ (js "message", JStr []); (js "insights", JArr []) ].

(** ** 13. The Dashboard component *)

(** The built-ins the Dashboard adds to those of the pipeline. *)
Record Host := {
  toLowerCase : jsstring -> jsstring;       (* [String.prototype.toLowerCase] *)
  parseFloat : jsstring -> float;
  (* [Object.keys] and [Object.values] of the [actions] map, in the
     enumeration order of the object Firestore hands out *)
  Object_keys : gmap jsstring float -> list jsstring;
  Object_values : gmap jsstring float -> list float;
  (* [Array.prototype.sort] with a comparator, of which it inspects the
     sign only: the comparator gives the exact difference, [None] for NaN *)
  Array_sort : (Action -> Action -> option Z) -> list Action -> list Action
}.

(** [s.includes(search)] *)
Fixpoint includes (s search : jsstring) : bool :=
  startsWith search s
  || match s with
     | _ :: r => includes r search
     | [] => false
     end.

Definition inferCategory (h : Host) (actionName : jsstring) : jsstring :=
  let name := toLowerCase h actionName in
  if includes name (js "car") || includes name (js "drive")
     || includes name (js "transport") || includes name (js "flight")
     || includes name (js "bike") || includes name (js "cycle")
  then js "Transportation"
  else if includes name (js "light") || includes name (js "energy")
          || includes name (js "electric") || includes name (js "ac")
          || includes name (js "heating")
  then js "Energy"
  else if includes name (js "food") || includes name (js "meal")
          || includes name (js "eat") || includes name (js "produce")
  then js "Food"
  else if includes name (js "waste") || includes name (js "compost")
          || includes name (js "recycle") || includes name (js "reusable")
  then js "Waste"
  else if includes name (js "tree") || includes name (js "plant")
          || includes name (js "environment")
  then js "Environment"
  else js "General".

(** *** [calculateCarbonFootprint] *)

(** A match of [\.?\d*] at the start of [s]. *)
Definition match_fraction (s : jsstring) : jsstring :=
  match s with
  | 46 :: rest => 46 :: fst (take_digits rest)
  | _ => []
  end.

(** A match of [\d+\.?\d*] at the start of [s]. *)
Definition match_digits (s : jsstring) : option jsstring :=
  let (whole, rest) := take_digits s in
  match whole with
  | [] => None
  | _ :: _ => Some (whole ++ match_fraction rest)
  end.

(** A match of [-?\d+\.?\d*] at the start of [s]: with the minus sign when
    digits follow it, and after backtracking without it. *)
Definition match_number (s : jsstring) : option jsstring :=
  match s with
  | 45 :: s' =>
      match match_digits s' with
      | Some m => Some (45 :: m)
      | None => match_digits s
      end
  | _ => match_digits s
  end.

(** [responseText.match(/-?\d+\.?\d*/)]: element [0] of the leftmost match,
    [None] for [null]. *)
Fixpoint numericMatch (s : jsstring) : option jsstring :=
  match match_number s with
  | Some m => Some m
  | None =>
      match s with
      | _ :: r => numericMatch r
      | [] => None
      end
  end.

Definition msgNoKey : jsstring :=
  js "Gemini API key is not configured. Please set REACT_APP_GEMINI_API_KEY in your .env file.".

Definition msgNoNumber : jsstring :=
  js "Could not extract carbon footprint value from Gemini response".

(** [name] and [description] only shape the request, whose outcome is
    [fetch env]; the [catch] logs and throws the error again. *)
Definition calculateCarbonFootprint (h : Host) (env : Env)
    (name description : jsstring) : Completion float :=
  if negb (truthy (apiKey env)) then Throw msgNoKey
  else
    match fetch env with
    | FetchRejected message => Throw message
    | FetchResponse geminiResponse =>
        if negb (ok geminiResponse) then
          Throw (js "Gemini API error: " ++ statusText geminiResponse)
        else
          match JSON_parse (body geminiResponse) with
          | None => Throw (js "Unexpected token in JSON")
          | Some geminiData =>
              bindC (responseTextOf geminiData) (fun responseText =>
                match responseText with
                | JStr text =>
                    match numericMatch text with
                    | Some numericMatch0 => Normal (parseFloat h numericMatch0)
                    | None => Throw msgNoNumber
                    end
                | _ => Throw (js "responseText.match is not a function")
                end)
          end
    end.

(** *** The component and its document *)

Record Board := {
  store : option UserDoc;                (* [users/{uid}], if it exists *)
  friends : option (list jsstring);      (* its [friends] field, if it has one *)
  boardTicks : nat;                      (* clock readings so far *)
  boardCalls : nat;                      (* Firestore calls so far *)
  userActions : list Action;
  carbonScore : float;
  dashLoading : bool;                    (* the component's [loading] *)
  actionName : jsstring;
  actionDescription : jsstring;
  submitting : bool;
  submitError : option jsstring;
  showAddActionModal : bool;
  showAddFriendModal : bool;
  friendEmail : jsstring;
  addFriendError : option jsstring;
  addingFriend : bool
}.

Definition with_boardTicks (b : Board) (n : nat) : Board :=
  {| store := store b; friends := friends b; boardTicks := n;
     boardCalls := boardCalls b; userActions := userActions b;
     carbonScore := carbonScore b; dashLoading := dashLoading b;
     actionName := actionName b; actionDescription := actionDescription b;
     submitting := submitting b; submitError := submitError b;
     showAddActionModal := showAddActionModal b;
     showAddFriendModal := showAddFriendModal b;
     friendEmail := friendEmail b; addFriendError := addFriendError b;
     addingFriend := addingFriend b |}.

Definition boardTicked (b : Board) : Board :=
  with_boardTicks b (S (boardTicks b)).

(** The state after one more Firestore call that changed nothing. *)
Definition boardCalled (b : Board) : Board :=
  {| store := store b; friends := friends b; boardTicks := boardTicks b;
     boardCalls := S (boardCalls b); userActions := userActions b;
     carbonScore := carbonScore b; dashLoading := dashLoading b;
     actionName := actionName b; actionDescription := actionDescription b;
     submitting := submitting b; submitError := submitError b;
     showAddActionModal := showAddActionModal b;
     showAddFriendModal := showAddFriendModal b;
     friendEmail := friendEmail b; addFriendError := addFriendError b;
     addingFriend := addingFriend b |}.

(** The state after a call that replaced the fields [actions] and
    [actionTimestamps] of the stored document. *)
Definition withActions (b : Board) (acts : gmap jsstring float)
    (stamps : gmap jsstring jsstring) : Board :=
  {| store := match store b with
              | Some d => Some {| actions := acts; actionTimestamps := stamps;
                                  previousAdvice := previousAdvice d;
                                  mostRecentInsightsTimestamp :=
                                    mostRecentInsightsTimestamp d |}
              | None => None
              end;
     friends := friends b; boardTicks := boardTicks b;
     boardCalls := S (boardCalls b); userActions := userActions b;
     carbonScore := carbonScore b; dashLoading := dashLoading b;
     actionName := actionName b; actionDescription := actionDescription b;
     submitting := submitting b; submitError := submitError b;
     showAddActionModal := showAddActionModal b;
     showAddFriendModal := showAddFriendModal b;
     friendEmail := friendEmail b; addFriendError := addFriendError b;
     addingFriend := addingFriend b |}.

(** The state after a call that replaced the field [friends]. *)
Definition withFriends (b : Board) (l : list jsstring) : Board :=
  {| store := store b; friends := Some l; boardTicks := boardTicks b;
     boardCalls := S (boardCalls b); userActions := userActions b;
     carbonScore := carbonScore b; dashLoading := dashLoading b;
     actionName := actionName b; actionDescription := actionDescription b;
     submitting := submitting b; submitError := submitError b;
     showAddActionModal := showAddActionModal b;
     showAddFriendModal := showAddFriendModal b;
     friendEmail := friendEmail b; addFriendError := addFriendError b;
     addingFriend := addingFriend b |}.

Definition with_userActions (b : Board) (v : list Action) : Board :=
  {| store := store b; friends := friends b; boardTicks := boardTicks b;
     boardCalls := boardCalls b; userActions := v;
     carbonScore := carbonScore b; dashLoading := dashLoading b;
     actionName := actionName b; actionDescription := actionDescription b;
     submitting := submitting b; submitError := submitError b;
     showAddActionModal := showAddActionModal b;
     showAddFriendModal := showAddFriendModal b;
     friendEmail := friendEmail b; addFriendError := addFriendError b;
     addingFriend := addingFriend b |}.

Definition with_carbonScore (b : Board) (v : float) : Board :=
  {| store := store b; friends := friends b; boardTicks := boardTicks b;
     boardCalls := boardCalls b; userActions := userActions b;
     carbonScore := v; dashLoading := dashLoading b;
     actionName := actionName b; actionDescription := actionDescription b;
     submitting := submitting b; submitError := submitError b;
     showAddActionModal := showAddActionModal b;
     showAddFriendModal := showAddFriendModal b;
     friendEmail := friendEmail b; addFriendError := addFriendError b;
     addingFriend := addingFriend b |}.

Definition with_dashLoading (b : Board) (v : bool) : Board :=
  {| store := store b; friends := friends b; boardTicks := boardTicks b;
     boardCalls := boardCalls b; userActions := userActions b;
     carbonScore := carbonScore b; dashLoading := v;
     actionName := actionName b; actionDescription := actionDescription b;
     submitting := submitting b; submitError := submitError b;
     showAddActionModal := showAddActionModal b;
     showAddFriendModal := showAddFriendModal b;
     friendEmail := friendEmail b; addFriendError := addFriendError b;
     addingFriend := addingFriend b |}.

Definition with_actionName (b : Board) (v : jsstring) : Board :=
  {| store := store b; friends := friends b; boardTicks := boardTicks b;
     boardCalls := boardCalls b; userActions := userActions b;
     carbonScore := carbonScore b; dashLoading := dashLoading b;
     actionName := v; actionDescription := actionDescription b;
     submitting := submitting b; submitError := submitError b;
     showAddActionModal := showAddActionModal b;
     showAddFriendModal := showAddFriendModal b;
     friendEmail := friendEmail b; addFriendError := addFriendError b;
     addingFriend := addingFriend b |}.

Definition with_actionDescription (b : Board) (v : jsstring) : Board :=
  {| store := store b; friends := friends b; boardTicks := boardTicks b;
     boardCalls := boardCalls b; userActions := userActions b;
     carbonScore := carbonScore b; dashLoading := dashLoading b;
     actionName := actionName b; actionDescription := v;
     submitting := submitting b; submitError := submitError b;
     showAddActionModal := showAddActionModal b;
     showAddFriendModal := showAddFriendModal b;
     friendEmail := friendEmail b; addFriendError := addFriendError b;
     addingFriend := addingFriend b |}.

Definition with_submitting (b : Board) (v : bool) : Board :=
  {| store := store b; friends := friends b; boardTicks := boardTicks b;
     boardCalls := boardCalls b; userActions := userActions b;
     carbonScore := carbonScore b; dashLoading := dashLoading b;
     actionName := actionName b; actionDescription := actionDescription b;
     submitting := v; submitError := submitError b;
     showAddActionModal := showAddActionModal b;
     showAddFriendModal := showAddFriendModal b;
     friendEmail := friendEmail b; addFriendError := addFriendError b;
     addingFriend := addingFriend b |}.

Definition with_submitError (b : Board) (v : option jsstring) : Board :=
  {| store := store b; friends := friends b; boardTicks := boardTicks b;
     boardCalls := boardCalls b; userActions := userActions b;
     carbonScore := carbonScore b; dashLoading := dashLoading b;
     actionName := actionName b; actionDescription := actionDescription b;
     submitting := submitting b; submitError := v;
     showAddActionModal := showAddActionModal b;
     showAddFriendModal := showAddFriendModal b;
     friendEmail := friendEmail b; addFriendError := addFriendError b;
     addingFriend := addingFriend b |}.

Definition with_showAddActionModal (b : Board) (v : bool) : Board :=
  {| store := store b; friends := friends b; boardTicks := boardTicks b;
     boardCalls := boardCalls b; userActions := userActions b;
     carbonScore := carbonScore b; dashLoading := dashLoading b;
     actionName := actionName b; actionDescription := actionDescription b;
     submitting := submitting b; submitError := submitError b;
     showAddActionModal := v; showAddFriendModal := showAddFriendModal b;
     friendEmail := friendEmail b; addFriendError := addFriendError b;
     addingFriend := addingFriend b |}.

Definition with_showAddFriendModal (b : Board) (v : bool) : Board :=
  {| store := store b; friends := friends b; boardTicks := boardTicks b;
     boardCalls := boardCalls b; userActions := userActions b;
     carbonScore := carbonScore b; dashLoading := dashLoading b;
     actionName := actionName b; actionDescription := actionDescription b;
     submitting := submitting b; submitError := submitError b;
     showAddActionModal := showAddActionModal b; showAddFriendModal := v;
     friendEmail := friendEmail b; addFriendError := addFriendError b;
     addingFriend := addingFriend b |}.

Definition with_friendEmail (b : Board) (v : jsstring) : Board :=
  {| store := store b; friends := friends b; boardTicks := boardTicks b;
     boardCalls := boardCalls b; userActions := userActions b;
     carbonScore := carbonScore b; dashLoading := dashLoading b;
     actionName := actionName b; actionDescription := actionDescription b;
     submitting := submitting b; submitError := submitError b;
     showAddActionModal := showAddActionModal b;
     showAddFriendModal := showAddFriendModal b; friendEmail := v;
     addFriendError := addFriendError b; addingFriend := addingFriend b |}.

Definition with_addFriendError (b : Board) (v : option jsstring) : Board :=
  {| store := store b; friends := friends b; boardTicks := boardTicks b;
     boardCalls := boardCalls b; userActions := userActions b;
     carbonScore := carbonScore b; dashLoading := dashLoading b;
     actionName := actionName b; actionDescription := actionDescription b;
     submitting := submitting b; submitError := submitError b;
     showAddActionModal := showAddActionModal b;
     showAddFriendModal := showAddFriendModal b;
     friendEmail := friendEmail b; addFriendError := v;
     addingFriend := addingFriend b |}.

Definition with_addingFriend (b : Board) (v : bool) : Board :=
  {| store := store b; friends := friends b; boardTicks := boardTicks b;
     boardCalls := boardCalls b; userActions := userActions b;
     carbonScore := carbonScore b; dashLoading := dashLoading b;
     actionName := actionName b; actionDescription := actionDescription b;
     submitting := submitting b; submitError := submitError b;
     showAddActionModal := showAddActionModal b;
     showAddFriendModal := showAddFriendModal b;
     friendEmail := friendEmail b; addFriendError := addFriendError b;
     addingFriend := v |}.


(** A computation of the Dashboard. *)
Definition B (A : Type) : Type := Board -> Completion A * Board.

Definition retB {A} (a : A) : B A := fun b => (Normal a, b).

Definition throwB {A} (message : jsstring) : B A := fun b => (Throw message, b).

Definition bindB {A A'} (m : B A) (k : A -> B A') : B A' :=
  fun b =>
    match m b with
    | (Normal a, b') => k a b'
    | (Throw e, b') => (Throw e, b')
    end.

Declare Scope board_scope.
Notation "x <- m ;; k" := (bindB m (fun x => k))
  (at level 100, m at next level, right associativity) : board_scope.
Notation "m ;;; k" := (bindB m (fun _ => k))
  (at level 100, right associativity) : board_scope.
Local Open Scope board_scope.

(** [try { m } catch (e) { h e }] *)
Definition try_catchB {A} (m : B A) (h : jsstring -> B A) : B A :=
  fun b =>
    match m b with
    | (Normal a, b') => (Normal a, b')
    | (Throw e, b') => h e b'
    end.

(** [try { m } finally { f }] *)
Definition try_finallyB {A} (m : B A) (f : B unit) : B A :=
  fun b =>
    match m b with
    | (c, b') =>
        match f b' with
        | (Normal _, b'') => (c, b'')
        | (Throw e, b'') => (Throw e, b'')
        end
    end.

Definition liftB {A} (c : Completion A) : B A := fun b => (c, b).

Definition setUserActions (v : list Action) : B unit :=
  fun b => (Normal tt, with_userActions b v).
Definition setCarbonScore (v : float) : B unit :=
  fun b => (Normal tt, with_carbonScore b v).
Definition setLoadingB (v : bool) : B unit :=
  fun b => (Normal tt, with_dashLoading b v).
Definition setActionName (v : jsstring) : B unit :=
  fun b => (Normal tt, with_actionName b v).
Definition setActionDescription (v : jsstring) : B unit :=
  fun b => (Normal tt, with_actionDescription b v).
Definition setSubmitting (v : bool) : B unit :=
  fun b => (Normal tt, with_submitting b v).
Definition setSubmitError (v : option jsstring) : B unit :=
  fun b => (Normal tt, with_submitError b v).
Definition setShowAddActionModal (v : bool) : B unit :=
  fun b => (Normal tt, with_showAddActionModal b v).
Definition setShowAddFriendModal (v : bool) : B unit :=
  fun b => (Normal tt, with_showAddFriendModal b v).
Definition setFriendEmail (v : jsstring) : B unit :=
  fun b => (Normal tt, with_friendEmail b v).
Definition setAddFriendError (v : option jsstring) : B unit :=
  fun b => (Normal tt, with_addFriendError b v).
Definition setAddingFriend (v : bool) : B unit :=
  fun b => (Normal tt, with_addingFriend b v).

(** [new Date().toISOString()] *)
Definition nowB (env : Env) : B jsstring :=
  fun b => (Normal (clock env (boardTicks b)), boardTicked b).

(** [await getDoc(userDocRef)]: the data when the document exists, with its
    [friends] field. *)
Definition getDocB (env : Env) : B (option (UserDoc * option (list jsstring))) :=
  fun b =>
    if rejects env (boardCalls b) then (Throw (js "unavailable"), boardCalled b)
    else (Normal (match store b with
                  | Some d => Some (d, friends b)
                  | None => None
                  end), boardCalled b).

(** [await updateDoc(userDocRef, { actions, actionTimestamps })] *)
Definition updateActions (env : Env) (acts : gmap jsstring float)
    (stamps : gmap jsstring jsstring) : B unit :=
  fun b =>
    if rejects env (boardCalls b) then (Throw (js "unavailable"), boardCalled b)
    else match store b with
         | Some _ => (Normal tt, withActions b acts stamps)
         | None => (Throw (js "not-found"), boardCalled b)
         end.

(** [await updateDoc(userDocRef, { friends })] *)
Definition updateFriends (env : Env) (l : list jsstring) : B unit :=
  fun b =>
    if rejects env (boardCalls b) then (Throw (js "unavailable"), boardCalled b)
    else match store b with
         | Some _ => (Normal tt, withFriends b l)
         | None => (Throw (js "not-found"), boardCalled b)
         end.

(** The signed-in user's id and the ids of the documents whose [email]
    equals the one searched for, in the order of the query snapshot. *)
Record Directory := {
  uid : jsstring;
  usersByEmail : jsstring -> list jsstring
}.

(** [await getDocs(query(usersRef, where('email', '==', searchEmail)))] *)
Definition getDocs (env : Env) (dir : Directory) (searchEmail : jsstring)
    : B (list jsstring) :=
  fun b =>
    if rejects env (boardCalls b) then (Throw (js "unavailable"), boardCalled b)
    else (Normal (usersByEmail dir searchEmail), boardCalled b).

(** *** The list on display *)

(** [actionTimestamps[name] || new Date().toISOString()] *)
Definition stampOrNow (env : Env) (stamps : gmap jsstring jsstring)
    (name : jsstring) : B jsstring :=
  match stamps !! name with
  | Some (c :: s) => retB (c :: s)
  | _ => nowB env
  end.

(** The callback of [Object.keys(actions).map]: [timestamp] and [date] are
    computed one after the other, each with its own reading of the clock
    when the action has no stored timestamp. *)
Definition rowOf (h : Host) (env : Env) (acts : gmap jsstring float)
    (stamps : gmap jsstring jsstring) (name : jsstring) : B Action :=
  timestamp <- stampOrNow env stamps name ;;
  date <- stampOrNow env stamps name ;;
  retB {| ua_action := Some name;
          ua_description := None;
          ua_name := None;
          ua_sustainabilityScore := acts !! name;
          ua_score := None;
          ua_carbonImpact := acts !! name;
          ua_timestamp := Some timestamp;
          ua_date := Some date;
          ua_category := Some (inferCategory h name);
          ua_type := None |}.

Fixpoint rowsOf (h : Host) (env : Env) (acts : gmap jsstring float)
    (stamps : gmap jsstring jsstring) (names : list jsstring) : B (list Action) :=
  match names with
  | [] => retB []
  | name :: rest =>
      row <- rowOf h env acts stamps name ;;
      rows <- rowsOf h env acts stamps rest ;;
      retB (row :: rows)
  end.

(** [new Date(v)] for an optional string: its time value, [None] for NaN. *)
Definition timeOf (v : option jsstring) : option Z :=
  match v with
  | Some s => Date_parse s
  | None => None
  end.

(** [(a, b) => new Date(b.timestamp) - new Date(a.timestamp)] *)
Definition byTimestampDesc (a b : Action) : option Z :=
  match timeOf (ua_timestamp b), timeOf (ua_timestamp a) with
  | Some tb, Some ta => Some (tb - ta)%Z
  | _, _ => None
  end.

(** [Object.values(actions).reduce((sum, score) => sum + (score || 0), 0)] *)
Definition totalOf (h : Host) (acts : gmap jsstring float) : float :=
  fold_left (fun sum score => (sum + num_or_zero (Some score))%float)
            (Object_values h acts) 0%float.

(** The conversion of the document to the list and the total on display,
    as [fetchUserData] and [addAction] both spell it out. *)
Definition display (h : Host) (env : Env) (userData : UserDoc) : B unit :=
  let actions := actions userData in
  let actionTimestamps := actionTimestamps userData in
  actionsArray <- rowsOf h env actions actionTimestamps (Object_keys h actions) ;;
  setUserActions (Array_sort h byTimestampDesc actionsArray) ;;;
  setCarbonScore (totalOf h actions).

Definition fetchUserData (h : Host) (env : Env) : B unit :=
  if negb (user env) then setLoadingB false
  else
    try_finallyB
      (try_catchB
         (setLoadingB true ;;;
          userDoc <- getDocB env ;;
          match userDoc with
          | Some (userData, _) => display h env userData
          | None => setUserActions [] ;;; setCarbonScore 0%float
          end)
         (fun _ => setUserActions [] ;;; setCarbonScore 0%float))
      (setLoadingB false).

Definition addAction (h : Host) (env : Env) (actionName : jsstring)
    (score : float) : B unit :=
  if negb (user env) then retB tt
  else
    try_catchB
      (userDoc <- getDocB env ;;
       match userDoc with
       | Some (userData, _) =>
           let currentActions := actions userData in
           let currentActionTimestamps := actionTimestamps userData in
           timestamp <- nowB env ;;
           updateActions env (<[actionName := score]> currentActions)
                         (<[actionName := timestamp]> currentActionTimestamps) ;;;
           updatedDoc <- getDocB env ;;
           match updatedDoc with
           | Some (updatedData, _) => display h env updatedData
           | None => retB tt
           end
       | None => retB tt
       end)
      (fun message => throwB message).

(** [error.message || lit] for a non-empty literal *)
Definition message_or (message lit : jsstring) : jsstring :=
  match message with
  | [] => lit
  | _ :: _ => message
  end.

Definition handleSubmitAction (h : Host) (env : Env) : B unit :=
  fun b =>
    let actionName := actionName b in
    let actionDescription := actionDescription b in
    (if (length (trim actionName) =? 0)%nat then
       setSubmitError (Some (js "Please enter an action name"))
     else
       setSubmitting true ;;;
       setSubmitError None ;;;
       try_finallyB
         (try_catchB
            (carbonFootprint <-
               liftB (calculateCarbonFootprint h env (trim actionName)
                                               (trim actionDescription)) ;;
             addAction h env (trim actionName) carbonFootprint ;;;
             setActionName [] ;;;
             setActionDescription [] ;;;
             setSubmitError None ;;;
             setShowAddActionModal false)
            (fun message =>
               setSubmitError
                 (Some (message_or message
                          (js "Failed to add action. Please try again.")))))
         (setSubmitting false)) b.

Definition handleCloseModal : B unit :=
  setShowAddActionModal false ;;;
  setActionName [] ;;;
  setActionDescription [] ;;;
  setSubmitError None.

Definition handleAddFriend (h : Host) (env : Env) (dir : Directory) : B unit :=
  fun b =>
    let friendEmail := friendEmail b in
    (if (length (trim friendEmail) =? 0)%nat then
       setAddFriendError (Some (js "Please enter an email address"))
     else if negb (user env) then
       setAddFriendError (Some (js "You must be logged in to add friends"))
     else
       setAddingFriend true ;;;
       setAddFriendError None ;;;
       try_finallyB
         (try_catchB
            (let searchEmail := toLowerCase h (trim friendEmail) in
             docs <- getDocs env dir searchEmail ;;
             match docs with
             | [] =>
                 setAddFriendError
                   (Some (js "User with this email does not exist on the platform")) ;;;
                 setAddingFriend false
             | friendId :: _ =>
                 if decide (friendId = uid dir) then
                   setAddFriendError
                     (Some (js "You cannot add yourself as a friend")) ;;;
                   setAddingFriend false
                 else
                   userDoc <- getDocB env ;;
                   match userDoc with
                   | Some (_, friendsField) =>
                       let currentFriends :=
                         match friendsField with
                         | Some l => l
                         | None => []
                         end in
                       if bool_decide (friendId ∈ currentFriends) then
                         setAddFriendError
                           (Some (js "This user is already in your friends list")) ;;;
                         setAddingFriend false
                       else
                         updateFriends env (currentFriends ++ [friendId]) ;;;
                         setShowAddFriendModal false ;;;
                         setFriendEmail [] ;;;
                         setAddFriendError None
                   | None => retB tt
                   end
             end)
            (fun _ =>
               setAddFriendError
                 (Some (js "Failed to add friend. Please try again."))))
         (setAddingFriend false)) b.

Definition handleCloseFriendModal : B unit :=
  setShowAddFriendModal false ;;;
  setFriendEmail [] ;;;
  setAddFriendError None.

Local Close Scope board_scope.

(** *** Notions used to state the properties of the Dashboard *)

(** [userData.friends || []] *)
Definition friendsList (b : Board) : list jsstring :=
  match friends b with
  | Some l => l
  | None => []
  end.

(** Whether the text holds no ASCII digit. *)
Definition noDigit (s : jsstring) : bool := forallb (fun c => negb (is_digit c)) s.

(** Whether the text ends with a minus sign. *)
Definition endsWithMinus (s : jsstring) : bool :=
  match s with
  | [] => false
  | _ :: _ => List.last s 0 =? 45
  end.

(** Whether the text does not begin with a digit. *)
Definition noLeadingDigit (s : jsstring) : bool :=
  match s with
  | c :: _ => negb (is_digit c)
  | [] => true
  end.

(** The document after [actions[name]] and [actionTimestamps[name]] are
    set. *)
Definition recorded (d : UserDoc) (name : jsstring) (score : float)
    (timestamp : jsstring) : UserDoc :=
  {| actions := <[name := score]> (actions d);
     actionTimestamps := <[name := timestamp]> (actionTimestamps d);
     previousAdvice := previousAdvice d;
     mostRecentInsightsTimestamp := mostRecentInsightsTimestamp d |}.

(** Whether the form of the add-action dialog is as the user left it. *)
Definition formKept (b b' : Board) : Prop :=
  actionName b' = actionName b
  /\ actionDescription b' = actionDescription b
  /\ showAddActionModal b' = showAddActionModal b.

(** Whether the part of the component that belongs to the friends dialog is
    unchanged. *)
Definition friendsDialogKept (b b' : Board) : Prop :=
  showAddFriendModal b' = showAddFriendModal b
  /\ friendEmail b' = friendEmail b
  /\ addFriendError b' = addFriendError b
  /\ addingFriend b' = addingFriend b.

(** What the element of [actionsArray] built for [name] looks like: the
    stored timestamp twice if there is one, otherwise two consecutive
    readings of the clock. *)
Definition rowFor (h : Host) (env : Env) (acts : gmap jsstring float)
    (stamps : gmap jsstring jsstring) (name : jsstring) (row : Action) : Prop :=
  ua_action row = Some name
  /\ ua_sustainabilityScore row = acts !! name
  /\ ua_carbonImpact row = acts !! name
  /\ ua_category row = Some (inferCategory h name)
  /\ match stamps !! name with
     | Some (c :: s) =>
         ua_timestamp row = Some (c :: s) /\ ua_date row = Some (c :: s)
     | _ =>
         exists n : nat,
           ua_timestamp row = Some (clock env n)
           /\ ua_date row = Some (clock env (S n))
     end.

(** Whether everything but the document's [actions], the counters and the
    list and total on display is unchanged. *)
Definition restKept (b b' : Board) : Prop :=
  friends b' = friends b
  /\ dashLoading b' = dashLoading b
  /\ submitting b' = submitting b
  /\ submitError b' = submitError b
  /\ formKept b b'
  /\ friendsDialogKept b b'.

(** Whether nothing of the stored document and of what is on display has
    changed. *)
Definition dataKept (b b' : Board) : Prop :=
  store b' = store b
  /\ friends b' = friends b
  /\ userActions b' = userActions b
  /\ carbonScore b' = carbonScore b.

(** ** 14. Sample inputs for the Dashboard *)

Definition asciiLower (c : N) : N :=
  if (65 <=? c) && (c <=? 90) then c + 32 else c.

(** Insertion before the first element that must not precede [x]. *)
Fixpoint insertBy (cmp : Action -> Action -> option Z) (x : Action)
    (l : list Action) : list Action :=
  match l with
  | [] => [x]
  | y :: r =>
      match cmp x y with
      | Some v => if (0 <? v)%Z then y :: insertBy cmp x r else x :: l
      | None => x :: l
      end
  end.

(** A host for texts in ASCII: lower-casing of the letters A to Z, the
    value of the decimal literal for [parseFloat], the entries of a map in
    the order of its keys' encoding, and a stable insertion sort. *)
Definition refHost : Host :=
  {| toLowerCase := map asciiLower;
     parseFloat := RefHost.StringToNumber;
     Object_keys := fun m => map fst (map_to_list m);
     Object_values := fun m => map snd (map_to_list m);
     Array_sort := fun cmp l => fold_right (insertBy cmp) [] l |}.

(** The Dashboard at rest over a stored document, with the add-action form
    and the friends dialog filled in. *)
Definition board (d : option UserDoc) (friendIds : option (list jsstring))
    (name description email : string) : Board :=
  {| store := d; friends := friendIds; boardTicks := 0; boardCalls := 0;
     userActions := []; carbonScore := 0; dashLoading := false;
     actionName := js name; actionDescription := js description;
     submitting := false; submitError := None; showAddActionModal := true;
     showAddFriendModal := true; friendEmail := js email;
     addFriendError := None; addingFriend := false |}.

(** A document with one action. *)
Definition oneActionDoc : UserDoc :=
  {| actions := {[ js "Drove to work" := 62%float ]};
     actionTimestamps := {[ js "Drove to work" := js "2025-01-02T08:00:00.000Z" ]};
     previousAdvice := None;
     mostRecentInsightsTimestamp := None |}.

(** The body [{"candidates":[{"content":{"parts":[{"text":"about -12.5 kg"}]}}]}]. *)
Definition footprintBody : jsstring :=
  [123] ++ dquote ++ js "candidates" ++ dquote ++ js ":[{"
  ++ dquote ++ js "content" ++ dquote ++ js ":{"
  ++ dquote ++ js "parts" ++ dquote ++ js ":[{"
  ++ dquote ++ js "text" ++ dquote ++ js ":"
  ++ dquote ++ js "about -12.5 kg" ++ dquote ++ js "}]}}]}".

(** A signed-in user, credentials present, a store that answers, and a
    service answering 200 with [footprintBody]. *)
Definition footprintEnv : Env :=
  {| user := true;
     apiKey := Some (js "key");
     clock := sampleClock;
     rejects := fun _ => false;
     fetch := FetchResponse {| ok := true; statusText := js "OK";
                               body := footprintBody |} |}.

(** The same, over a store that rejects the third call. *)
Definition flakyEnv : Env :=
  {| user := true;
     apiKey := Some (js "key");
     clock := sampleClock;
     rejects := fun n => (n =? 2)%nat;
     fetch := FetchResponse {| ok := true; statusText := js "OK";
                               body := footprintBody |} |}.

(** The user [u1] and a platform on which [ada@example.org] is [u2]. *)
Definition sampleDirectory : Directory :=
  {| uid := js "u1";
     usersByEmail := fun email =>
       if decide (email = js "ada@example.org") then [js "u2"] else [] |}.

(** * Properties *)

(** ** Checkpoint selection *)

Lemma truthy_Some_cons (c : N) (s : jsstring) : truthy (Some (c :: s)) = true.
Proof. reflexivity. Qed.

Lemma truthy_true_inv (v : option jsstring) :
  truthy v = true -> exists c s, v = Some (c :: s).
Proof. destruct v as [[|c s]|]; simpl; intros H; try discriminate; eauto. Qed.

Lemma or_str_hasTime (a : Action) (ts : jsstring) :
  or_str (ua_timestamp a) (ua_date a) = Some ts -> ts <> [] ->
  ua_timestamp a = Some ts
  \/ (truthy (ua_timestamp a) = false /\ ua_date a = Some ts).
Proof.
  unfold or_str. destruct (truthy (ua_timestamp a)) eqn:E; intros H _; auto.
Qed.

Lemma isNewAction_newerThan (T : jsstring) (a : Action) :
  isNewAction (Date_parse T) a = true <-> newerThan T a.
Proof.
  unfold isNewAction, newerThan, hasTime. split.
  - destruct (truthy (or_str (ua_timestamp a) (ua_date a))) eqn:Et; simpl;
      [|discriminate].
    destruct (truthy_true_inv _ Et) as (c & s & Eo). rewrite Eo.
    unfold date_gt.
    destruct (Date_parse (c :: s)) as [t|] eqn:Ea; [|discriminate].
    destruct (Date_parse T) as [t0|] eqn:ET; [|discriminate].
    intros H. apply Z.ltb_lt in H.
    exists t, t0. repeat split; auto.
    exists (c :: s). repeat split; auto; try discriminate.
    apply or_str_hasTime; auto; discriminate.
  - intros (t & t0 & (ts & Hne & Hsrc & Hp) & HT & Hlt).
    assert (Eo : or_str (ua_timestamp a) (ua_date a) = Some ts).
    { unfold or_str. destruct Hsrc as [H | [Hf H]].
      - rewrite H. destruct ts; [congruence | reflexivity].
      - rewrite Hf. exact H. }
    rewrite Eo. destruct ts as [|c s]; [congruence|]. simpl.
    rewrite Hp, HT. simpl. apply Z.ltb_lt. exact Hlt.
Qed.

Lemma filter_Selects {A : Type} (P : A -> Prop) (f : A -> bool) (l : list A) :
  (forall a, f a = true <-> P a) -> Selects P l (List.filter f l).
Proof.
  intros Hf. induction l as [|a l IH]; simpl.
  - constructor.
  - destruct (f a) eqn:E.
    + apply Selects_keep; auto. apply Hf; auto.
    + apply Selects_drop; auto. intros HP. apply Hf in HP. congruence.
Qed.

(** The relation pins its result down: a selection has one outcome. *)
Lemma Selects_unique {A : Type} (P : A -> Prop) (l r1 r2 : list A) :
  Selects P l r1 -> Selects P l r2 -> r1 = r2.
Proof.
  intros H1. revert r2. induction H1; intros r2 H2; inversion H2; subst;
    try reflexivity; try contradiction.
  - f_equal. auto.
  - auto.
Qed.

Lemma Selects_In {A : Type} (P : A -> Prop) (l r : list A) :
  Selects P l r -> forall a, In a r <-> In a l /\ P a.
Proof.
  induction 1; intros x; simpl.
  - tauto.
  - rewrite IHSelects. split.
    + intros [-> | [? ?]]; auto.
    + intros [[-> | ?] ?]; auto.
  - rewrite IHSelects. split.
    + intros [? ?]; auto.
    + intros [[-> | ?] ?]; auto. contradiction.
Qed.

Lemma filter_idem {A : Type} (f : A -> bool) (l : list A) :
  List.filter f (List.filter f l) = List.filter f l.
Proof.
  induction l as [|a l IH]; simpl; auto.
  destruct (f a) eqn:E; simpl; rewrite ?E, IH; reflexivity.
Qed.

(** C1. For every action list [A] and every checkpoint [T] (a non-empty
    string), the selection step returns exactly the actions of [A] whose time
    is strictly after [T], in the order of [A], and selecting again from its
    own output with the same [T] changes nothing; without a checkpoint
    ([null], or the empty string the read turns into [null]) it returns all of
    [A]. *)
Theorem newActions_selects_after_checkpoint (A : list Action) :
  (forall (c : N) (s : jsstring),
      let T := c :: s in
      Selects (newerThan T) A (newActions A (Some T))
      /\ newActions (newActions A (Some T)) (Some T) = newActions A (Some T))
  /\ newActions A None = A
  /\ newActions A (Some []) = A.
Proof.
  split; [|split; reflexivity].
  intros c s T. unfold newActions. simpl. split.
  - apply filter_Selects. intros a. apply isNewAction_newerThan.
  - apply filter_idem.
Qed.

(** C10. With a checkpoint, an action that has neither a [timestamp] nor a
    [date] (each missing or empty) is never among the new actions, although
    it carries no time at all and so is not older than the checkpoint
    either. *)
Theorem newActions_drops_untimed (A : list Action) (c : N) (s : jsstring)
    (a : Action) :
  truthy (ua_timestamp a) = false ->
  truthy (ua_date a) = false ->
  ~ In a (newActions A (Some (c :: s))) /\ (forall t, ~ hasTime a t).
Proof.
  intros Ht Hd. split.
  - unfold newActions. simpl. rewrite List.filter_In. intros [_ H].
    unfold isNewAction, or_str in H. rewrite Ht, Hd in H. discriminate.
  - intros t (ts & Hne & [H | [_ H]] & _).
    + rewrite H in Ht. destruct ts; [congruence | discriminate].
    + rewrite H in Hd. destruct ts; [congruence | discriminate].
Qed.

(** ** Facts about binary64 comparison *)

Lemma SFcompare_antisym (x y : spec_float) :
  SFcompare y x = option_map CompOpp (SFcompare x y).
Proof.
  destruct x as [sx|sx| |sx mx ex], y as [sy|sy| |sy my ey];
    try destruct sx; try destruct sy; simpl; try reflexivity.
  all: rewrite (Z.compare_antisym ex ey);
    destruct (ex ?= ey)%Z; simpl; try reflexivity;
    rewrite (Pos.compare_cont_antisym mx my Eq); reflexivity.
Qed.

Lemma is_nan_Prim2SF (x : float) :
  PrimFloat.is_nan x = false -> Prim2SF x <> S754_nan.
Proof.
  unfold PrimFloat.is_nan. rewrite FloatAxioms.eqb_spec. intros H E. rewrite E in H.
  discriminate.
Qed.

Lemma leb_negb_ltb (x y : float) :
  PrimFloat.is_nan x = false -> PrimFloat.is_nan y = false ->
  (x <=? y)%float = negb (y <? x)%float.
Proof.
  intros Hx Hy. apply is_nan_Prim2SF in Hx. apply is_nan_Prim2SF in Hy.
  rewrite FloatAxioms.leb_spec, FloatAxioms.ltb_spec. unfold SFleb, SFltb.
  rewrite (SFcompare_antisym (Prim2SF x) (Prim2SF y)).
  destruct (SFcompare (Prim2SF x) (Prim2SF y)) as [[]|] eqn:E; try reflexivity.
  exfalso.
  destruct (Prim2SF x) as [sx|sx| |sx mx ex], (Prim2SF y) as [sy|sy| |sy my ey];
    simpl in E; try discriminate; congruence.
Qed.

Lemma Prim2SF_50 : Prim2SF 50 = S754_finite false 7036874417766400 (-47).
Proof. vm_compute. reflexivity. Qed.

Lemma Prim2SF_25 : Prim2SF 25 = S754_finite false 7036874417766400 (-48).
Proof. vm_compute. reflexivity. Qed.

(** No number is both above 50 and below 25. *)
Lemma above50_below25 (x : float) :
  (50 <? x)%float = true -> (x <? 25)%float = true -> False.
Proof.
  rewrite !FloatAxioms.ltb_spec, Prim2SF_50, Prim2SF_25.
  destruct (Prim2SF x) as [s|s| |s m e]; try destruct s;
    unfold SFltb, SFcompare; try discriminate.
  destruct (Z.compare_spec (-47) e); destruct (Z.compare_spec e (-48));
    try lia; discriminate.
Qed.

(** ** Aggregation *)

Lemma num_or_zero_not_nan (v : option float) :
  PrimFloat.is_nan (num_or_zero v) = false.
Proof.
  destruct v as [x|]; simpl; [|reflexivity].
  destruct (PrimFloat.is_zero x || PrimFloat.is_nan x) eqn:E; simpl.
  - reflexivity.
  - apply orb_false_iff in E. tauto.
Qed.

Lemma formatAction_score_not_nan (timestamp : jsstring) (a : Action) :
  PrimFloat.is_nan (fa_sustainabilityScore (formatAction timestamp a)) = false.
Proof. apply num_or_zero_not_nan. Qed.

Lemma high_low_exclusive (a : FAction) :
  isHighImpact a = true -> isLowImpact a = true -> False.
Proof. unfold isHighImpact, isLowImpact. apply above50_below25. Qed.

Lemma neither_is_mid (a : FAction) :
  PrimFloat.is_nan (fa_sustainabilityScore a) = false ->
  negb (isHighImpact a) && negb (isLowImpact a) = isMidImpact a.
Proof.
  intros H. unfold isHighImpact, isLowImpact, isMidImpact.
  rewrite (leb_negb_ltb 25), (leb_negb_ltb _ 50); auto.
  apply andb_comm.
Qed.

Lemma three_way_split {A : Type} (f g : A -> bool) (l : list A) :
  (forall a, f a = true -> g a = true -> False) ->
  Permutation l
    (List.filter f l ++ List.filter g l
     ++ List.filter (fun a => negb (f a) && negb (g a)) l).
Proof.
  intros Hex. induction l as [|a l IH]; simpl; [constructor|].
  destruct (f a) eqn:Ef, (g a) eqn:Eg; simpl.
  - exfalso. eauto.
  - constructor. exact IH.
  - rewrite <- Permutation_middle. constructor. exact IH.
  - rewrite app_assoc. rewrite <- Permutation_middle. rewrite <- app_assoc.
    constructor. exact IH.
Qed.

Lemma formatActions_run (env : Env) (A : list Action) (st : State) :
  exists (l : list FAction) (st' : State),
    formatActions env A st = (Normal l, st')
    /\ Forall2 formats A l
    /\ doc st' = doc st /\ calls st' = calls st /\ advice st' = advice st
    /\ error st' = error st /\ loading st' = loading st /\ locals st' = locals st.
Proof.
  revert st. induction A as [|a A IH]; intros st; simpl.
  - exists [], st. unfold ret. repeat split; auto.
  - unfold bind at 1.
    assert (Ht : exists ts st1, timestampOf env a st = (Normal ts, st1)
                 /\ doc st1 = doc st /\ calls st1 = calls st
                 /\ advice st1 = advice st /\ error st1 = error st
                 /\ loading st1 = loading st /\ locals st1 = locals st).
    { unfold timestampOf.
      destruct (or_str (ua_timestamp a) (ua_date a)) as [[|c s]|];
        unfold now, ret; eauto 10. }
    destruct Ht as (ts & st1 & -> & H1).
    unfold bind at 1.
    destruct (IH st1) as (l & st2 & -> & HF & H2).
    exists (formatAction ts a :: l), st2. unfold ret. split; [reflexivity|].
    split.
    + constructor; auto. exists ts. reflexivity.
    + intuition congruence.
Qed.

Lemma formats_score_not_nan (a : Action) (f : FAction) :
  formats a f -> PrimFloat.is_nan (fa_sustainabilityScore f) = false.
Proof. intros [ts ->]. apply formatAction_score_not_nan. Qed.

Lemma filter_ext_Forall {A : Type} (f g : A -> bool) (l : list A) :
  Forall (fun a => f a = g a) l -> List.filter f l = List.filter g l.
Proof.
  induction 1 as [|a l Ha _ IH]; simpl; auto. rewrite Ha, IH. reflexivity.
Qed.

(** C5. For every list of formatted actions the high-impact subset (score
    above 50) and the low-impact subset (score below 25) share no action, and
    with the remainder they are a rearrangement of the input that counts each
    action once; for every list the handler builds from [userActions] the
    remainder is exactly the actions with a score from 25 to 50. *)
Theorem impact_buckets_partition :
  (forall l : list FAction,
      (forall a, In a (highImpactOf l) -> In a (lowImpactOf l) -> False)
      /\ Permutation l (highImpactOf l ++ lowImpactOf l ++ neitherOf l)
      /\ (length (highImpactOf l) + length (lowImpactOf l)
          + length (neitherOf l) = length l)%nat)
  /\ (forall (env : Env) (A : list Action) (st : State),
        exists (l : list FAction) (st' : State),
          formatActions env A st = (Normal l, st')
          /\ neitherOf l = List.filter isMidImpact l).
Proof.
  split.
  - intros l.
    assert (HP : Permutation l (highImpactOf l ++ lowImpactOf l ++ neitherOf l)).
    { apply three_way_split. apply high_low_exclusive. }
    split; [|split].
    + unfold highImpactOf, lowImpactOf. intros a Hh Hl.
      apply List.filter_In in Hh. apply List.filter_In in Hl.
      apply (high_low_exclusive a); tauto.
    + exact HP.
    + apply Permutation_length in HP. rewrite !length_app in HP. lia.
  - intros env A st.
    destruct (formatActions_run env A st) as (l & st' & Hrun & HF & _).
    exists l, st'. split; [exact Hrun|].
    unfold neitherOf. apply filter_ext_Forall.
    clear Hrun. induction HF as [|a f A l Haf _ IH]; constructor; auto.
    apply neither_is_mid. eapply formats_score_not_nan; eauto.
Qed.

(** C4 as the code has it. For two new actions with impact scores 10 and
    -5 (whatever their names, timestamps and categories) the total is 5, the
    mean is 2.5, neither action is in the high-impact bucket, and both are in
    the low-impact bucket, since both scores are below 25. *)
Theorem scenario_10_minus_5 (n1 t1 c1 n2 t2 c2 : jsstring) :
  let a := {| fa_action := n1; fa_sustainabilityScore := 10%float;
              fa_timestamp := t1; fa_category := c1 |} in
  let b := {| fa_action := n2; fa_sustainabilityScore := (-5)%float;
              fa_timestamp := t2; fa_category := c2 |} in
  let s := statsOf [a; b] in
  totalScore s = 5%float
  /\ avgScore s = 2.5%float
  /\ highImpactActions s = []
  /\ lowImpactActions s = [a; b].
Proof. repeat split; vm_compute; reflexivity. Qed.

(** ** The local advice generator *)

(** C6. For every argument tuple (any actions, any total and mean, zero
    and negative included, any buckets, empty included) the local generator
    returns a record and throws nothing; the record holds at most five
    insights and five recommendations. *)
Theorem generateLocalAdvice_never_fails (actions : list FAction)
    (total avg : float) (high low : list FAction) :
  exists r : AdviceRecord,
    generateLocalAdvice actions total avg high low = Normal r
    /\ (length (insights r) <= 5)%nat
    /\ (length (recommendations r) <= 5)%nat.
Proof.
  unfold generateLocalAdvice.
  destruct high as [|top high]; simpl; eexists; (split; [reflexivity|]);
    cbv beta zeta; unfold insights, recommendations;
    split; apply firstn_le_length.
Qed.

Lemma untimed_same (a b : FAction) : sameButTimestamp a b -> untimed a = untimed b.
Proof. intros (H1 & H2 & H3). unfold untimed. rewrite H1, H2, H3. reflexivity. Qed.

Lemma map_untimed_same (l l' : list FAction) :
  Forall2 sameButTimestamp l l' -> map untimed l = map untimed l'.
Proof.
  induction 1 as [|a b l l' Hab _ IH]; simpl; auto.
  rewrite (untimed_same a b Hab), IH. reflexivity.
Qed.

Lemma filter_map_untimed (f : FAction -> bool) (l : list FAction) :
  (forall a, f (untimed a) = f a) ->
  List.filter f (map untimed l) = map untimed (List.filter f l).
Proof.
  intros Hf. induction l as [|a l IH]; simpl; auto.
  rewrite Hf. destruct (f a); simpl; rewrite IH; reflexivity.
Qed.

Lemma existsb_map_untimed (f : FAction -> bool) (l : list FAction) :
  (forall a, f (untimed a) = f a) ->
  existsb f (map untimed l) = existsb f l.
Proof.
  intros Hf. induction l as [|a l IH]; simpl; auto. rewrite Hf, IH. reflexivity.
Qed.

Lemma sumScores_map_untimed (l : list FAction) :
  sumScores (map untimed l) = sumScores l.
Proof.
  unfold sumScores. generalize 0%float.
  induction l as [|a l IH]; intros acc; simpl; auto.
Qed.

Lemma generateLocalAdvice_untimed (actions : list FAction) (total avg : float)
    (high low : list FAction) :
  generateLocalAdvice (map untimed actions) total avg
                      (map untimed high) (map untimed low)
  = generateLocalAdvice actions total avg high low.
Proof.
  unfold generateLocalAdvice.
  rewrite !filter_map_untimed by reflexivity.
  rewrite !existsb_map_untimed by reflexivity.
  rewrite !length_map, sumScores_map_untimed.
  destruct high as [|top high]; reflexivity.
Qed.

(** C7. The local generator is a function of its arguments alone, and not
    even of all of them: two invocations whose action lists agree in every
    name, score and category (the timestamps, the only text derived from the
    wall clock, may differ) and whose total and mean are the same return the
    same record.  In particular two invocations on the same statistics do. *)
Theorem generateLocalAdvice_deterministic (actions actions' : list FAction)
    (total avg : float) (high high' low low' : list FAction) :
  Forall2 sameButTimestamp actions actions' ->
  Forall2 sameButTimestamp high high' ->
  Forall2 sameButTimestamp low low' ->
  generateLocalAdvice actions total avg high low
  = generateLocalAdvice actions' total avg high' low'.
Proof.
  intros Ha Hh Hl.
  rewrite <- (generateLocalAdvice_untimed actions),
          <- (generateLocalAdvice_untimed actions').
  rewrite (map_untimed_same _ _ Ha), (map_untimed_same _ _ Hh),
          (map_untimed_same _ _ Hl).
  reflexivity.
Qed.

(** ** JSON round trip *)

Lemma hexval_hexdigit (d : N) : d < 16 -> hexval (hexdigit d) = Some d.
Proof.
  intros H. unfold hexval, hexdigit.
  destruct (N.ltb_spec d 10).
  - replace ((48 <=? 48 + d) && (48 + d <=? 57)) with true.
    + f_equal. lia.
    + symmetry. apply andb_true_iff. split; apply N.leb_le; lia.
  - replace ((48 <=? 87 + d) && (87 + d <=? 57)) with false.
    + replace ((97 <=? 87 + d) && (87 + d <=? 102)) with true.
      * f_equal. lia.
      * symmetry. apply andb_true_iff. split; apply N.leb_le; lia.
    + symmetry. apply andb_false_iff. right. apply N.leb_gt. lia.
Qed.

Lemma hex4_unicodeEscape (c : N) :
  c < 65536 ->
  hex4 (hexdigit (c / 4096 mod 16)) (hexdigit (c / 256 mod 16))
       (hexdigit (c / 16 mod 16)) (hexdigit (c mod 16)) = Some c.
Proof.
  intros H. unfold hex4.
  rewrite !hexval_hexdigit by (apply N.mod_lt; discriminate).
  f_equal.
  pose proof (N.div_mod c 16 ltac:(discriminate)) as E0.
  pose proof (N.div_mod (c / 16) 16 ltac:(discriminate)) as E1.
  pose proof (N.div_mod (c / 256) 16 ltac:(discriminate)) as E2.
  replace (c / 256) with (c / 16 / 16) in * by (rewrite N.Div0.div_div; reflexivity).
  replace (c / 4096) with (c / 16 / 16 / 16) by (rewrite !N.Div0.div_div; reflexivity).
  assert (c / 16 / 16 / 16 < 16).
  { apply N.Div0.div_lt_upper_bound. apply N.Div0.div_lt_upper_bound.
    apply N.Div0.div_lt_upper_bound. simpl. exact H. }
  rewrite (N.mod_small (c / 16 / 16 / 16) 16) by assumption.
  lia.
Qed.

Lemma parse_chars_raw (c : N) (tail : jsstring) :
  c <> 34 -> c <> 92 -> 32 <= c ->
  parse_chars (c :: tail)
  = match parse_chars tail with
    | Some (str, rest) => Some (c :: str, rest)
    | None => None
    end.
Proof.
  intros H1 H2 H3. cbn [parse_chars].
  rewrite (proj2 (N.eqb_neq c 34) H1), (proj2 (N.eqb_neq c 92) H2),
          (proj2 (N.ltb_ge c 32) H3).
  reflexivity.
Qed.

Lemma parse_chars_escape (e u : N) (tail : jsstring) :
  e <> 117 -> unescape e = Some u ->
  parse_chars (92 :: e :: tail)
  = match parse_chars tail with
    | Some (str, rest) => Some (u :: str, rest)
    | None => None
    end.
Proof.
  intros H1 H2. cbn [parse_chars].
  change (92 =? 34) with false. change (92 =? 92) with true. cbv iota.
  rewrite (proj2 (N.eqb_neq e 117) H1), H2. reflexivity.
Qed.

Lemma parse_chars_unicode (h1 h2 h3 h4 u : N) (tail : jsstring) :
  hex4 h1 h2 h3 h4 = Some u ->
  parse_chars (92 :: 117 :: h1 :: h2 :: h3 :: h4 :: tail)
  = match parse_chars tail with
    | Some (str, rest) => Some (u :: str, rest)
    | None => None
    end.
Proof.
  intros H. cbn [parse_chars].
  change (92 =? 34) with false. change (92 =? 92) with true.
  change (117 =? 117) with true. cbv iota.
  rewrite H. reflexivity.
Qed.

Lemma surrogate_below_65536 (c : N) :
  (c <? 32) || is_high_surrogate c || is_low_surrogate c = true -> c < 65536.
Proof.
  unfold is_high_surrogate, is_low_surrogate. intros H.
  repeat (apply orb_true_iff in H; destruct H as [H|H]).
  - apply N.ltb_lt in H. lia.
  - apply andb_true_iff in H. destruct H as [_ H]. apply N.leb_le in H. lia.
  - apply andb_true_iff in H. destruct H as [_ H]. apply N.leb_le in H. lia.
Qed.

(** What [quoteUnit] writes for one code unit reads back as that unit. *)
Lemma parse_chars_quoteUnit (c : N) (tail : jsstring) :
  parse_chars (quoteUnit c ++ tail)
  = match parse_chars tail with
    | Some (str, rest) => Some (c :: str, rest)
    | None => None
    end.
Proof.
  unfold quoteUnit.
  destruct (N.eqb_spec c 8) as [->|N8];
    [apply parse_chars_escape; [discriminate|reflexivity]|].
  destruct (N.eqb_spec c 9) as [->|N9];
    [apply parse_chars_escape; [discriminate|reflexivity]|].
  destruct (N.eqb_spec c 10) as [->|N10];
    [apply parse_chars_escape; [discriminate|reflexivity]|].
  destruct (N.eqb_spec c 12) as [->|N12];
    [apply parse_chars_escape; [discriminate|reflexivity]|].
  destruct (N.eqb_spec c 13) as [->|N13];
    [apply parse_chars_escape; [discriminate|reflexivity]|].
  destruct (N.eqb_spec c 34) as [->|N34];
    [apply parse_chars_escape; [discriminate|reflexivity]|].
  destruct (N.eqb_spec c 92) as [->|N92];
    [apply parse_chars_escape; [discriminate|reflexivity]|].
  destruct ((c <? 32) || is_high_surrogate c || is_low_surrogate c) eqn:E.
  - unfold unicodeEscape. cbn [app].
    apply parse_chars_unicode. apply hex4_unicodeEscape.
    apply surrogate_below_65536. exact E.
  - cbn [app]. apply parse_chars_raw; auto.
    apply orb_false_iff in E. destruct E as [E _].
    apply orb_false_iff in E. destruct E as [E _].
    apply N.ltb_ge in E. exact E.
Qed.

Lemma high_surrogate_raw (c : N) :
  is_high_surrogate c = true -> c <> 34 /\ c <> 92 /\ 32 <= c.
Proof.
  unfold is_high_surrogate. intros H. apply andb_true_iff in H.
  destruct H as [H _]. apply N.leb_le in H. lia.
Qed.

Lemma low_surrogate_raw (c : N) :
  is_low_surrogate c = true -> c <> 34 /\ c <> 92 /\ 32 <= c.
Proof.
  unfold is_low_surrogate. intros H. apply andb_true_iff in H.
  destruct H as [H _]. apply N.leb_le in H. lia.
Qed.

Lemma parse_chars_quoteChars_bounded (n : nat) :
  forall (s rest : jsstring), (length s <= n)%nat ->
    parse_chars (quoteChars s ++ 34 :: rest) = Some (s, rest).
Proof.
  induction n as [|n IH]; intros s rest Hlen.
  - destruct s; [reflexivity | simpl in Hlen; lia].
  - destruct s as [|c r]; [reflexivity|]. simpl in Hlen.
    cbn [quoteChars].
    destruct (is_high_surrogate c) eqn:Eh.
    + destruct r as [|d r'].
      * rewrite parse_chars_quoteUnit. reflexivity.
      * destruct (is_low_surrogate d) eqn:El.
        -- destruct (high_surrogate_raw c Eh) as (? & ? & ?).
           destruct (low_surrogate_raw d El) as (? & ? & ?).
           cbn [app]. rewrite parse_chars_raw by auto.
           rewrite parse_chars_raw by auto.
           rewrite IH by (simpl in Hlen; lia). reflexivity.
        -- rewrite <- app_assoc, parse_chars_quoteUnit.
           rewrite IH by lia. reflexivity.
    + rewrite <- app_assoc, parse_chars_quoteUnit.
      rewrite IH by lia. reflexivity.
Qed.

(** A quoted string reads back as the string. *)
Lemma parse_chars_quoteChars (s rest : jsstring) :
  parse_chars (quoteChars s ++ 34 :: rest) = Some (s, rest).
Proof. apply (parse_chars_quoteChars_bounded (length s)). lia. Qed.

Lemma parse_elems_S (f : nat) (s : jsstring) :
  parse_elems (S f) s
  = match parse_value f s with
    | Some (v, r) =>
        match skip_ws r with
        | c :: r' =>
            if c =? 44 then
              match parse_elems f r' with
              | Some (l, rest) => Some (v :: l, rest)
              | None => None
              end
            else if c =? 93 then Some ([v], r')
            else None
        | [] => None
        end
    | None => None
    end.
Proof. reflexivity. Qed.

Lemma parse_value_string (f : nat) (s rest : jsstring) :
  (1 <= f)%nat ->
  parse_value f (QuoteJSONString s ++ rest) = Some (JStr s, rest).
Proof.
  intros Hf. destruct f as [|f]; [lia|].
  unfold QuoteJSONString, dquote. rewrite <- !app_assoc. cbn [app].
  cbn [parse_value skip_ws]. change (is_json_ws 34) with false. cbv iota.
  change (34 =? 34) with true. cbv iota.
  rewrite parse_chars_quoteChars. reflexivity.
Qed.

Lemma parse_elems_strings (l : list jsstring) :
  forall (a : jsstring) (f : nat) (rest : jsstring),
    (length l + 2 <= f)%nat ->
    parse_elems f (join_comma (map QuoteJSONString (a :: l)) ++ 93 :: rest)
    = Some (map JStr (a :: l), rest).
Proof.
  induction l as [|b l IH]; intros a f rest Hf.
  - destruct f as [|f]; [simpl in Hf; lia|].
    rewrite parse_elems_S. cbn [map join_comma].
    rewrite parse_value_string by (simpl in Hf; lia). reflexivity.
  - destruct f as [|f]; [simpl in Hf; lia|].
    change (join_comma (map QuoteJSONString (a :: b :: l)))
      with (QuoteJSONString a ++ [44] ++ join_comma (map QuoteJSONString (b :: l))).
    rewrite <- !app_assoc. rewrite parse_elems_S.
    rewrite parse_value_string by (simpl in Hf; lia). cbn [app skip_ws].
    change (is_json_ws 44) with false. cbv iota.
    change (44 =? 44) with true. cbv iota.
    rewrite IH by (simpl in Hf |- *; lia). reflexivity.
Qed.

Lemma JSON_stringify_strings (l : list jsstring) :
  JSON_stringify (JArr (map JStr l))
  = [91] ++ join_comma (map QuoteJSONString l) ++ [93].
Proof. cbn [JSON_stringify]. rewrite map_map. reflexivity. Qed.

Lemma parse_value_strings (l : list jsstring) (f : nat) (rest : jsstring) :
  (length l + 2 <= f)%nat ->
  parse_value f (JSON_stringify (JArr (map JStr l)) ++ rest)
  = Some (JArr (map JStr l), rest).
Proof.
  intros Hf. rewrite JSON_stringify_strings.
  destruct f as [|f]; [lia|].
  destruct l as [|a l].
  - reflexivity.
  - rewrite <- !app_assoc. cbn [app parse_value skip_ws].
    change (is_json_ws 91) with false. cbv iota.
    change (91 =? 34) with false. change (91 =? 91) with true. cbv iota.
    assert (Hq : forall t, skip_ws (join_comma (map QuoteJSONString (a :: l)) ++ t)
                 = 34 :: tl (join_comma (map QuoteJSONString (a :: l)) ++ t)).
    { intros t. destruct l; reflexivity. }
    rewrite Hq. change (34 =? 93) with false. cbv iota.
    rewrite parse_elems_strings by (simpl in Hf; lia). reflexivity.
Qed.

Lemma length_join_strings (l : list jsstring) :
  (length l <= length (join_comma (map QuoteJSONString l)))%nat.
Proof.
  induction l as [|a [|b l] IH].
  - simpl. lia.
  - simpl. lia.
  - change (join_comma (map QuoteJSONString (a :: b :: l)))
      with (QuoteJSONString a ++ [44] ++ join_comma (map QuoteJSONString (b :: l))).
    rewrite !length_app. simpl in IH |- *. lia.
Qed.

Lemma length_stringify_strings (l : list jsstring) :
  (length l <= length (JSON_stringify (JArr (map JStr l))))%nat.
Proof.
  rewrite JSON_stringify_strings, !length_app.
  pose proof (length_join_strings l). simpl. lia.
Qed.

Lemma parse_value_strings_raw (l : list jsstring) (f : nat) (rest : jsstring) :
  (length l + 2 <= f)%nat ->
  parse_value f (91 :: join_comma (map QuoteJSONString l) ++ 93 :: rest)
  = Some (JArr (map JStr l), rest).
Proof.
  intros Hf. pose proof (parse_value_strings l f rest Hf) as H.
  rewrite JSON_stringify_strings in H. rewrite <- !app_assoc in H. exact H.
Qed.

Lemma parse_members_step (f : nat) (k s' : jsstring) (v : json) (r3 : jsstring)
    (acc : list (jsstring * json)) :
  parse_value f s' = Some (v, r3) ->
  parse_members (S f) (QuoteJSONString k ++ 58 :: s') acc
  = match skip_ws r3 with
    | c3 :: r4 =>
        if c3 =? 44 then parse_members f r4 (obj_set k v acc)
        else if c3 =? 125 then Some (obj_set k v acc, r4)
        else None
    | [] => None
    end.
Proof.
  intros Hv. unfold QuoteJSONString, dquote. rewrite <- !app_assoc. cbn [app].
  cbn [parse_members skip_ws]. change (is_json_ws 34) with false. cbv iota.
  change (34 =? 34) with true. cbv iota.
  rewrite parse_chars_quoteChars. cbn [skip_ws].
  change (is_json_ws 58) with false. cbv iota.
  change (58 =? 58) with true. cbv iota.
  rewrite Hv. reflexivity.
Qed.

Lemma stringify_advice_shape (r : AdviceRecord) (rest : jsstring) :
  JSON_stringify (advice_value r) ++ rest
  = 123 :: QuoteJSONString (js "insights") ++ 58
      :: (91 :: join_comma (map QuoteJSONString (insights r)) ++ 93 :: 44
      :: QuoteJSONString (js "recommendations") ++ 58
      :: (91 :: join_comma (map QuoteJSONString (recommendations r)) ++ 93 :: 44
      :: QuoteJSONString (js "summary") ++ 58
      :: QuoteJSONString (summary r) ++ 125 :: rest)).
Proof.
  unfold advice_value.
  cbn [JSON_stringify map join_comma fst snd].
  rewrite !map_map. cbn [JSON_stringify].
  rewrite <- !app_assoc. cbn [app]. reflexivity.
Qed.

Lemma parse_value_advice (r : AdviceRecord) (f : nat) (rest : jsstring) :
  (length (insights r) + 4 <= f)%nat ->
  (length (recommendations r) + 5 <= f)%nat ->
  parse_value f (JSON_stringify (advice_value r) ++ rest)
  = Some (advice_value r, rest).
Proof.
  intros H1 H2. rewrite stringify_advice_shape.
  destruct f as [|f]; [lia|]. destruct f as [|f]; [lia|].
  destruct f as [|f]; [lia|]. destruct f as [|f]; [lia|].
  set (k1 := js "insights"). set (k2 := js "recommendations").
  set (k3 := js "summary").
  assert (Hskip : forall k t, skip_ws (QuoteJSONString k ++ t)
                              = 34 :: quoteChars k ++ dquote ++ t).
  { intros k t. unfold QuoteJSONString, dquote. rewrite <- !app_assoc.
    reflexivity. }
  change (parse_value (S (S (S (S f)))) (123 :: ?t))
    with (match skip_ws t with
          | d :: r' =>
              if d =? 125 then Some (JObj [], r')
              else match parse_members (S (S (S f))) t [] with
                   | Some (ps, rest) => Some (JObj ps, rest)
                   | None => None
                   end
          | [] => None
          end).
  rewrite Hskip. change (34 =? 125) with false. cbv iota.
  rewrite (parse_members_step _ k1 _ _ _ [] 
             (parse_value_strings_raw (insights r) (S (S f)) _ ltac:(lia))).
  cbn [skip_ws]. change (is_json_ws 44) with false. cbv iota.
  change (44 =? 44) with true. cbv iota.
  rewrite (parse_members_step _ k2 _ _ _ _
             (parse_value_strings_raw (recommendations r) (S f) _ ltac:(lia))).
  cbn [skip_ws]. change (is_json_ws 44) with false. cbv iota.
  change (44 =? 44) with true. cbv iota.
  rewrite (parse_members_step _ k3 _ _ _ _
             (parse_value_string f (summary r) _ ltac:(lia))).
  cbn [skip_ws]. change (is_json_ws 125) with false. cbv iota.
  change (125 =? 44) with false. change (125 =? 125) with true. cbv iota.
  reflexivity.
Qed.

Lemma length_stringify_advice (r : AdviceRecord) :
  (length (insights r) + length (recommendations r) + 4
   <= length (JSON_stringify (advice_value r)))%nat.
Proof.
  rewrite <- (app_nil_r (JSON_stringify (advice_value r))).
  rewrite stringify_advice_shape.
  pose proof (length_join_strings (insights r)).
  pose proof (length_join_strings (recommendations r)).
  repeat (first [rewrite length_app | progress cbn [length]]). lia.
Qed.

Lemma JSON_parse_stringify_advice (r : AdviceRecord) :
  JSON_parse (JSON_stringify (advice_value r)) = Some (advice_value r).
Proof.
  unfold JSON_parse.
  pose proof (length_stringify_advice r) as Hlen.
  rewrite <- (app_nil_r (JSON_stringify (advice_value r))) at 2.
  rewrite parse_value_advice by lia.
  reflexivity.
Qed.

Lemma stringify_advice_nonempty (r : AdviceRecord) :
  truthy (Some (JSON_stringify (advice_value r))) = true.
Proof.
  rewrite <- (app_nil_r (JSON_stringify (advice_value r))).
  rewrite stringify_advice_shape. reflexivity.
Qed.

(** C8. For every advice record, [JSON.parse] of its [JSON.stringify] text
    succeeds and gives back a value whose [insights], [recommendations] and
    [summary] are those of the record, and nothing else: the value is the
    record itself. *)
Theorem advice_blob_round_trip (r : AdviceRecord) :
  exists v : json,
    JSON_parse (JSON_stringify (advice_value r)) = Some v
    /\ get_prop v (js "insights") = Some (JArr (map JStr (insights r)))
    /\ get_prop v (js "recommendations") = Some (JArr (map JStr (recommendations r)))
    /\ get_prop v (js "summary") = Some (JStr (summary r))
    /\ v = advice_value r.
Proof.
  exists (advice_value r). split; [apply JSON_parse_stringify_advice|].
  repeat split; reflexivity.
Qed.

(** ** Persistence *)

Lemma persisted_after_update (st : State) (d : UserDoc) (ts blob : jsstring)
    (st' : State) :
  doc st = Some d ->
  doc st' = Some {| actions := actions d;
                    actionTimestamps := actionTimestamps d;
                    previousAdvice := Some (<[ts := blob]> (adviceMap d));
                    mostRecentInsightsTimestamp := Some ts |} ->
  persisted st st' ts blob.
Proof.
  intros Hd Hd'. eexists d, _. split; [exact Hd|]. split; [exact Hd'|].
  unfold adviceMap at 1 2. cbn [previousAdvice mostRecentInsightsTimestamp
                                 actions actionTimestamps].
  repeat split.
  - apply lookup_insert_eq.
  - intros k Hk. apply lookup_insert_ne. congruence.
Qed.

(** [saveInsightsToFirestore] never throws, never touches the component
    state, and either leaves the document alone or writes the record and the
    pointer under one clock reading. *)
Lemma saveInsights_spec (env : Env) (v : json) (st : State) :
  exists st' : State,
    saveInsightsToFirestore env v st = (Normal tt, st')
    /\ advice st' = advice st /\ error st' = error st
    /\ loading st' = loading st /\ locals st' = locals st
    /\ (doc st' = doc st
        \/ persisted st st' (clock env (ticks st)) (JSON_stringify v)).
Proof.
  unfold saveInsightsToFirestore.
  destruct (user env); cbn [negb].
  2:{ exists st. unfold ret. repeat split; auto. }
  unfold try_catch, bind, getDoc.
  destruct (rejects env (calls st)) eqn:E1.
  { eexists. unfold ret. repeat split; auto. }
  cbn [called doc].
  destruct (doc st) as [d|] eqn:Ed.
  2:{ eexists. unfold ret. repeat split; cbn; auto. }
  unfold now, updateDoc. cbn [ticked called calls doc ticks].
  destruct (rejects env (S (calls st))) eqn:E2.
  { eexists. unfold ret. repeat split; cbn; auto. }
  eexists. split; [reflexivity|]. cbn. repeat split; auto.
  right. eapply persisted_after_update; [exact Ed | reflexivity].
Qed.

Lemma saveInsights_writes (env : Env) (v : json) (st : State) (d : UserDoc) :
  user env = true -> doc st = Some d ->
  rejects env (calls st) = false -> rejects env (S (calls st)) = false ->
  persisted st (snd (saveInsightsToFirestore env v st))
            (clock env (ticks st)) (JSON_stringify v).
Proof.
  intros Hu Hd H1 H2. unfold saveInsightsToFirestore. rewrite Hu. cbn [negb].
  unfold try_catch, bind, getDoc. rewrite H1. cbn [called doc]. rewrite Hd.
  unfold now, updateDoc. cbn [ticked called calls doc ticks]. rewrite H2.
  cbn [snd]. eapply persisted_after_update; [exact Hd | reflexivity].
Qed.

Lemma persisted_same_doc (st0 st st' : State) (ts blob : jsstring) :
  doc st = doc st0 -> persisted st st' ts blob -> persisted st0 st' ts blob.
Proof.
  intros E (d & d' & H1 & H2). exists d, d'. rewrite <- E. auto.
Qed.

Lemma storedWhatIsShown_frame (st0 st st' st1 : State) :
  doc st = doc st0 -> doc st1 = doc st' -> advice st1 = advice st' ->
  storedWhatIsShown st st' -> storedWhatIsShown st0 st1.
Proof.
  intros E0 E1 Ea [H | (ts & d & d' & H1 & H2 & H)].
  - left. congruence.
  - right. exists ts, d, d'. rewrite Ea, E1, <- E0. auto.
Qed.

Lemma show_and_save (env : Env) (v : json) (st : State) :
  exists st' : State,
    (setAdvice v ;;; saveInsightsToFirestore env v) st = (Normal tt, st')
    /\ advice st' = v /\ error st' = error st /\ loading st' = loading st
    /\ locals st' = locals st
    /\ storedWhatIsShown st st'.
Proof.
  unfold bind at 1. unfold setAdvice.
  destruct (saveInsights_spec env v (with_advice st v))
    as (st' & -> & Ha & He & Hl & Hlo & Hd).
  exists st'.
  cbn [advice error loading locals doc with_advice] in Ha, He, Hl, Hlo, Hd |- *.
  repeat split; auto.
  destruct Hd as [Hd | Hd].
  - left. exact Hd.
  - right. exists (clock env (ticks st)). rewrite Ha.
    eapply persisted_same_doc; [|exact Hd]. reflexivity.
Qed.

(** [generateRemote] either completes, having stored what it shows (if it
    stored anything), or throws before changing anything. *)
Lemma generateRemote_spec (env : Env) (l : Locals) (st : State) :
  (exists st' : State,
      generateRemote env l st = (Normal tt, st')
      /\ error st' = error st /\ loading st' = loading st
      /\ locals st' = locals st
      /\ storedWhatIsShown st st')
  \/ (exists e : jsstring, generateRemote env l st = (Throw e, st)).
Proof.
  unfold generateRemote.
  destruct (truthy (apiKey env)); cbn [negb].
  - destruct (fetch env) as [m | r]; [right; eexists; reflexivity|].
    destruct (ok r); cbn [negb]; [|right; eexists; reflexivity].
    destruct (JSON_parse (body r)) as [data|]; [|right; eexists; reflexivity].
    unfold bind at 1, liftC.
    destruct (responseTextOf data) as [[| | |text| |]|e];
      try (right; eexists; reflexivity).
    left. destruct (show_and_save env (adviceFromText text) st)
      as (st' & -> & _ & He & Hl & Hlo & Hd).
    exists st'. auto.
  - unfold bind at 1, liftC.
    destruct (localAdviceOf l) as [r|e]; [|right; eexists; reflexivity].
    left. destruct (show_and_save env (advice_value r) st)
      as (st' & -> & _ & He & Hl & Hlo & Hd).
    exists st'. auto.
Qed.

Lemma localAdviceOf_total (l : Locals) :
  exists r : AdviceRecord, localAdviceOf l = Normal r.
Proof.
  unfold localAdviceOf, generateLocalAdvice.
  destruct (highImpactActions l) as [|top high]; cbn [length Nat.ltb Nat.leb
    nth_error bindC]; eexists; reflexivity.
Qed.

(** The outer [catch] always ends with the local advice shown, the error
    cleared, and what it stored (if anything) being that advice. *)
Lemma fallbackLocal_spec (env : Env) (message : jsstring) (st : State) :
  exists (r : AdviceRecord) (st' : State),
    fallbackLocal env message st = (Normal tt, st')
    /\ localAdviceOf (locals st) = Normal r
    /\ advice st' = advice_value r /\ error st' = None
    /\ loading st' = loading st /\ locals st' = locals st
    /\ storedWhatIsShown st st'.
Proof.
  unfold fallbackLocal. unfold bind at 1, getLocals.
  destruct (localAdviceOf_total (locals st)) as (r & Hr).
  unfold try_catch. unfold bind at 1. unfold liftC. rewrite Hr.
  change (setAdvice (advice_value r);;;
          saveInsightsToFirestore env (advice_value r);;; setError None)
    with (bind (setAdvice (advice_value r))
            (fun _ => bind (saveInsightsToFirestore env (advice_value r))
                        (fun _ => setError None))).
  unfold bind at 1. unfold setAdvice.
  unfold bind at 1.
  destruct (saveInsights_spec env (advice_value r)
              (with_advice st (advice_value r)))
    as (st' & -> & Ha & He & Hl & Hlo & Hd).
  unfold setError. exists r, (with_error st' None).
  cbn [advice error loading locals doc with_error with_advice] in Ha, He, Hl, Hlo, Hd |- *.
  repeat split; auto.
  destruct Hd as [Hd | Hd].
  - left. exact Hd.
  - right. exists (clock env (ticks st)). cbn [advice with_error]. rewrite Ha.
    destruct Hd as (d & d' & H1 & H2 & H). exists d, d'.
    cbn [doc with_error with_advice] in H1 |- *. auto.
Qed.

(** ** The greatest key of the advice mapping *)

Lemma str_leb_refl (a : jsstring) : str_leb a a = true.
Proof.
  induction a as [|x a IH]; simpl; auto.
  rewrite N.eqb_refl, IH. apply orb_true_r.
Qed.

Lemma str_leb_total (a b : jsstring) : str_leb a b = true \/ str_leb b a = true.
Proof.
  revert b. induction a as [|x a IH]; intros [|y b]; simpl; auto.
  destruct (N.lt_trichotomy x y) as [H | [H | H]].
  - left. rewrite (proj2 (N.ltb_lt x y) H). reflexivity.
  - subst y. rewrite N.eqb_refl, N.ltb_irrefl. simpl. apply IH.
  - right. rewrite (proj2 (N.ltb_lt y x) H). reflexivity.
Qed.

Lemma str_leb_cons (x y : N) (a b : jsstring) :
  str_leb (x :: a) (y :: b) = true <-> x < y \/ (x = y /\ str_leb a b = true).
Proof.
  simpl. rewrite orb_true_iff, andb_true_iff, N.ltb_lt, N.eqb_eq. tauto.
Qed.

Lemma str_leb_trans (a b c : jsstring) :
  str_leb a b = true -> str_leb b c = true -> str_leb a c = true.
Proof.
  revert b c. induction a as [|x a IH]; intros [|y b] [|z c]; auto;
    try discriminate.
  rewrite !str_leb_cons. intros [H1 | [-> H1]] [H2 | [-> H2]].
  - left. lia.
  - left. lia.
  - left. lia.
  - right. split; auto. eapply IH; eauto.
Qed.

Lemma str_leb_antisym (a b : jsstring) :
  str_leb a b = true -> str_leb b a = true -> a = b.
Proof.
  revert b. induction a as [|x a IH]; intros [|y b]; auto; try discriminate.
  rewrite !str_leb_cons. intros [H1 | [-> H1]] [H2 | [E H2]]; try lia.
  f_equal. auto.
Qed.

Lemma insert_sorted_In (k x : jsstring) (l : list jsstring) :
  In x (insert_sorted k l) <-> x = k \/ In x l.
Proof.
  induction l as [|y l IH]; simpl.
  - intuition.
  - destruct (str_leb k y); simpl; rewrite ?IH; intuition.
Qed.

Lemma sort_strings_In (x : jsstring) (l : list jsstring) :
  In x (sort_strings l) <-> In x l.
Proof.
  induction l as [|y l IH]; simpl; [tauto|].
  rewrite insert_sorted_In, IH. intuition.
Qed.

(** [ascending l]: every element is at most every later one. *)
Lemma insert_sorted_ascending (k : jsstring) (l : list jsstring) :
  StronglySorted (fun a b => str_leb a b = true) l ->
  StronglySorted (fun a b => str_leb a b = true) (insert_sorted k l).
Proof.
  induction 1 as [|y l Hs IH Hall]; simpl.
  - repeat constructor.
  - destruct (str_leb k y) eqn:E.
    + constructor; [constructor; auto|]. constructor; auto.
      apply List.Forall_forall. intros z Hz. rewrite List.Forall_forall in Hall.
      eapply str_leb_trans; eauto.
    + constructor; auto. apply List.Forall_forall. intros z Hz.
      apply insert_sorted_In in Hz. destruct Hz as [-> | Hz].
      * destruct (str_leb_total k y); congruence.
      * rewrite List.Forall_forall in Hall. auto.
Qed.

Lemma sort_strings_ascending (l : list jsstring) :
  StronglySorted (fun a b => str_leb a b = true) (sort_strings l).
Proof.
  induction l; simpl; [constructor | apply insert_sorted_ascending; auto].
Qed.

Lemma ascending_last_greatest (l : list jsstring) :
  StronglySorted (fun a b => str_leb a b = true) l ->
  forall (h : jsstring) (t : list jsstring),
    rev l = h :: t ->
    forall x, In x l -> str_leb x h = true.
Proof.
  induction 1 as [|y l Hs IH Hall]; intros h t Hrev x Hx; [contradiction|].
  simpl in Hrev. destruct (rev l) as [|h' t'] eqn:Er.
  - simpl in Hrev. injection Hrev as <- <-.
    apply (f_equal (@rev _)) in Er. rewrite rev_involutive in Er. subst l.
    destruct Hx as [-> | []]. apply str_leb_refl.
  - simpl in Hrev. injection Hrev as -> <-.
    assert (Hin : In h l).
    { apply in_rev. rewrite Er. left. reflexivity. }
    destruct Hx as [-> | Hx].
    + rewrite List.Forall_forall in Hall. auto.
    + apply (IH h t' eq_refl). exact Hx.
Qed.

Lemma keys_of_map (m : gmap jsstring jsstring) (k : jsstring) :
  In k (map fst (map_to_list m)) <-> is_Some (m !! k).
Proof.
  rewrite in_map_iff. split.
  - intros ([k' v] & <- & Hin). apply list_elem_of_In in Hin.
    apply elem_of_map_to_list in Hin. simpl. eauto.
  - intros [v Hv]. exists (k, v). split; auto.
    apply list_elem_of_In. apply elem_of_map_to_list. exact Hv.
Qed.

(** The head of [Object.keys(m).sort().reverse()] is the greatest key, and
    the list is empty only for the empty mapping. *)
Lemma adviceTimestamps_head (m : gmap jsstring jsstring) :
  match adviceTimestamps m with
  | latest :: _ => greatestKey m latest
  | [] => forall k, m !! k = None
  end.
Proof.
  unfold adviceTimestamps.
  destruct (rev (sort_strings (map fst (map_to_list m)))) as [|h t] eqn:Er.
  - intros k. destruct (m !! k) as [v|] eqn:E; auto. exfalso.
    assert (Hin : In k (rev (sort_strings (map fst (map_to_list m))))).
    { apply -> in_rev. apply sort_strings_In. apply keys_of_map. eauto. }
    rewrite Er in Hin. contradiction.
  - split.
    + apply keys_of_map. apply sort_strings_In. apply in_rev. rewrite Er.
      left. reflexivity.
    + intros k' Hk'.
      apply (ascending_last_greatest _ (sort_strings_ascending _) _ _ Er).
      apply sort_strings_In. apply keys_of_map. exact Hk'.
Qed.

Lemma greatestKey_unique (m : gmap jsstring jsstring) (k k' : jsstring) :
  greatestKey m k -> greatestKey m k' -> k = k'.
Proof.
  intros [H1 H2] [H3 H4]. apply str_leb_antisym; auto.
Qed.

(** ** Running the handler *)

Lemma fetchCheckpoint_run (env : Env) (st : State) :
  fetchCheckpoint env st = (Normal (checkpointSeen env st), afterFetch env st).
Proof.
  unfold fetchCheckpoint, checkpointSeen, afterFetch, try_catch, bind, getDoc.
  destruct (user env); [|reflexivity].
  destruct (rejects env (calls st)); [reflexivity|].
  destruct (doc st); reflexivity.
Qed.

Lemma checkpointSeen_nonempty (env : Env) (st : State) (T : jsstring) :
  checkpointSeen env st = Some T -> exists c s, T = c :: s.
Proof.
  unfold checkpointSeen.
  destruct (user env); [|discriminate].
  destruct (rejects env (calls st)); [discriminate|].
  destruct (doc st) as [d|]; [|discriminate].
  unfold or_str. destruct (truthy (mostRecentInsightsTimestamp d)) eqn:E;
    [|discriminate].
  intros H. rewrite H in E. destruct T; [discriminate | eauto].
Qed.

Lemma showStored_run (text : option jsstring) (st : State) :
  showStored text st
  = (Normal tt,
     match text with
     | Some s => match JSON_parse s with
                 | Some v => with_advice st v
                 | None => st
                 end
     | None => st
     end).
Proof.
  unfold showStored. destruct text as [s|]; [|reflexivity].
  destruct (JSON_parse s); reflexivity.
Qed.

Lemma showPreviousAdvice_run (env : Env) (T : jsstring) (st : State) :
  showPreviousAdvice env T st
  = (Normal tt,
     if rejects env (calls st) then called st (doc st)
     else match doc st with
          | Some d =>
              match storedTextFor (adviceMap d) T with
              | Some s => match JSON_parse s with
                          | Some v => with_advice (called st (doc st)) v
                          | None => called st (doc st)
                          end
              | None => called st (doc st)
              end
          | None => called st (doc st)
          end).
Proof.
  unfold showPreviousAdvice, try_catch, bind, getDoc.
  destruct (rejects env (calls st)); [reflexivity|].
  destruct (doc st) as [d|] eqn:Ed; [|reflexivity].
  unfold storedTextFor.
  destruct (truthy (adviceMap d !! T)).
  - rewrite showStored_run. reflexivity.
  - destruct (adviceTimestamps (adviceMap d)) as [|latest rest].
    + reflexivity.
    + rewrite showStored_run. reflexivity.
Qed.

Lemma showPreviousAdvice_frame (env : Env) (T : jsstring) (st : State) :
  let st' := snd (showPreviousAdvice env T st) in
  doc st' = doc st /\ ticks st' = ticks st /\ error st' = error st
  /\ loading st' = loading st /\ locals st' = locals st.
Proof.
  rewrite showPreviousAdvice_run. cbn [snd].
  destruct (rejects env (calls st)); [cbn; auto|].
  destruct (doc st) as [d|] eqn:Ed; [|cbn; auto].
  destruct (storedTextFor (adviceMap d) T) as [s|]; [|cbn; auto].
  destruct (JSON_parse s); cbn; auto.
Qed.

Lemma length_eqb_0 {A : Type} (l : list A) :
  (length l =? 0)%nat = match l with [] => true | _ :: _ => false end.
Proof. destruct l; reflexivity. Qed.

(** The run that finds a checkpoint and nothing newer. *)
Lemma handleGetAdvice_nothing_new (env : Env) (A : list Action) (st : State)
    (T : jsstring) :
  A <> [] ->
  checkpointSeen env st = Some T ->
  newActions A (Some T) = [] ->
  handleGetAdvice env A st
  = (Normal tt,
     with_loading
       (with_loading
          (with_error
             (snd (showPreviousAdvice env T (afterFetch env (started st))))
             (Some msgNoNewActions))
          false)
       false).
Proof.
  intros HA Hcp Hsel.
  destruct (checkpointSeen_nonempty env st T Hcp) as (c & s & ->).
  unfold handleGetAdvice. rewrite length_eqb_0.
  destruct A as [|a A]; [congruence|].
  unfold bind at 1. unfold setLoading at 1.
  unfold bind at 1. unfold setAdvice at 1.
  unfold bind at 1. unfold setError at 1.
  unfold bind at 1. unfold setLocals at 1.
  fold (started st).
  unfold try_finally, try_catch. unfold bind at 1.
  rewrite fetchCheckpoint_run.
  change (checkpointSeen env (started st)) with (checkpointSeen env st).
  rewrite Hcp, Hsel. cbn [length Nat.eqb truthy].
  unfold bind at 1. unfold bind at 1.
  rewrite (surjective_pairing (showPreviousAdvice env (c :: s) (afterFetch env (started st)))).
  rewrite showPreviousAdvice_run at 1. cbn [fst].
  reflexivity.
Qed.

Lemma newActions_nil (cp : option jsstring) : newActions [] cp = [].
Proof. unfold newActions. destruct (truthy cp); [destruct cp|]; reflexivity. Qed.

Lemma doc_afterFetch (env : Env) (st : State) : doc (afterFetch env st) = doc st.
Proof. unfold afterFetch. destruct (user env); reflexivity. Qed.

(** The run that has new actions to report on. *)
Lemma handleGetAdvice_generates (env : Env) (A : list Action) (st : State) :
  newActions A (checkpointSeen env st) <> [] ->
  exists (l : list FAction) (st2 : State),
    formatActions env (newActions A (checkpointSeen env st))
                  (afterFetch env (started st)) = (Normal l, st2)
    /\ handleGetAdvice env A st
       = (fst (try_catch (generateRemote env (statsOf l)) (fallbackLocal env)
                         (with_locals st2 (statsOf l))),
          with_loading
            (snd (try_catch (generateRemote env (statsOf l)) (fallbackLocal env)
                            (with_locals st2 (statsOf l))))
            false).
Proof.
  intros Hsel.
  destruct (formatActions_run env (newActions A (checkpointSeen env st))
              (afterFetch env (started st))) as (l & st2 & Hrun & _).
  exists l, st2. split; [exact Hrun|].
  unfold handleGetAdvice. rewrite length_eqb_0.
  destruct A as [|a A]; [rewrite newActions_nil in Hsel; congruence|].
  unfold bind at 1. unfold setLoading at 1.
  unfold bind at 1. unfold setAdvice at 1.
  unfold bind at 1. unfold setError at 1.
  unfold bind at 1. unfold setLocals at 1.
  fold (started st).
  unfold try_finally.
  unfold try_catch at 1 2 3. unfold bind at 1.
  rewrite fetchCheckpoint_run.
  change (checkpointSeen env (started st)) with (checkpointSeen env st).
  rewrite length_eqb_0.
  destruct (newActions (a :: A) (checkpointSeen env st)) as [|b sel] eqn:Esel;
    [congruence|].
  unfold bind at 1. rewrite Hrun.
  unfold bind at 1. unfold setLocals at 1.
  destruct (generateRemote env (statsOf l) (with_locals st2 (statsOf l)))
    as [[u|e] st3]; cbn [fst snd].
  - reflexivity.
  - destruct (fallbackLocal env e st3) as [[u|e'] st4]; reflexivity.
Qed.


Lemma checkpointSeen_inv (env : Env) (st : State) (T : jsstring) :
  checkpointSeen env st = Some T ->
  user env = true /\ rejects env (calls st) = false
  /\ exists d, doc st = Some d /\ mostRecentInsightsTimestamp d = Some T.
Proof.
  unfold checkpointSeen.
  destruct (user env); [|discriminate].
  destruct (rejects env (calls st)); [discriminate|].
  destruct (doc st) as [d|]; [|discriminate].
  unfold or_str. destruct (truthy (mostRecentInsightsTimestamp d)); [|discriminate].
  eauto.
Qed.

Lemma storedTextFor_exact (m : gmap jsstring jsstring) (T s : jsstring) :
  m !! T = Some s -> s <> [] -> storedTextFor m T = Some s.
Proof.
  intros H Hs. unfold storedTextFor. rewrite H.
  destruct s; [congruence | reflexivity].
Qed.

Lemma storedTextFor_latest (m : gmap jsstring jsstring) (T k s : jsstring) :
  truthy (m !! T) = false -> greatestKey m k -> m !! k = Some s ->
  storedTextFor m T = Some s.
Proof.
  intros Hf Hk Hs. unfold storedTextFor. rewrite Hf.
  pose proof (adviceTimestamps_head m) as Hh.
  destruct (adviceTimestamps m) as [|latest rest].
  - rewrite Hh in Hs. discriminate.
  - rewrite (greatestKey_unique m latest k Hh Hk). exact Hs.
Qed.

(** C2 as the code has it. With an empty action list the handler sets the
    "No user actions available" error and does nothing else, whether or not a
    checkpoint is stored. With a non-empty list, a checkpoint and nothing
    newer, it generates nothing (no clock reading, no write): it sets the
    "No new actions since your last insights" message and, when the second
    read of the document succeeds, shows the stored text under the checkpoint
    key if that is a non-empty string, otherwise the text under the greatest
    key of the mapping, in both cases provided the text parses. The two
    messages differ. *)
Theorem no_new_actions_outcomes (env : Env) (A : list Action) (st : State) :
  (A = [] ->
   handleGetAdvice env A st = (Normal tt, with_error st (Some msgNoActions)))
  /\ (forall T : jsstring,
        A <> [] -> checkpointSeen env st = Some T -> newActions A (Some T) = [] ->
        let st' := snd (handleGetAdvice env A st) in
        error st' = Some msgNoNewActions /\ loading st' = false
        /\ doc st' = doc st /\ ticks st' = ticks st
        /\ (forall d : UserDoc,
              rejects env (S (calls st)) = false -> doc st = Some d ->
              (forall s v, adviceMap d !! T = Some s -> s <> [] ->
                           JSON_parse s = Some v -> advice st' = v)
              /\ (forall k s v, truthy (adviceMap d !! T) = false ->
                                greatestKey (adviceMap d) k ->
                                adviceMap d !! k = Some s ->
                                JSON_parse s = Some v -> advice st' = v)))
  /\ msgNoActions <> msgNoNewActions.
Proof.
  split; [|split].
  - intros ->. reflexivity.
  - intros T HA Hcp Hsel st'. subst st'.
    rewrite (handleGetAdvice_nothing_new env A st T HA Hcp Hsel).
    cbn [snd error loading doc ticks advice with_loading with_error].
    destruct (showPreviousAdvice_frame env T (afterFetch env (started st)))
      as (Hd & Ht & _).
    split; [reflexivity|]. split; [reflexivity|].
    split; [rewrite Hd, doc_afterFetch; reflexivity|].
    destruct (checkpointSeen_inv env st T Hcp) as (Hu & _ & _).
    assert (Haf : afterFetch env (started st) = called (started st) (doc st)).
    { unfold afterFetch. rewrite Hu. reflexivity. }
    split; [rewrite Ht, Haf; reflexivity|].
    intros d Hrej Hdoc. rewrite showPreviousAdvice_run, Haf.
    cbn [snd calls called started with_locals with_error with_advice
         with_loading doc].
    rewrite Hrej, Hdoc.
    split.
    + intros s v Hs Hne Hp.
      rewrite (storedTextFor_exact _ _ _ Hs Hne), Hp. reflexivity.
    + intros k s v Hf Hk Hs Hp.
      rewrite (storedTextFor_latest _ _ _ _ Hf Hk Hs), Hp. reflexivity.
  - discriminate.
Qed.

Lemma show_and_save_run (env : Env) (v : json) (st : State) :
  exists st' : State,
    (setAdvice v ;;; saveInsightsToFirestore env v) st = (Normal tt, st')
    /\ advice st' = v /\ error st' = error st.
Proof.
  destruct (show_and_save env v st) as (st' & H & Ha & He & _). eauto.
Qed.

Lemma persisted_frame (st0 st st' st1 : State) (ts blob : jsstring) :
  doc st = doc st0 -> doc st1 = doc st' ->
  persisted st st' ts blob -> persisted st0 st1 ts blob.
Proof.
  intros E0 E1 (d & d' & H1 & H2 & H). exists d, d'.
  rewrite E1, <- E0. auto.
Qed.

(** When somebody is signed in, the document exists and the store accepts
    the read and the write, showing and saving does write. *)
Lemma show_and_save_writes (env : Env) (v : json) (st : State) (d : UserDoc) :
  user env = true -> doc st = Some d ->
  rejects env (calls st) = false -> rejects env (S (calls st)) = false ->
  persisted st (snd ((setAdvice v ;;; saveInsightsToFirestore env v) st))
            (clock env (ticks st)) (JSON_stringify v).
Proof.
  intros Hu Hd H1 H2. unfold bind at 1. unfold setAdvice.
  eapply persisted_same_doc;
    [|exact (saveInsights_writes env v (with_advice st v) d Hu Hd H1 H2)].
  reflexivity.
Qed.

Lemma fallbackLocal_writes (env : Env) (message : jsstring) (st : State)
    (d : UserDoc) (r : AdviceRecord) :
  localAdviceOf (locals st) = Normal r ->
  user env = true -> doc st = Some d ->
  rejects env (calls st) = false -> rejects env (S (calls st)) = false ->
  persisted st (snd (fallbackLocal env message st))
            (clock env (ticks st)) (JSON_stringify (advice_value r)).
Proof.
  intros Hr Hu Hd H1 H2.
  pose proof (saveInsights_writes env (advice_value r)
                (with_advice st (advice_value r)) d Hu Hd H1 H2) as Hw.
  unfold fallbackLocal. unfold bind at 1, getLocals.
  unfold try_catch. unfold bind at 1. unfold liftC. rewrite Hr.
  change (setAdvice (advice_value r);;;
          saveInsightsToFirestore env (advice_value r);;; setError None)
    with (bind (setAdvice (advice_value r))
            (fun _ => bind (saveInsightsToFirestore env (advice_value r))
                        (fun _ => setError None))).
  unfold bind at 1. unfold setAdvice.
  unfold bind at 1.
  destruct (saveInsights_spec env (advice_value r)
              (with_advice st (advice_value r)))
    as (st' & E & _).
  rewrite E in Hw |- *. cbn [snd] in Hw. unfold setError. cbn [snd].
  eapply persisted_frame; [| |exact Hw]; reflexivity.
Qed.

(** C3 as the code has it. Once the handler has new actions and
    credentials, a rejected request, a response that is not 2xx, and a
    response body that is not JSON all end with the advice of the local
    generator shown and the error cleared. A 2xx response whose candidate
    text is a string ends with [adviceFromText] of that text shown: the parsed
    value when the text (its fenced part, trimmed) is JSON, and otherwise, with
    no local fallback, the object holding the raw text as [message] and its
    first five non-blank lines as [insights].  In both cases what is shown is
    what is stored: the document is left as it was or one write put the text
    of the shown advice under a new key and pointed the checkpoint at it;
    and the write does happen when somebody is signed in, the document exists
    and the store accepts the read and the write that [saveInsightsToFirestore]
    makes. *)
Theorem remote_failure_outcomes (env : Env) (A : list Action) (st : State) :
  newActions A (checkpointSeen env st) <> [] ->
  truthy (apiKey env) = true ->
  exists (l : list FAction) (st2 : State),
    formatActions env (newActions A (checkpointSeen env st))
                  (afterFetch env (started st)) = (Normal l, st2)
    /\ let st' := snd (handleGetAdvice env A st) in
       (match fetch env with
        | FetchRejected _ => True
        | FetchResponse r => ok r = false \/ JSON_parse (body r) = None
        end ->
        exists rec : AdviceRecord,
          localAdviceOf (statsOf l) = Normal rec
          /\ advice st' = advice_value rec /\ error st' = None
          /\ loading st' = false
          /\ storedWhatIsShown st st'
          /\ (forall d : UserDoc,
                user env = true -> doc st = Some d ->
                rejects env (S (calls st)) = false ->
                rejects env (S (S (calls st))) = false ->
                persisted st st' (clock env (ticks st2))
                          (JSON_stringify (advice_value rec))))
       /\ (forall (r : Response) (data : json) (text : jsstring),
             fetch env = FetchResponse r -> ok r = true ->
             JSON_parse (body r) = Some data ->
             responseTextOf data = Normal (JStr text) ->
             advice st' = adviceFromText text /\ error st' = None
             /\ loading st' = false
             /\ (JSON_parse (trim (jsonTextOf text)) = None ->
                 advice st' = rawAdvice text)
             /\ storedWhatIsShown st st'
             /\ (forall d : UserDoc,
                   user env = true -> doc st = Some d ->
                   rejects env (S (calls st)) = false ->
                   rejects env (S (S (calls st))) = false ->
                   persisted st st' (clock env (ticks st2))
                             (JSON_stringify (adviceFromText text)))).
Proof.
  intros Hsel Hkey.
  destruct (handleGetAdvice_generates env A st Hsel) as (l & st2 & Hrun & Hh).
  exists l, st2. split; [exact Hrun|]. intros st'. subst st'. rewrite Hh.
  cbn [snd advice error loading with_loading].
  destruct (formatActions_run env (newActions A (checkpointSeen env st))
              (afterFetch env (started st)))
    as (l' & st2' & Hrun' & _ & Hdoc2 & Hcalls2 & _ & Herr & _).
  rewrite Hrun in Hrun'. injection Hrun' as <- <-.
  assert (Herr0 : error (with_locals st2 (statsOf l)) = None).
  { cbn [error with_locals]. rewrite Herr. unfold afterFetch.
    destruct (user env); reflexivity. }
  assert (Hdoc0 : doc (with_locals st2 (statsOf l)) = doc st).
  { cbn [doc with_locals]. rewrite Hdoc2, doc_afterFetch. reflexivity. }
  assert (Hcalls0 : user env = true ->
                    calls (with_locals st2 (statsOf l)) = S (calls st)).
  { intros Hu. cbn [calls with_locals]. rewrite Hcalls2. unfold afterFetch.
    rewrite Hu. reflexivity. }
  split.
  - intros Hfail.
    assert (Hthrow : exists e, generateRemote env (statsOf l)
                                 (with_locals st2 (statsOf l))
                               = (Throw e, with_locals st2 (statsOf l))).
    { unfold generateRemote. rewrite Hkey. cbn [negb].
      destruct (fetch env) as [m | r]; [eauto|].
      destruct Hfail as [Hok | Hbody].
      - rewrite Hok. cbn [negb]. eauto.
      - destruct (ok r); cbn [negb]; [|eauto]. rewrite Hbody. eauto. }
    destruct Hthrow as (e & He). unfold try_catch. rewrite He.
    destruct (fallbackLocal_spec env e (with_locals st2 (statsOf l)))
      as (rec & st' & Hfb & Hrec & Ha & Hn & _ & _ & Hst).
    rewrite Hfb. exists rec. cbn [snd locals with_locals] in *.
    split; [exact Hrec|]. split; [exact Ha|]. split; [exact Hn|].
    split; [reflexivity|]. split.
    + eapply storedWhatIsShown_frame; [exact Hdoc0 | | | exact Hst];
        reflexivity.
    + intros d Hu Hd H1 H2.
      pose proof (fallbackLocal_writes env e (with_locals st2 (statsOf l)) d rec
                    Hrec Hu) as Hw.
      rewrite Hdoc0, (Hcalls0 Hu), Hfb in Hw. cbn [snd ticks with_locals] in Hw.
      eapply persisted_frame; [exact Hdoc0 | | exact (Hw Hd H1 H2)].
      reflexivity.
  - intros r data text Hf Hok Hbody Htext.
    assert (Hgen : try_catch (generateRemote env (statsOf l)) (fallbackLocal env)
                             (with_locals st2 (statsOf l))
                   = (setAdvice (adviceFromText text) ;;;
                      saveInsightsToFirestore env (adviceFromText text))
                       (with_locals st2 (statsOf l))).
    { destruct (show_and_save env (adviceFromText text)
                  (with_locals st2 (statsOf l))) as (st' & Hs & _).
      unfold try_catch, generateRemote. rewrite Hkey, Hf, Hok, Hbody.
      cbn [negb]. unfold bind at 1, liftC. rewrite Htext, Hs. reflexivity. }
    rewrite Hgen.
    pose proof (show_and_save_writes env (adviceFromText text)
                  (with_locals st2 (statsOf l))) as Hw.
    destruct (show_and_save env (adviceFromText text)
                (with_locals st2 (statsOf l)))
      as (st' & Hs & Ha & He & _ & _ & Hst).
    rewrite Hs in Hw |- *. cbn [snd] in Hw |- *. rewrite Ha, He.
    split; [reflexivity|]. split; [exact Herr0|]. split; [reflexivity|].
    split.
    { intros Hp. unfold adviceFromText. rewrite Hp. reflexivity. }
    split.
    + eapply storedWhatIsShown_frame; [exact Hdoc0 | | | exact Hst];
        reflexivity.
    + intros d Hu Hd H1 H2.
      specialize (Hw d Hu). rewrite Hdoc0, (Hcalls0 Hu) in Hw.
      cbn [ticks with_locals] in Hw.
      eapply persisted_frame; [exact Hdoc0 | | exact (Hw Hd H1 H2)].
      reflexivity.
Qed.


#[local] Set Default Proof Using "Type".
(** * Further properties of the component *)

Lemma handleGetAdvice_stores_what_it_shows (env : Env) (A : list Action)
    (st : State) :
  storedWhatIsShown st (snd (handleGetAdvice env A st)).
Proof.
  revert A st. intros A st.
  destruct (newActions A (checkpointSeen env st)) as [|b sel] eqn:Esel.
  - (* nothing to report on *)
    left. destruct A as [|a A]; [reflexivity|].
    destruct (checkpointSeen env st) as [T|] eqn:Ecp.
    + rewrite (handleGetAdvice_nothing_new env (a :: A) st T)
        by (try discriminate; assumption).
      cbn [snd doc with_loading with_error].
      destruct (showPreviousAdvice_frame env T (afterFetch env (started st)))
        as (Hd & _).
      rewrite Hd, doc_afterFetch. reflexivity.
    + discriminate Esel.
  - destruct (handleGetAdvice_generates env A st) as (l & st2 & Hrun & ->);
      [rewrite Esel; discriminate|].
    cbn [snd].
    destruct (formatActions_run env (newActions A (checkpointSeen env st))
                (afterFetch env (started st)))
      as (l' & st2' & Hrun' & _ & Hdoc & _).
    rewrite Esel in Hrun, Hrun'. rewrite Hrun in Hrun'.
    injection Hrun' as <- <-.
    assert (Hd0 : doc (with_locals st2 (statsOf l)) = doc st).
    { cbn [doc with_locals]. rewrite Hdoc, doc_afterFetch. reflexivity. }
    unfold try_catch.
    destruct (generateRemote_spec env (statsOf l) (with_locals st2 (statsOf l)))
      as [(st' & -> & _ & _ & _ & Hs) | (e & ->)].
    + eapply storedWhatIsShown_frame; [exact Hd0 | | | exact Hs]; reflexivity.
    + destruct (fallbackLocal_spec env e (with_locals st2 (statsOf l)))
        as (r & st' & -> & _ & _ & _ & _ & _ & Hs).
      eapply storedWhatIsShown_frame; [exact Hd0 | | | exact Hs]; reflexivity.
Qed.

(** ** Saving *)

(** X1. [saveInsightsToFirestore] is best effort: it never throws and never
    touches the component state, and when nobody is signed in, the document
    does not exist, or either Firestore call rejects, the stored document is
    left exactly as it was. *)
Theorem saveInsights_is_best_effort (env : Env) (adviceData : json) (st : State) :
  let out := saveInsightsToFirestore env adviceData st in
  fst out = Normal tt
  /\ advice (snd out) = advice st /\ error (snd out) = error st
  /\ loading (snd out) = loading st
  /\ (user env = false \/ doc st = None \/ rejects env (calls st) = true
      \/ rejects env (S (calls st)) = true ->
      doc (snd out) = doc st).
Proof.
  intros out. subst out.
  destruct (saveInsights_spec env adviceData st)
    as (st' & Hrun & Ha & He & Hl & _ & _).
  rewrite Hrun. cbn [fst snd]. repeat split; auto.
  clear Ha He Hl. intros Hno.
  unfold saveInsightsToFirestore in Hrun.
  destruct (user env); cbn [negb] in Hrun.
  2:{ unfold ret in Hrun. congruence. }
  unfold try_catch, bind, getDoc in Hrun.
  destruct (rejects env (calls st)) eqn:E1.
  { unfold ret in Hrun. injection Hrun as <-. reflexivity. }
  cbn [called doc] in Hrun.
  destruct (doc st) as [d|] eqn:Ed.
  2:{ unfold ret in Hrun. injection Hrun as <-. cbn. auto. }
  unfold now, updateDoc in Hrun. cbn [ticked called calls doc ticks] in Hrun.
  destruct (rejects env (S (calls st))) eqn:E2.
  { unfold ret in Hrun. injection Hrun as <-. cbn. auto. }
  destruct Hno as [H | [H | [H | H]]]; discriminate.
Qed.

Lemma handleGetAdvice_total (env : Env) (A : list Action) (st : State) :
  exists st' : State,
    handleGetAdvice env A st = (Normal tt, st')
    /\ (A <> [] -> loading st' = false)
    /\ (error st' = None \/ error st' = Some msgNoActions
        \/ error st' = Some msgNoNewActions)
    /\ (A <> [] -> error st' <> Some msgNoActions)
    /\ (A = [] -> error st' = Some msgNoActions).
Proof.
  destruct A as [|a A].
  { eexists. split; [reflexivity|]. cbn [error with_error].
    split; [congruence|]. split; [auto|]. split; [congruence|]. reflexivity. }
  destruct (newActions (a :: A) (checkpointSeen env st)) as [|b sel] eqn:Esel.
  - destruct (checkpointSeen env st) as [T|] eqn:Ecp; [|discriminate Esel].
    rewrite (handleGetAdvice_nothing_new env (a :: A) st T)
      by (try discriminate; assumption).
    eexists. split; [reflexivity|]. cbn [loading error with_loading with_error].
    split; [reflexivity|]. split; [auto|].
    split; [intros _; discriminate | discriminate].
  - destruct (handleGetAdvice_generates env (a :: A) st) as (l & st2 & Hrun & ->);
      [rewrite Esel; discriminate|].
    destruct (formatActions_run env (newActions (a :: A) (checkpointSeen env st))
                (afterFetch env (started st)))
      as (l' & st2' & Hrun' & _ & _ & _ & _ & Herr & _).
    rewrite Hrun in Hrun'. injection Hrun' as <- <-.
    assert (Herr0 : error (with_locals st2 (statsOf l)) = None).
    { cbn [error with_locals]. rewrite Herr. unfold afterFetch.
      destruct (user env); reflexivity. }
    unfold try_catch.
    destruct (generateRemote_spec env (statsOf l) (with_locals st2 (statsOf l)))
      as [(st' & -> & He & _) | (e & ->)].
    + cbv beta iota. cbn [fst snd].
      eexists. split; [reflexivity|]. cbn [loading error with_loading].
      rewrite He, Herr0. split; [reflexivity|]. split; [auto|].
      split; discriminate.
    + cbv beta iota.
      destruct (fallbackLocal_spec env e (with_locals st2 (statsOf l)))
        as (r & st' & -> & _ & _ & He & _).
      cbn [fst snd].
      eexists. split; [reflexivity|]. cbn [loading error with_loading].
      rewrite He. split; [reflexivity|]. split; [auto|]. split; discriminate.
Qed.


(** X3. The advice history is append-only: whatever a run of the handler
    does, a document that existed before still exists, every text stored in
    its advice mapping is still there under its key unless that key is the
    new checkpoint, and the recorded actions and their timestamps are
    untouched. *)
Theorem advice_history_is_append_only (env : Env) (A : list Action) (st : State)
    (d : UserDoc) :
  doc st = Some d ->
  exists d' : UserDoc,
    doc (snd (handleGetAdvice env A st)) = Some d'
    /\ (forall k v, adviceMap d !! k = Some v ->
                    adviceMap d' !! k = Some v
                    \/ mostRecentInsightsTimestamp d' = Some k)
    /\ actions d' = actions d
    /\ actionTimestamps d' = actionTimestamps d.
Proof.
  intros Hd.
  destruct (handleGetAdvice_stores_what_it_shows env A st)
    as [Hsame | (ts & d0 & d' & H0 & H1 & Hp & _ & Hother & Hact & Hts)].
  - exists d. rewrite Hsame. auto.
  - rewrite Hd in H0. injection H0 as <-.
    exists d'. split; [exact H1|]. split; [|auto].
    intros k v Hk. destruct (decide (k = ts)) as [-> | Hne].
    + right. exact Hp.
    + left. rewrite (Hother k Hne). exact Hk.
Qed.

(** ** Selection *)

(** X4. A stored checkpoint that [Date.parse] cannot read (an invalid date)
    makes every comparison false: no action is ever selected as new. *)
Theorem unparseable_checkpoint_selects_nothing (A : list Action) (c : N)
    (s : jsstring) :
  Date_parse (c :: s) = None -> newActions A (Some (c :: s)) = [].
Proof.
  intros Hp. unfold newActions. cbn [truthy].
  induction A as [|a A IH]; [reflexivity|]. cbn [List.filter].
  rewrite IH. unfold isNewAction. rewrite Hp.
  destruct (truthy (or_str (ua_timestamp a) (ua_date a))); cbn [negb];
    [|reflexivity].
  destruct (or_str (ua_timestamp a) (ua_date a)) as [ts|]; [|reflexivity].
  unfold date_gt. destruct (Date_parse ts); reflexivity.
Qed.

Lemma filter_filter_implied {X : Type} (f g : X -> bool) (l : list X) :
  (forall x, g x = true -> f x = true) ->
  List.filter g (List.filter f l) = List.filter g l.
Proof.
  intros Himp. induction l as [|x l IH]; [reflexivity|]. cbn [List.filter].
  destruct (f x) eqn:Ef.
  - cbn [List.filter]. rewrite IH. reflexivity.
  - rewrite IH. destruct (g x) eqn:Eg; [|reflexivity].
    rewrite (Himp x Eg) in Ef. discriminate.
Qed.

(** X5. Moving the checkpoint forward only narrows the selection: for two
    checkpoints that parse, the earlier first, what the later one selects
    from the whole list is what it selects from the earlier selection, so no
    action dropped by an earlier checkpoint comes back under a later one. *)
Theorem later_checkpoint_narrows_selection (A : list Action)
    (c1 : N) (s1 : jsstring) (c2 : N) (s2 : jsstring) (t1 t2 : Z) :
  Date_parse (c1 :: s1) = Some t1 ->
  Date_parse (c2 :: s2) = Some t2 ->
  (t1 <= t2)%Z ->
  newActions (newActions A (Some (c1 :: s1))) (Some (c2 :: s2))
  = newActions A (Some (c2 :: s2)).
Proof.
  intros H1 H2 Hle. unfold newActions. cbn [truthy].
  apply filter_filter_implied. intros a.
  rewrite H1, H2. unfold isNewAction.
  destruct (truthy (or_str (ua_timestamp a) (ua_date a))); cbn [negb]; auto.
  destruct (or_str (ua_timestamp a) (ua_date a)) as [ts|]; auto.
  unfold date_gt. destruct (Date_parse ts) as [t|]; auto.
  rewrite !Z.ltb_lt. lia.
Qed.

(** ** Statistics *)

(** X6. The map over the new actions yields one formatted action per input,
    never throws, and reads the clock exactly once for each action that has
    neither a [timestamp] nor a [date], and not at all for the others. *)
Theorem formatActions_reads_clock_per_untimed (env : Env) (A : list Action)
    (st : State) :
  exists (l : list FAction) (st' : State),
    formatActions env A st = (Normal l, st')
    /\ Forall2 formats A l
    /\ ticks st' = (ticks st + length (List.filter readsClock A))%nat
    /\ doc st' = doc st /\ calls st' = calls st.
Proof.
  revert st. induction A as [|a A IH]; intros st.
  - exists [], st. cbn. unfold ret. repeat split; auto.
  - cbn [formatActions]. unfold bind at 1.
    assert (Ht : exists ts st1, timestampOf env a st = (Normal ts, st1)
                 /\ ticks st1 = (ticks st + (if readsClock a then 1 else 0))%nat
                 /\ doc st1 = doc st /\ calls st1 = calls st).
    { unfold timestampOf, readsClock.
      destruct (or_str (ua_timestamp a) (ua_date a)) as [[|c s]|];
        cbn [truthy negb]; unfold now, ret; eexists _, _;
        (split; [reflexivity|]); cbn [ticks ticked doc calls];
        (split; [lia|]); split; reflexivity. }
    destruct Ht as (ts & st1 & -> & Ht1 & Hd1 & Hc1).
    unfold bind at 1.
    destruct (IH st1) as (l & st2 & -> & HF & Ht2 & Hd2 & Hc2).
    exists (formatAction ts a :: l), st2. unfold ret.
    split; [reflexivity|].
    split; [constructor; [exists ts; reflexivity | exact HF]|].
    split.
    + cbn [List.filter]. rewrite Ht2, Ht1.
      destruct (readsClock a); cbn [length]; lia.
    + split; [rewrite Hd2; exact Hd1 | rewrite Hc2; exact Hc1].
Qed.

Lemma generation_keeps_locals (env : Env) (l : Locals) (st : State) :
  locals (snd (try_catch (generateRemote env l) (fallbackLocal env) st))
  = locals st.
Proof.
  unfold try_catch.
  destruct (generateRemote_spec env l st) as [(st' & -> & _ & _ & Hl & _) | (e & ->)].
  - exact Hl.
  - destruct (fallbackLocal_spec env e st) as (r & st' & -> & _ & _ & _ & _ & Hl & _).
    exact Hl.
Qed.

Lemma statistics_of_selected (env : Env) (A : list Action)
    (st : State) :
  newActions A (checkpointSeen env st) <> [] ->
  exists l : list FAction,
    Forall2 formats (newActions A (checkpointSeen env st)) l
    /\ locals (snd (handleGetAdvice env A st)) = statsOf l
    /\ (checkpointSeen env st = None -> Forall2 formats A l).
Proof.
  intros Hsel.
  destruct (handleGetAdvice_generates env A st Hsel) as (l & st2 & Hrun & ->).
  destruct (formatActions_run env (newActions A (checkpointSeen env st))
              (afterFetch env (started st))) as (l' & st2' & Hrun' & HF & _).
  rewrite Hrun in Hrun'. injection Hrun' as <- <-.
  exists l. split; [exact HF|]. split.
  - cbn [snd locals with_loading]. rewrite generation_keeps_locals. reflexivity.
  - intros Hcp. rewrite Hcp in HF. exact HF.
Qed.


(** X7. Whenever the handler finds new actions, the statistics it leaves in
    its locals are those of exactly the selected actions, one formatted
    action for each, in order; in particular, when no checkpoint is seen
    (nobody signed in, the first read rejected, no document, or no stored
    pointer) they cover the whole action list. *)
Theorem statistics_cover_selected_actions (env : Env) (A : list Action)
    (st : State) :
  newActions A (checkpointSeen env st) <> [] ->
  exists l : list FAction,
    Forall2 formats (newActions A (checkpointSeen env st)) l
    /\ locals (snd (handleGetAdvice env A st)) = statsOf l
    /\ (checkpointSeen env st = None -> Forall2 formats A l).
Proof. exact (statistics_of_selected env A st). Qed.

Lemma checkpointSeen_none (env : Env) (st : State) :
  user env = false \/ rejects env (calls st) = true \/ doc st = None
  \/ (exists d, doc st = Some d /\ truthy (mostRecentInsightsTimestamp d) = false) ->
  checkpointSeen env st = None.
Proof.
  unfold checkpointSeen. intros [H | [H | [H | (d & H & Hf)]]].
  - rewrite H. reflexivity.
  - rewrite H. destruct (user env); reflexivity.
  - rewrite H. destruct (user env), (rejects env (calls st)); reflexivity.
  - rewrite H. destruct (user env), (rejects env (calls st)); try reflexivity.
    unfold or_str. rewrite Hf. reflexivity.
Qed.

(** X8. A failed first read of the store is not an error: when the first
    [getDoc] rejects, and likewise when nobody is signed in or the document
    or its pointer is missing, a non-empty action list is treated as a first
    run, every action counts as new, and the run ends without an error
    message. *)
Theorem failed_checkpoint_read_degrades_to_first_run (env : Env)
    (A : list Action) (st : State) :
  A <> [] ->
  user env = false \/ rejects env (calls st) = true \/ doc st = None
  \/ (exists d, doc st = Some d /\ truthy (mostRecentInsightsTimestamp d) = false) ->
  let st' := snd (handleGetAdvice env A st) in
  (exists l : list FAction, Forall2 formats A l /\ locals st' = statsOf l)
  /\ error st' = None /\ loading st' = false.
Proof.
  intros HA Hno st'. subst st'.
  pose proof (checkpointSeen_none env st Hno) as Hcp.
  assert (Hsel : newActions A (checkpointSeen env st) <> []).
  { rewrite Hcp. exact HA. }
  destruct (statistics_of_selected env A st Hsel) as (l & _ & Hl & Hall).
  split; [exists l; auto|].
  destruct (handleGetAdvice_total env A st) as (st' & Hrun & Hload & He & Hne & _).
  rewrite Hrun. cbn [snd]. split; [|auto].
  destruct He as [He | [He | He]]; auto.
  - exfalso. exact (Hne HA He).
  - exfalso.
    destruct (handleGetAdvice_generates env A st Hsel) as (l' & st2 & Hr & Hh).
    rewrite Hh in Hrun. injection Hrun as _ <-.
    destruct (formatActions_run env (newActions A (checkpointSeen env st))
                (afterFetch env (started st)))
      as (l'' & st2' & Hrun' & _ & _ & _ & _ & Herr & _).
    rewrite Hr in Hrun'. injection Hrun' as <- <-.
    assert (Herr0 : error (with_locals st2 (statsOf l')) = None).
    { cbn [error with_locals]. rewrite Herr. unfold afterFetch.
      destruct (user env); reflexivity. }
    cbn [error with_loading] in He. unfold try_catch in He.
    destruct (generateRemote_spec env (statsOf l') (with_locals st2 (statsOf l')))
      as [(st' & Hg & He' & _) | (e & Hg)]; rewrite Hg in He.
    + cbn [snd] in He. rewrite He', Herr0 in He. discriminate.
    + destruct (fallbackLocal_spec env e (with_locals st2 (statsOf l')))
        as (r & st' & Hf & _ & _ & He' & _).
      rewrite Hf in He. cbn [snd] in He. rewrite He' in He. discriminate.
Qed.

(** X9. Without credentials the service is not consulted: the handler shows
    the record of the local generator for the statistics of the new actions,
    clears the error, and stores (if it stores at all) that very record. *)
Theorem missing_credentials_use_local_generator (env : Env) (A : list Action)
    (st : State) :
  newActions A (checkpointSeen env st) <> [] ->
  truthy (apiKey env) = false ->
  let st' := snd (handleGetAdvice env A st) in
  exists (l : list FAction) (rec : AdviceRecord),
    Forall2 formats (newActions A (checkpointSeen env st)) l
    /\ localAdviceOf (statsOf l) = Normal rec
    /\ advice st' = advice_value rec
    /\ error st' = None /\ loading st' = false
    /\ storedWhatIsShown st st'.
Proof.
  intros Hsel Hkey st'. subst st'.
  destruct (handleGetAdvice_generates env A st Hsel) as (l & st2 & Hrun & Hh).
  destruct (formatActions_run env (newActions A (checkpointSeen env st))
              (afterFetch env (started st)))
    as (l' & st2' & Hrun' & HF & _ & _ & _ & Herr & _).
  rewrite Hrun in Hrun'. injection Hrun' as <- <-.
  destruct (localAdviceOf_total (statsOf l)) as (rec & Hrec).
  exists l, rec. split; [exact HF|]. split; [exact Hrec|].
  assert (Hgen : exists st3,
             try_catch (generateRemote env (statsOf l)) (fallbackLocal env)
                       (with_locals st2 (statsOf l)) = (Normal tt, st3)
             /\ advice st3 = advice_value rec
             /\ error st3 = error (with_locals st2 (statsOf l))).
  { unfold try_catch, generateRemote. rewrite Hkey. cbn [negb].
    unfold bind at 1, liftC. rewrite Hrec.
    destruct (show_and_save_run env (advice_value rec)
                (with_locals st2 (statsOf l))) as (st3 & -> & Ha & He).
    exists st3. auto. }
  destruct Hgen as (st3 & Hg & Ha & He).
  rewrite Hh, Hg. cbn [snd advice error loading with_loading].
  rewrite Ha, He. cbn [error with_locals]. rewrite Herr.
  split; [reflexivity|]. split.
  { unfold afterFetch. destruct (user env); reflexivity. }
  split; [reflexivity|].
  pose proof (handleGetAdvice_stores_what_it_shows env A st) as Hs.
  rewrite Hh, Hg in Hs. exact Hs.
Qed.

(** ** The local generator in detail *)

(** X10. The two [slice(0, 5)] of the local generator never cut anything
    off: the record holds one insight for the average, preceded by two when
    there are high-impact actions, one when there are low-impact actions and
    one when some action is in the Transportation category (five at most),
    and two closing recommendations preceded by one for each of the three
    triggers that fires (five at most).  The average sentence is always the
    last insight and the goal sentence always the last recommendation. *)
Theorem generateLocalAdvice_shape (actions : list FAction) (total avg : float)
    (high low : list FAction) :
  exists r : AdviceRecord,
    generateLocalAdvice actions total avg high low = Normal r
    /\ length (insights r)
       = (2 * count_true (0 <? length high)%nat
          + count_true (0 <? length low)%nat
          + count_true (existsb (hasCategory "Transportation") actions) + 1)%nat
    /\ List.last (insights r) [] = averageInsight avg
    /\ length (recommendations r)
       = (count_true (existsb (hasCategory "Transportation") high)
          + count_true (existsb (hasCategory "Energy") high)
          + count_true (existsb (fun a => hasCategory "Food" a
                                          && (20 <? fa_sustainabilityScore a)%float)
                                actions)
          + 2)%nat
    /\ List.last (recommendations r) [] = goalRecommendation avg
    /\ (length (insights r) <= 5)%nat /\ (length (recommendations r) <= 5)%nat.
Proof.
  assert (Hex : forall (f : FAction -> bool) (l : list FAction),
             (0 <? length (List.filter f l))%nat = existsb f l).
  { intros f l. induction l as [|a l IH]; [reflexivity|]. cbn [List.filter existsb].
    destruct (f a); [reflexivity | exact IH]. }
  unfold generateLocalAdvice. rewrite Hex.
  fold (averageInsight avg). fold (goalRecommendation avg).
  fold keepGoingRecommendation.
  destruct (existsb (hasCategory "Transportation") actions);
  destruct (existsb (hasCategory "Transportation") high);
  destruct (existsb (hasCategory "Energy") high);
  destruct (existsb (fun a => hasCategory "Food" a
                              && (20 <? fa_sustainabilityScore a)%float) actions);
  destruct high as [|top high]; destruct low as [|bottom low];
    cbn [length Nat.ltb Nat.leb nth_error bindC app count_true];
    eexists; (split; [reflexivity|]);
    cbn [insights recommendations firstn app length List.last Nat.add Nat.mul];
    repeat split; try reflexivity; lia.
Qed.

(** ** Code fences *)

Lemma startsWith_app (p q : jsstring) : startsWith p (p ++ q) = true.
Proof. induction p as [|a p IH]; [reflexivity|]. cbn. rewrite N.eqb_refl. exact IH. Qed.

Lemma fence_units : fence = [96; 96; 96].
Proof. reflexivity. Qed.

Lemma opener_units : js "```json" = 96 :: 96 :: 96 :: js "json".
Proof. reflexivity. Qed.

Lemma startsWith_fence_head (c : N) (r : jsstring) :
  c <> 96 -> startsWith fence (c :: r) = false.
Proof.
  intros H. rewrite fence_units. cbn [startsWith].
  rewrite (proj2 (N.eqb_neq 96 c)) by congruence. reflexivity.
Qed.

Lemma startsWith_opener_fence (s : jsstring) :
  startsWith (js "```json") s = true -> startsWith fence s = true.
Proof.
  rewrite opener_units, fence_units.
  destruct s as [|a [|b [|c s]]]; cbn [startsWith]; try discriminate.
  - intros H. apply andb_true_iff in H. destruct H as [_ H]. discriminate.
  - intros H. apply andb_true_iff in H. destruct H as [_ H].
    apply andb_true_iff in H. destruct H as [_ H]. discriminate.
  - intros H. apply andb_true_iff in H. destruct H as [-> H].
    apply andb_true_iff in H. destruct H as [-> H].
    apply andb_true_iff in H. destruct H as [-> H]. reflexivity.
Qed.

Lemma match_fence_no_fence (opener s : jsstring) :
  (forall t, startsWith opener t = true -> startsWith fence t = true) ->
  hasFence s = false -> match_fence opener s = None.
Proof.
  intros Hop. induction s as [|c r IH]; [reflexivity|].
  cbn [hasFence match_fence]. intros H. apply orb_false_iff in H.
  destruct H as [H1 H2].
  destruct (startsWith opener (c :: r)) eqn:E.
  - rewrite (Hop _ E) in H1. discriminate.
  - auto.
Qed.

(** X11. A text without any fence is taken as it is: both patterns fail and
    [JSON.parse] is given the whole (trimmed) text. *)
Theorem unfenced_text_is_parsed_whole (text : jsstring) :
  hasFence text = false ->
  jsonTextOf text = text
  /\ adviceFromText text
     = match JSON_parse (trim text) with
       | Some adviceData => adviceData
       | None => rawAdvice text
       end.
Proof.
  intros H.
  assert (E : jsonTextOf text = text).
  { unfold jsonTextOf.
    rewrite (match_fence_no_fence (js "```json") text startsWith_opener_fence H).
    rewrite (match_fence_no_fence fence text (fun t Ht => Ht) H).
    reflexivity. }
  split; [exact E|]. unfold adviceFromText. rewrite E. reflexivity.
Qed.

Lemma trimStart_spaces (ws rest : jsstring) :
  allSpace ws = true -> trimStart (ws ++ rest) = trimStart rest.
Proof.
  induction ws as [|c ws IH]; [reflexivity|]. cbn [allSpace forallb app trimStart].
  intros H. apply andb_true_iff in H. destruct H as [Hc Hw].
  rewrite Hc. apply IH. exact Hw.
Qed.

Lemma trimStart_nonspace (c : N) (r : jsstring) :
  is_ws c = false -> trimStart (c :: r) = c :: r.
Proof. intros H. cbn [trimStart]. rewrite H. reflexivity. Qed.

Lemma is_ws_backtick : is_ws 96 = false.
Proof. reflexivity. Qed.

Lemma trimStart_fence (rest : jsstring) : trimStart (fence ++ rest) = fence ++ rest.
Proof. reflexivity. Qed.

(** Trimming text that ends with a character other than white space and a
    backtick stops at such a character. *)
Lemma trimStart_reaches_payload (p tail : jsstring) :
  p <> [] -> is_ws (List.last p 0) = false -> noBacktick p = true ->
  exists c r, trimStart (p ++ tail) = c :: r /\ c <> 96.
Proof.
  induction p as [|c p IH]; [congruence|]. intros _ Hlast Hnb.
  cbn [noBacktick forallb] in Hnb. apply andb_true_iff in Hnb.
  destruct Hnb as [Hc Hnb]. apply negb_true_iff, N.eqb_neq in Hc.
  cbn [app trimStart]. destruct (is_ws c) eqn:Ews.
  - destruct p as [|d p'].
    + cbn [List.last] in Hlast. congruence.
    + apply IH; [discriminate | exact Hlast | exact Hnb].
  - eauto.
Qed.

Lemma lazy_capture_payload (p ws2 post : jsstring) :
  (p = [] \/ is_ws (List.last p 0) = false) -> noBacktick p = true ->
  allSpace ws2 = true ->
  lazy_capture (p ++ ws2 ++ fence ++ post) = Some p.
Proof.
  intros Hlast Hnb Hws. induction p as [|c p IH].
  - cbn [app].
    assert (Ht : trimStart (ws2 ++ fence ++ post) = fence ++ post).
    { rewrite trimStart_spaces by exact Hws. reflexivity. }
    destruct (ws2 ++ fence ++ post) as [|x r] eqn:E.
    + destruct ws2; discriminate.
    + cbn [lazy_capture]. rewrite Ht, startsWith_app. reflexivity.
  - destruct Hlast as [Hlast | Hlast]; [discriminate|].
    destruct (trimStart_reaches_payload (c :: p) (ws2 ++ fence ++ post))
      as (x & r & Ht & Hx); [discriminate | exact Hlast | exact Hnb |].
    cbn [app lazy_capture]. cbn [app] in Ht. rewrite Ht.
    rewrite (startsWith_fence_head x r Hx).
    cbn [noBacktick forallb] in Hnb. apply andb_true_iff in Hnb.
    rewrite IH; [reflexivity | | exact (proj2 Hnb)].
    destruct p as [|d p']; [left; reflexivity | right; exact Hlast].
Qed.

Lemma match_fence_skips_prefix (opener pre rest : jsstring) (c : N)
    (opener' : jsstring) :
  opener = 96 :: opener' -> noBacktick pre = true ->
  match_fence opener (pre ++ rest) = match_fence opener rest.
Proof.
  intros -> Hnb. induction pre as [|x pre IH]; [reflexivity|].
  cbn [noBacktick forallb] in Hnb. apply andb_true_iff in Hnb.
  destruct Hnb as [Hx Hnb]. apply negb_true_iff in Hx.
  cbn [app match_fence startsWith]. rewrite N.eqb_sym, Hx. cbn [andb].
  apply IH. exact Hnb.
Qed.

Lemma last_cons_default (l : jsstring) :
  forall c d d' : N, List.last (c :: l) d = List.last (c :: l) d'.
Proof.
  induction l as [|x l IH]; intros c d d'; [reflexivity|].
  change (List.last (c :: x :: l) d) with (List.last (x :: l) d).
  change (List.last (c :: x :: l) d') with (List.last (x :: l) d').
  apply IH.
Qed.

Lemma tight_inv (p : jsstring) :
  tight p = true ->
  exists c r, p = c :: r /\ is_ws c = false /\ is_ws (List.last p 0) = false.
Proof.
  destruct p as [|c r]; [discriminate|]. unfold tight. intros H.
  apply andb_true_iff in H. destruct H as [H1 H2].
  apply negb_true_iff in H1. apply negb_true_iff in H2.
  exists c, r. split; [reflexivity|]. split; [exact H1|].
  rewrite (last_cons_default r c 0 c). exact H2.
Qed.

Lemma skipn_length_app (p q : jsstring) : skipn (length p) (p ++ q) = q.
Proof. induction p as [|a p IH]; [reflexivity | exact IH]. Qed.

Lemma match_fence_at_opener (a : N) (o rest : jsstring) (captured : jsstring) :
  lazy_capture (trimStart rest) = Some captured ->
  match_fence (a :: o) ((a :: o) ++ rest) = Some captured.
Proof.
  intros H. change ((a :: o) ++ rest) with (a :: (o ++ rest)).
  cbn [match_fence].
  change (a :: (o ++ rest)) with ((a :: o) ++ rest).
  rewrite startsWith_app, skipn_length_app, H. reflexivity.
Qed.

Lemma rev_last_head (c : N) (r : jsstring) :
  exists t, rev (c :: r) = List.last (c :: r) 0 :: t.
Proof.
  destruct (exists_last (l := c :: r)) as (l' & x & E); [discriminate|].
  rewrite E. rewrite last_last, rev_app_distr. cbn. eauto.
Qed.

Lemma trim_tight (p : jsstring) : tight p = true -> trim p = p.
Proof.
  intros H. destruct (tight_inv p H) as (c & r & -> & Hc & Hl).
  unfold trim. rewrite (trimStart_nonspace c r Hc).
  destruct (rev_last_head c r) as (t & E). rewrite E.
  rewrite (trimStart_nonspace _ t Hl), <- E. apply rev_involutive.
Qed.

Lemma jsonTextOf_fenced (pre ws1 payload ws2 post : jsstring) :
  noBacktick pre = true -> allSpace ws1 = true ->
  tight payload = true -> noBacktick payload = true ->
  allSpace ws2 = true ->
  let text := pre ++ js "```json" ++ ws1 ++ payload ++ ws2 ++ fence ++ post in
  jsonTextOf text = payload /\ trim (jsonTextOf text) = payload.
Proof.
  intros Hpre Hw1 Htight Hnb Hw2 text. subst text.
  assert (E : jsonTextOf (pre ++ js "```json" ++ ws1 ++ payload ++ ws2 ++ fence ++ post)
              = payload).
  { unfold jsonTextOf.
    rewrite (match_fence_skips_prefix (js "```json") pre _ 96
               (96 :: 96 :: js "json") opener_units Hpre).
    rewrite opener_units.
    rewrite (match_fence_at_opener 96 (96 :: 96 :: js "json") _ payload);
      [reflexivity|].
    rewrite trimStart_spaces by exact Hw1.
    destruct (tight_inv payload Htight) as (c & r & Ep & Hc & Hl).
    rewrite Ep at 1. cbn [app]. rewrite (trimStart_nonspace c _ Hc).
    change (c :: r ++ ws2 ++ fence ++ post) with ((c :: r) ++ ws2 ++ fence ++ post).
    rewrite <- Ep. apply lazy_capture_payload; auto. }
  split; [exact E|]. rewrite E. apply trim_tight. exact Htight.
Qed.


(** X12. A payload wrapped in a [```json] fence is recovered exactly: for a
    text made of a prefix, the opening fence, white space, the payload, white
    space, the closing fence and anything after it, where the prefix and the
    payload hold no backtick and the payload begins and ends with a character
    that is not white space, the text handed to [JSON.parse] is the payload
    itself. *)
Theorem fenced_payload_is_extracted (pre ws1 payload ws2 post : jsstring) :
  noBacktick pre = true -> allSpace ws1 = true ->
  tight payload = true -> noBacktick payload = true ->
  allSpace ws2 = true ->
  let text := pre ++ js "```json" ++ ws1 ++ payload ++ ws2 ++ fence ++ post in
  jsonTextOf text = payload /\ trim (jsonTextOf text) = payload.
Proof. exact (jsonTextOf_fenced pre ws1 payload ws2 post). Qed.

Lemma stringify_advice_tight (r : AdviceRecord) :
  tight (JSON_stringify (advice_value r)) = true.
Proof.
  unfold advice_value. cbn [JSON_stringify].
  set (J := join_comma _).
  change ([123] ++ J ++ [125]) with (123 :: (J ++ [125])).
  unfold tight. rewrite app_comm_cons, last_last. reflexivity.
Qed.

(** X13. The happy path end to end: when the service answers with a record
    of the advice shape written as JSON inside a [```json] fence (with no
    backtick in it), possibly after some prose and between white space, the
    advice the handler derives from the text is that record. *)
Theorem fenced_record_is_recovered (r : AdviceRecord)
    (pre ws1 ws2 post : jsstring) :
  noBacktick pre = true -> allSpace ws1 = true -> allSpace ws2 = true ->
  noBacktick (JSON_stringify (advice_value r)) = true ->
  adviceFromText (pre ++ js "```json" ++ ws1 ++ JSON_stringify (advice_value r)
                      ++ ws2 ++ fence ++ post)
  = advice_value r.
Proof.
  intros Hpre Hw1 Hw2 Hnb. unfold adviceFromText.
  rewrite (proj2 (jsonTextOf_fenced pre ws1 _ ws2 post Hpre Hw1
                    (stringify_advice_tight r) Hnb Hw2)).
  rewrite JSON_parse_stringify_advice. reflexivity.
Qed.

(** ** The raw-text advice *)

Lemma stringify_raw_shape (text : jsstring) (rest : jsstring) :
  JSON_stringify (rawAdvice text) ++ rest
  = 123 :: QuoteJSONString (js "message") ++ 58
      :: QuoteJSONString text ++ 44
      :: QuoteJSONString (js "insights") ++ 58
      :: (91 :: join_comma (map QuoteJSONString (rawInsights text)) ++ 93
      :: 125 :: rest).
Proof.
  unfold rawAdvice. fold (rawInsights text).
  cbn [JSON_stringify map join_comma fst snd].
  rewrite !map_map. cbn [JSON_stringify].
  rewrite <- !app_assoc. cbn [app]. reflexivity.
Qed.

Lemma parse_value_raw (text : jsstring) (f : nat) (rest : jsstring) :
  (length (rawInsights text) + 5 <= f)%nat ->
  parse_value f (JSON_stringify (rawAdvice text) ++ rest)
  = Some (rawAdvice text, rest).
Proof.
  intros H1. rewrite stringify_raw_shape.
  destruct f as [|f]; [lia|]. destruct f as [|f]; [lia|].
  destruct f as [|f]; [lia|].
  set (k1 := js "message"). set (k2 := js "insights").
  assert (Hskip : forall k t, skip_ws (QuoteJSONString k ++ t)
                              = 34 :: quoteChars k ++ dquote ++ t).
  { intros k t. unfold QuoteJSONString, dquote. rewrite <- !app_assoc.
    reflexivity. }
  change (parse_value (S (S (S f))) (123 :: ?t))
    with (match skip_ws t with
          | d :: r' =>
              if d =? 125 then Some (JObj [], r')
              else match parse_members (S (S f)) t [] with
                   | Some (ps, rest) => Some (JObj ps, rest)
                   | None => None
                   end
          | [] => None
          end).
  rewrite Hskip. change (34 =? 125) with false. cbv iota.
  rewrite (parse_members_step _ k1 _ _ _ []
             (parse_value_string (S f) text _ ltac:(lia))).
  cbn [skip_ws]. change (is_json_ws 44) with false. cbv iota.
  change (44 =? 44) with true. cbv iota.
  rewrite (parse_members_step _ k2 _ _ _ _
             (parse_value_strings_raw (rawInsights text) f _ ltac:(lia))).
  cbn [skip_ws]. change (is_json_ws 125) with false. cbv iota.
  change (125 =? 44) with false. change (125 =? 125) with true. cbv iota.
  reflexivity.
Qed.

Lemma rawInsights_spec (text : jsstring) :
  (length (rawInsights text) <= 5)%nat
  /\ (forall line, In line (rawInsights text) ->
                   In line (split_lines text) /\ trim line <> []).
Proof.
  unfold rawInsights. split; [apply firstn_le_length|].
  intros line Hin.
  assert (Hin' : In line (List.filter (fun line => (0 <? length (trim line))%nat)
                                      (split_lines text))).
  { rewrite <- (firstn_skipn 5). apply in_or_app. left. exact Hin. }
  apply List.filter_In in Hin'. destruct Hin' as [H1 H2]. split; [exact H1|].
  intros E. rewrite E in H2. discriminate.
Qed.

(** X14. The object built from a text that is not JSON always has the
    whole text as [message] and at most five [insights], each a line of the
    text holding more than white space; and it survives storage: parsing its
    [JSON.stringify] text gives the same object back. *)
Theorem raw_advice_shape_and_round_trip (text : jsstring) :
  get_prop (rawAdvice text) (js "message") = Some (JStr text)
  /\ get_prop (rawAdvice text) (js "insights")
     = Some (JArr (map JStr (rawInsights text)))
  /\ (length (rawInsights text) <= 5)%nat
  /\ (forall line, In line (rawInsights text) ->
                   In line (split_lines text) /\ trim line <> [])
  /\ JSON_parse (JSON_stringify (rawAdvice text)) = Some (rawAdvice text).
Proof.
  split; [reflexivity|]. split; [reflexivity|].
  destruct (rawInsights_spec text) as [H5 Hlines].
  split; [exact H5|]. split; [exact Hlines|].
  assert (Hlen : (5 <= length (JSON_stringify (rawAdvice text)))%nat).
  { rewrite <- (app_nil_r (JSON_stringify (rawAdvice text))).
    rewrite stringify_raw_shape. unfold QuoteJSONString, dquote.
    repeat (first [rewrite length_app | progress cbn [length]]). lia. }
  unfold JSON_parse.
  rewrite <- (app_nil_r (JSON_stringify (rawAdvice text))) at 2.
  rewrite parse_value_raw by lia. reflexivity.
Qed.

(** ** The service's answer *)

Lemma remote_text_run (env : Env) (A : list Action) (st : State)
    (r : Response) (data : json) (text : jsstring) :
  newActions A (checkpointSeen env st) <> [] ->
  truthy (apiKey env) = true ->
  fetch env = FetchResponse r -> ok r = true ->
  JSON_parse (body r) = Some data ->
  responseTextOf data = Normal (JStr text) ->
  exists st' : State,
    handleGetAdvice env A st = (Normal tt, st')
    /\ advice st' = adviceFromText text /\ error st' = None
    /\ loading st' = false.
Proof.
  intros Hsel Hkey Hf Hok Hbody Htext.
  destruct (handleGetAdvice_generates env A st Hsel) as (l & st2 & Hrun & Hh).
  destruct (formatActions_run env (newActions A (checkpointSeen env st))
              (afterFetch env (started st)))
    as (l' & st2' & Hrun' & _ & _ & _ & _ & Herr & _).
  rewrite Hrun in Hrun'. injection Hrun' as <- <-.
  assert (Herr0 : error (with_locals st2 (statsOf l)) = None).
  { cbn [error with_locals]. rewrite Herr. unfold afterFetch.
    destruct (user env); reflexivity. }
  assert (Hgen : exists st' : State,
             try_catch (generateRemote env (statsOf l)) (fallbackLocal env)
                       (with_locals st2 (statsOf l)) = (Normal tt, st')
             /\ advice st' = adviceFromText text /\ error st' = None).
  { unfold try_catch, generateRemote. rewrite Hkey, Hf, Hok, Hbody.
    cbn [negb]. unfold bind at 1, liftC. rewrite Htext.
    destruct (show_and_save_run env (adviceFromText text)
                (with_locals st2 (statsOf l))) as (st' & -> & Ha & He).
    exists st'. rewrite He. auto. }
  destruct Hgen as (st' & Hg & Ha & He).
  rewrite Hh, Hg. cbn [fst snd]. eexists. split; [reflexivity|].
  cbn [advice error loading with_loading]. auto.
Qed.

(** X15. A 2xx answer whose body is a JSON object without [candidates] is
    not treated as a failure: the candidate text defaults to the empty
    string, which is not JSON, so the handler shows (and stores, if it
    stores) the object with an empty [message] and no [insights], and leaves
    no error. *)
Theorem answer_without_candidates_gives_empty_advice (env : Env)
    (A : list Action) (st : State) (r : Response)
    (props : list (jsstring * json)) :
  newActions A (checkpointSeen env st) <> [] ->
  truthy (apiKey env) = true ->
  fetch env = FetchResponse r -> ok r = true ->
  JSON_parse (body r) = Some (JObj props) ->
  obj_get (js "candidates") props = None ->
  let st' := snd (handleGetAdvice env A st) in
  advice st' = emptyAdvice /\ error st' = None /\ loading st' = false
  /\ storedWhatIsShown st st'.
Proof.
  intros Hsel Hkey Hf Hok Hbody Hc st'. subst st'.
  assert (Ht : responseTextOf (JObj props) = Normal (JStr [])).
  { unfold responseTextOf. cbn [get_prop]. rewrite Hc. reflexivity. }
  destruct (remote_text_run env A st r (JObj props) [] Hsel Hkey Hf Hok Hbody Ht)
    as (st' & Hrun & Ha & He & Hl).
  pose proof (handleGetAdvice_stores_what_it_shows env A st) as Hs.
  rewrite Hrun in Hs |- *. cbn [snd] in Hs |- *.
  split; [|auto]. rewrite Ha. reflexivity.
Qed.

(** ** Two runs in a row *)

Lemma local_run_persists (env : Env) (A : list Action) (st : State) (d : UserDoc) :
  user env = true -> (forall n, rejects env n = false) -> doc st = Some d ->
  truthy (apiKey env) = false ->
  newActions A (checkpointSeen env st) <> [] ->
  exists (rec : AdviceRecord) (ts : jsstring) (st1 : State),
    handleGetAdvice env A st = (Normal tt, st1)
    /\ advice st1 = advice_value rec
    /\ persisted st st1 ts (JSON_stringify (advice_value rec)).
Proof.
  intros Hu Hrej Hd Hkey Hsel.
  destruct (handleGetAdvice_generates env A st Hsel) as (l & st2 & Hrun & Hh).
  destruct (formatActions_run env (newActions A (checkpointSeen env st))
              (afterFetch env (started st)))
    as (l' & st2' & Hrun' & _ & Hdoc & _).
  rewrite Hrun in Hrun'. injection Hrun' as <- <-.
  destruct (localAdviceOf_total (statsOf l)) as (rec & Hrec).
  set (s3 := with_advice (with_locals st2 (statsOf l)) (advice_value rec)).
  assert (Hd3 : doc s3 = Some d).
  { subst s3. cbn [doc with_advice with_locals]. rewrite Hdoc, doc_afterFetch.
    exact Hd. }
  pose proof (saveInsights_writes env (advice_value rec) s3 d Hu Hd3
                (Hrej _) (Hrej _)) as Hp.
  destruct (saveInsights_spec env (advice_value rec) s3)
    as (st3 & Hsave & Ha & _).
  rewrite Hsave in Hp. cbn [snd] in Hp.
  exists rec, (clock env (ticks s3)), (with_loading st3 false).
  split.
  - assert (Hg : try_catch (generateRemote env (statsOf l)) (fallbackLocal env)
                           (with_locals st2 (statsOf l)) = (Normal tt, st3)).
    { unfold try_catch, generateRemote. rewrite Hkey. cbn [negb].
      unfold bind at 1, liftC. rewrite Hrec.
      unfold bind at 1. unfold setAdvice at 1. fold s3. rewrite Hsave.
      reflexivity. }
    rewrite Hh, Hg. reflexivity.
  - split; [exact Ha|].
    destruct Hp as (d0 & d' & H0 & H1 & H). exists d, d'.
    rewrite Hd3 in H0. injection H0 as <-. auto.
Qed.

(** X16. What one run stores the next run shows. After a run that had new
    actions, no credentials, a signed-in user, an existing document and a
    store that answers, a second run (any service, any credentials) over a
    non-empty list with nothing newer than the checkpoint just written shows
    the same advice again, read back from the store, with the "no new
    actions" message, and writes nothing. *)
Theorem stored_advice_is_shown_again (env1 env2 : Env) (A A2 : list Action)
    (st : State) (d : UserDoc) :
  user env1 = true -> (forall n, rejects env1 n = false) -> doc st = Some d ->
  truthy (apiKey env1) = false ->
  newActions A (checkpointSeen env1 st) <> [] ->
  let st1 := snd (handleGetAdvice env1 A st) in
  exists ts : jsstring,
    (exists d1, doc st1 = Some d1 /\ mostRecentInsightsTimestamp d1 = Some ts)
    /\ (ts <> [] -> user env2 = true ->
        rejects env2 (calls st1) = false -> rejects env2 (S (calls st1)) = false ->
        A2 <> [] -> newActions A2 (Some ts) = [] ->
        let st2 := snd (handleGetAdvice env2 A2 st1) in
        advice st2 = advice st1 /\ error st2 = Some msgNoNewActions
        /\ doc st2 = doc st1).
Proof.
  intros Hu Hrej Hd Hkey Hsel st1. subst st1.
  destruct (local_run_persists env1 A st d Hu Hrej Hd Hkey Hsel)
    as (rec & ts & st1 & Hrun & Ha & (d0 & d1 & H0 & H1 & Hp & Hblob & _)).
  rewrite Hrun. cbn [snd]. exists ts. split; [eauto|].
  intros Hne Hu2 Hr1 Hr2 HA2 Hsel2.
  assert (Hcp : checkpointSeen env2 st1 = Some ts).
  { unfold checkpointSeen. rewrite Hu2, Hr1, H1, Hp. unfold or_str.
    destruct ts; [congruence | reflexivity]. }
  rewrite (handleGetAdvice_nothing_new env2 A2 st1 ts HA2 Hcp Hsel2).
  cbn [snd advice error doc with_loading with_error].
  destruct (showPreviousAdvice_frame env2 ts (afterFetch env2 (started st1)))
    as (Hdoc & _).
  split; [|split; [reflexivity | rewrite Hdoc, doc_afterFetch; reflexivity]].
  assert (Haf : afterFetch env2 (started st1) = called (started st1) (doc st1)).
  { unfold afterFetch. rewrite Hu2. reflexivity. }
  rewrite showPreviousAdvice_run, Haf.
  cbn [snd calls called started with_locals with_error with_advice
       with_loading doc].
  rewrite Hr2, H1.
  assert (Hb : JSON_stringify (advice_value rec) <> []).
  { pose proof (stringify_advice_nonempty rec) as Ht.
    destruct (JSON_stringify (advice_value rec)); [discriminate | discriminate]. }
  rewrite (storedTextFor_exact _ _ _ Hblob Hb), JSON_parse_stringify_advice.
  cbn [advice with_advice]. symmetry. exact Ha.
Qed.

(** ** The sorted keys *)

Lemma StronglySorted_rev_flip (l : list jsstring) :
  StronglySorted (fun a b => str_leb a b = true) l ->
  StronglySorted (fun a b => str_leb b a = true) (rev l).
Proof.
  induction 1 as [|y l Hs IH Hall]; [constructor|]. cbn [rev].
  assert (Happ : forall l1 x,
             StronglySorted (fun a b => str_leb b a = true) l1 ->
             Forall (fun a => str_leb x a = true) l1 ->
             StronglySorted (fun a b => str_leb b a = true) (l1 ++ [x])).
  { intros l1 x Hs1. induction Hs1 as [|z l1 Hs1 IH1 Hall1]; intros Hx.
    - repeat constructor.
    - cbn [app]. inversion Hx; subst. constructor; [apply IH1; auto|].
      apply Forall_app. split; [exact Hall1 | repeat constructor; auto]. }
  apply Happ; [exact IH|].
  apply List.Forall_forall. intros z Hz. rewrite List.Forall_forall in Hall.
  apply Hall. apply in_rev. exact Hz.
Qed.

(** X17. [Object.keys(previousAdvice).sort().reverse()] lists exactly the
    keys of the mapping, from the greatest down in code-unit order; so its
    head, the key the handler falls back to, is the greatest key, and the
    list is empty only for an empty mapping. *)
Theorem adviceTimestamps_are_keys_descending (m : gmap jsstring jsstring) :
  (forall k, In k (adviceTimestamps m) <-> is_Some (m !! k))
  /\ StronglySorted (fun a b => str_leb b a = true) (adviceTimestamps m)
  /\ match adviceTimestamps m with
     | latest :: _ => greatestKey m latest
     | [] => forall k, m !! k = None
     end.
Proof using Date_parse toFixed1 Number_toString StringToNumber.
  split; [|split].
  - intros k. unfold adviceTimestamps. rewrite <- in_rev, sort_strings_In.
    apply keys_of_map.
  - unfold adviceTimestamps. apply StronglySorted_rev_flip.
    apply sort_strings_ascending.
  - apply adviceTimestamps_head.
Qed.

(** * Properties of the Dashboard *)

(** ** Categories *)

Lemma startsWith_inv (p s : jsstring) :
  startsWith p s = true -> exists post, s = p ++ post.
Proof.
  revert s. induction p as [|a p IH]; intros s H.
  - exists s. reflexivity.
  - destruct s as [|b s]; [discriminate H|].
    cbn [startsWith] in H. apply andb_true_iff in H. destruct H as [Hab Hp].
    apply N.eqb_eq in Hab. subst b.
    destruct (IH s Hp) as (post & ->). exists post. reflexivity.
Qed.

Lemma includes_intro (pre search post : jsstring) :
  includes (pre ++ search ++ post) search = true.
Proof.
  induction pre as [|c pre IH].
  - cbn [app]. destruct (search ++ post) as [|x r] eqn:E.
    + destruct search; [reflexivity | discriminate E].
    + cbn [includes]. rewrite <- E, startsWith_app. reflexivity.
  - cbn [app includes]. rewrite IH. apply orb_true_r.
Qed.

Lemma includes_inv (s search : jsstring) :
  includes s search = true -> exists pre post, s = pre ++ search ++ post.
Proof.
  induction s as [|c s IH]; intros H.
  - cbn [includes] in H. rewrite orb_false_r in H.
    destruct (startsWith_inv _ _ H) as (post & E).
    exists [], post. exact E.
  - cbn [includes] in H. apply orb_true_iff in H. destruct H as [H | H].
    + destruct (startsWith_inv _ _ H) as (post & E).
      exists [], post. exact E.
    + destruct (IH H) as (pre & post & ->).
      exists (c :: pre), post. reflexivity.
Qed.

Lemma includes_tail (s a b : jsstring) :
  includes s (a ++ b) = true -> includes s b = true.
Proof.
  intros H. destruct (includes_inv _ _ H) as (pre & post & ->).
  rewrite <- app_assoc, (app_assoc pre a (b ++ post)).
  apply includes_intro.
Qed.

Lemma category_names_differ :
  js "Transportation" <> js "Waste" /\ js "Energy" <> js "Waste"
  /\ js "Food" <> js "Waste" /\ js "Environment" <> js "Waste"
  /\ js "General" <> js "Waste".
Proof. vm_compute. repeat split; discriminate. Qed.

(** X18. The category guess tests the transport keywords first, and
    'cycle' is one of them: a name whose lower-case form holds 'recycle' is
    filed under 'Transportation', and 'Waste' is the answer only for a name
    that holds 'waste', 'compost' or 'reusable'. *)
Theorem inferCategory_recycle_is_transportation (h : Host) (actionName : jsstring) :
  let name := toLowerCase h actionName in
  (includes name (js "recycle") = true ->
   inferCategory h actionName = js "Transportation")
  /\ (inferCategory h actionName = js "Waste" ->
      includes name (js "waste") || includes name (js "compost")
      || includes name (js "reusable") = true).
Proof.
  intros name.
  assert (Hcycle : includes name (js "recycle") = true ->
                   includes name (js "cycle") = true).
  { intros H. apply (includes_tail name (js "re") (js "cycle")). exact H. }
  destruct category_names_differ as (D1 & D2 & D3 & D4 & D5).
  unfold inferCategory. fold name.
  destruct (includes name (js "cycle")) eqn:Ec.
  - rewrite !orb_true_r. split; [reflexivity|]. intros H. destruct (D1 H).
  - rewrite orb_false_r. split.
    + intros H. discriminate (Hcycle H).
    + destruct (includes name (js "car") || includes name (js "drive")
                || includes name (js "transport") || includes name (js "flight")
                || includes name (js "bike")); [intros H; destruct (D1 H)|].
      destruct (includes name (js "light") || includes name (js "energy")
                || includes name (js "electric") || includes name (js "ac")
                || includes name (js "heating")); [intros H; destruct (D2 H)|].
      destruct (includes name (js "food") || includes name (js "meal")
                || includes name (js "eat") || includes name (js "produce"));
        [intros H; destruct (D3 H)|].
      destruct (includes name (js "recycle")) eqn:Er.
      { discriminate (Hcycle eq_refl). }
      rewrite orb_false_r.
      destruct (includes name (js "waste") || includes name (js "compost")
                || includes name (js "reusable")); [reflexivity|].
      destruct (includes name (js "tree") || includes name (js "plant")
                || includes name (js "environment"));
        [intros H; destruct (D4 H) | intros H; destruct (D5 H)].
Qed.

(** ** The number in the answer *)

Lemma take_digits_digits (ds post : jsstring) :
  forallb is_digit ds = true -> noLeadingDigit post = true ->
  take_digits (ds ++ post) = (ds, post).
Proof.
  intros Hds Hpost. induction ds as [|d ds IH].
  - cbn [app]. destruct post as [|c r]; [reflexivity|].
    cbn [noLeadingDigit] in Hpost. apply negb_true_iff in Hpost.
    cbn [take_digits]. rewrite Hpost. reflexivity.
  - cbn [forallb] in Hds. apply andb_true_iff in Hds. destruct Hds as [Hd Hds].
    cbn [app take_digits]. rewrite Hd, (IH Hds). reflexivity.
Qed.

Lemma match_digits_nondigit (s : jsstring) :
  noLeadingDigit s = true -> match_digits s = None.
Proof.
  intros H. unfold match_digits. destruct s as [|c r]; [reflexivity|].
  cbn [noLeadingDigit] in H. apply negb_true_iff in H.
  cbn [take_digits]. rewrite H. reflexivity.
Qed.

Lemma match_digits_digit (c : N) (r : jsstring) :
  is_digit c = true -> exists m, match_digits (c :: r) = Some (c :: m).
Proof.
  intros H. unfold match_digits. cbn [take_digits]. rewrite H.
  destruct (take_digits r) as [d rest]. eexists. reflexivity.
Qed.

Lemma match_number_cons (c : N) (r : jsstring) :
  match_number (c :: r)
  = if c =? 45 then
      match match_digits r with
      | Some m => Some (45 :: m)
      | None => match_digits (c :: r)
      end
    else match_digits (c :: r).
Proof.
  destruct (N.eqb_spec c 45) as [-> | Hne]; [reflexivity|].
  unfold match_number.
  destruct c as [|p]; [reflexivity|].
  do 6 (destruct p as [p|p|]; try reflexivity).
  all: try (exfalso; apply Hne; reflexivity).
Qed.

Lemma match_number_nil : match_number [] = None.
Proof. reflexivity. Qed.

Lemma minus_not_digit : is_digit 45 = false.
Proof. reflexivity. Qed.

Lemma numericMatch_unfold (s : jsstring) :
  numericMatch s
  = match match_number s with
    | Some m => Some m
    | None => match s with
              | _ :: r => numericMatch r
              | [] => None
              end
    end.
Proof. destruct s; reflexivity. Qed.

Lemma numericMatch_none_iff (text : jsstring) :
  numericMatch text = None <-> noDigit text = true.
Proof.
  induction text as [|c r IH].
  - split; reflexivity.
  - rewrite numericMatch_unfold, match_number_cons.
    unfold noDigit in *. cbn [forallb].
    destruct (is_digit c) eqn:Hd.
    + destruct (match_digits_digit c r Hd) as (m & Hm).
      assert (Hc : (c =? 45) = false).
      { apply N.eqb_neq. intros ->. rewrite minus_not_digit in Hd. discriminate Hd. }
      rewrite Hc, Hm. cbn [negb andb]. split; discriminate.
    + assert (Hn : match_digits (c :: r) = None)
        by (apply match_digits_nondigit; cbn [noLeadingDigit]; rewrite Hd; reflexivity).
      rewrite Hn. cbn [negb andb].
      destruct (c =? 45).
      * destruct (match_digits r) as [m|] eqn:Hm.
        -- split; [discriminate|]. intros Hr. apply IH in Hr.
           rewrite numericMatch_unfold in Hr.
           destruct r as [|x r'].
           ++ discriminate Hm.
           ++ rewrite match_number_cons in Hr.
              destruct (x =? 45) eqn:Hx.
              ** apply N.eqb_eq in Hx. subst x.
                 rewrite match_digits_nondigit in Hm by reflexivity.
                 discriminate Hm.
              ** rewrite Hm in Hr. discriminate Hr.
        -- exact IH.
      * exact IH.
Qed.

Lemma endsWithMinus_cons (c x : N) (pre : jsstring) :
  endsWithMinus (c :: x :: pre) = endsWithMinus (x :: pre).
Proof. reflexivity. Qed.

(** X20. In a text that holds a digit, the pattern takes the first run of
    digits, with the minus sign right before it if there is one and with
    the dot right after it and the digits that follow the dot if there is
    one; what comes after that is dropped. *)
Theorem numericMatch_takes_first_number (pre ds post : jsstring) :
  noDigit pre = true ->
  ds <> [] -> forallb is_digit ds = true ->
  noLeadingDigit post = true ->
  numericMatch (pre ++ ds ++ post)
  = Some ((if endsWithMinus pre then [45] else [])
          ++ ds ++ match_fraction post).
Proof.
  intros Hpre Hne Hds Hpost.
  assert (Hm : match_digits (ds ++ post) = Some (ds ++ match_fraction post)).
  { unfold match_digits. rewrite (take_digits_digits ds post Hds Hpost).
    destruct ds; [contradiction Hne; reflexivity | reflexivity]. }
  assert (Hhead : exists d ds', ds = d :: ds' /\ is_digit d = true).
  { destruct ds as [|d ds']; [contradiction Hne; reflexivity|].
    cbn [forallb] in Hds. apply andb_true_iff in Hds.
    exists d, ds'. split; [reflexivity | exact (proj1 Hds)]. }
  destruct Hhead as (d & ds' & Eds & Hd).
  assert (Hd45 : (d =? 45) = false).
  { apply N.eqb_neq. intros ->. rewrite minus_not_digit in Hd. discriminate Hd. }
  induction pre as [|c pre IH].
  - cbn [app endsWithMinus]. rewrite numericMatch_unfold.
    rewrite Eds in *. cbn [app] in *. rewrite match_number_cons, Hd45, Hm.
    reflexivity.
  - unfold noDigit in Hpre. cbn [forallb] in Hpre.
    apply andb_true_iff in Hpre. destruct Hpre as [Hc Hpre].
    apply negb_true_iff in Hc.
    assert (Hn : match_digits (c :: pre ++ ds ++ post) = None)
      by (apply match_digits_nondigit; cbn [noLeadingDigit]; rewrite Hc; reflexivity).
    cbn [app]. rewrite numericMatch_unfold, match_number_cons, Hn.
    destruct pre as [|x pre].
    + cbn [app]. cbn [app] in IH. rewrite Hm.
      cbn [endsWithMinus List.last].
      destruct (c =? 45); [reflexivity|].
      rewrite (IH eq_refl). reflexivity.
    + rewrite endsWithMinus_cons.
      assert (Hx : is_digit x = false).
      { unfold noDigit in Hpre. cbn [forallb] in Hpre.
        apply andb_true_iff in Hpre. destruct Hpre as [Hx _].
        apply negb_true_iff in Hx. exact Hx. }
      assert (Hnx : match_digits ((x :: pre) ++ ds ++ post) = None)
        by (apply match_digits_nondigit; cbn [app noLeadingDigit]; rewrite Hx;
            reflexivity).
      rewrite Hnx. rewrite (IH Hpre).
      destruct (c =? 45); reflexivity.
Qed.

(** X19. [calculateCarbonFootprint] returns a number only when the key is
    set, the service answers with a success status and a JSON body, and the
    text of the first candidate holds a number; the result is [parseFloat]
    of what the pattern took from that text.  Without a key it throws
    before any request. *)
Theorem calculateCarbonFootprint_result (h : Host) (env : Env)
    (name description : jsstring) :
  (truthy (apiKey env) = false ->
   calculateCarbonFootprint h env name description = Throw msgNoKey)
  /\ forall x : float,
       calculateCarbonFootprint h env name description = Normal x ->
       truthy (apiKey env) = true
       /\ exists (r : Response) (geminiData : json) (text token : jsstring),
            fetch env = FetchResponse r /\ ok r = true
            /\ JSON_parse (body r) = Some geminiData
            /\ responseTextOf geminiData = Normal (JStr text)
            /\ noDigit text = false
            /\ numericMatch text = Some token
            /\ x = parseFloat h token.
Proof.
  unfold calculateCarbonFootprint. split.
  - intros ->. reflexivity.
  - intros x. destruct (truthy (apiKey env)); cbn [negb]; [|discriminate].
    destruct (fetch env) as [m | r] eqn:Ef; [discriminate|].
    destruct (ok r) eqn:Eok; cbn [negb]; [|discriminate].
    destruct (JSON_parse (body r)) as [geminiData|] eqn:Ej; [|discriminate].
    destruct (responseTextOf geminiData) as [v | e] eqn:Et; cbn [bindC];
      [|discriminate].
    destruct v as [| | | text | |]; try discriminate.
    destruct (numericMatch text) as [token|] eqn:Hm; [|discriminate].
    intros Hx. injection Hx as <-.
    split; [reflexivity|].
    exists r, geminiData, text, token.
    split; [reflexivity|]. split; [exact Eok|]. split; [exact Ej|].
    split; [exact Et|].
    split; [|split; [exact Hm | reflexivity]].
    destruct (noDigit text) eqn:Hnd; [|reflexivity].
    apply numericMatch_none_iff in Hnd. rewrite Hnd in Hm. discriminate Hm.
Qed.

(** X21. The pattern finds a number exactly when the text holds an ASCII
    digit; so a success answer whose candidate text holds none, for example
    a number spelled out in words, makes [calculateCarbonFootprint] throw
    its "Could not extract" error. *)
Theorem answer_without_digit_is_rejected (h : Host) (env : Env)
    (name description : jsstring) (r : Response) (geminiData : json)
    (text : jsstring) :
  (numericMatch text = None <-> noDigit text = true)
  /\ (truthy (apiKey env) = true ->
      fetch env = FetchResponse r -> ok r = true ->
      JSON_parse (body r) = Some geminiData ->
      responseTextOf geminiData = Normal (JStr text) ->
      noDigit text = true ->
      calculateCarbonFootprint h env name description = Throw msgNoNumber).
Proof.
  split; [apply numericMatch_none_iff|].
  intros Hkey Hf Hok Hbody Htext Hnd.
  apply numericMatch_none_iff in Hnd.
  unfold calculateCarbonFootprint.
  rewrite Hkey, Hf, Hok, Hbody. cbn [negb]. rewrite Htext. cbn [bindC].
  rewrite Hnd. reflexivity.
Qed.

(** ** The component's computations *)

Ltac board_simpl :=
  cbn [store friends boardTicks boardCalls userActions carbonScore dashLoading
       actionName actionDescription submitting submitError showAddActionModal
       showAddFriendModal friendEmail addFriendError addingFriend
       with_boardTicks boardTicked boardCalled withActions withFriends
       with_userActions with_carbonScore with_dashLoading with_actionName
       with_actionDescription with_submitting with_submitError
       with_showAddActionModal with_showAddFriendModal with_friendEmail
       with_addFriendError with_addingFriend fst snd].

Ltac board_simpl_in H :=
  cbn [store friends boardTicks boardCalls userActions carbonScore dashLoading
       actionName actionDescription submitting submitError showAddActionModal
       showAddFriendModal friendEmail addFriendError addingFriend
       with_boardTicks boardTicked boardCalled withActions withFriends
       with_userActions with_carbonScore with_dashLoading with_actionName
       with_actionDescription with_submitting with_submitError
       with_showAddActionModal with_showAddFriendModal with_friendEmail
       with_addFriendError with_addingFriend fst snd] in H.

Ltac board_frame :=
  unfold restKept, formKept, friendsDialogKept, dataKept; board_simpl;
  repeat split; try reflexivity.

Lemma with_boardTicks_same (b : Board) : with_boardTicks b (boardTicks b) = b.
Proof. destruct b. reflexivity. Qed.

Lemma stampOrNow_run (env : Env) (stamps : gmap jsstring jsstring)
    (name : jsstring) (b : Board) :
  match stamps !! name with
  | Some (c :: s) => stampOrNow env stamps name b = (Normal (c :: s), b)
  | _ => stampOrNow env stamps name b
         = (Normal (clock env (boardTicks b)), boardTicked b)
  end.
Proof.
  unfold stampOrNow. destruct (stamps !! name) as [[|c s]|]; reflexivity.
Qed.

Lemma rowOf_run (h : Host) (env : Env) (acts : gmap jsstring float)
    (stamps : gmap jsstring jsstring) (name : jsstring) (b : Board) :
  exists (row : Action) (k : nat),
    rowOf h env acts stamps name b
    = (Normal row, with_boardTicks b (boardTicks b + k))
    /\ rowFor h env acts stamps name row.
Proof.
  unfold rowOf, bindB, rowFor.
  pose proof (stampOrNow_run env stamps name b) as H1.
  destruct (stamps !! name) as [[|c s]|] eqn:E.
  - rewrite H1.
    pose proof (stampOrNow_run env stamps name (boardTicked b)) as H2.
    rewrite E in H2. rewrite H2. unfold retB.
    eexists _, 2%nat. split.
    + f_equal. unfold boardTicked. board_simpl. f_equal. lia.
    + cbn [ua_action ua_sustainabilityScore ua_carbonImpact ua_category
           ua_timestamp ua_date].
      repeat (split; [reflexivity|]). exists (boardTicks b). split; reflexivity.
  - rewrite H1.
    pose proof (stampOrNow_run env stamps name b) as H2.
    rewrite E in H2. rewrite H2. unfold retB.
    eexists _, 0%nat. split.
    + f_equal. rewrite Nat.add_0_r, with_boardTicks_same. reflexivity.
    + cbn [ua_action ua_sustainabilityScore ua_carbonImpact ua_category
           ua_timestamp ua_date].
      repeat (split; [reflexivity|]). reflexivity.
  - rewrite H1.
    pose proof (stampOrNow_run env stamps name (boardTicked b)) as H2.
    rewrite E in H2. rewrite H2. unfold retB.
    eexists _, 2%nat. split.
    + f_equal. unfold boardTicked. board_simpl. f_equal. lia.
    + cbn [ua_action ua_sustainabilityScore ua_carbonImpact ua_category
           ua_timestamp ua_date].
      repeat (split; [reflexivity|]). exists (boardTicks b). split; reflexivity.
Qed.

Lemma rowsOf_run (h : Host) (env : Env) (acts : gmap jsstring float)
    (stamps : gmap jsstring jsstring) (names : list jsstring) (b : Board) :
  exists (rows : list Action) (k : nat),
    rowsOf h env acts stamps names b
    = (Normal rows, with_boardTicks b (boardTicks b + k))
    /\ Forall2 (rowFor h env acts stamps) names rows.
Proof.
  revert b. induction names as [|name rest IH]; intros b.
  - exists [], 0%nat. cbn [rowsOf]. unfold retB.
    rewrite Nat.add_0_r, with_boardTicks_same. split; [reflexivity | constructor].
  - cbn [rowsOf]. unfold bindB at 1.
    destruct (rowOf_run h env acts stamps name b) as (row & k1 & -> & Hrow).
    unfold bindB at 1.
    destruct (IH (with_boardTicks b (boardTicks b + k1))) as (rows & k2 & -> & Hrows).
    unfold retB. exists (row :: rows), (k1 + k2)%nat. split.
    + f_equal. board_simpl. f_equal. lia.
    + constructor; assumption.
Qed.

Lemma display_run (h : Host) (env : Env) (userData : UserDoc) (b : Board) :
  exists (rows : list Action) (k : nat),
    display h env userData b
    = (Normal tt,
       with_carbonScore
         (with_userActions (with_boardTicks b (boardTicks b + k))
                           (Array_sort h byTimestampDesc rows))
         (totalOf h (actions userData)))
    /\ Forall2 (rowFor h env (actions userData) (actionTimestamps userData))
               (Object_keys h (actions userData)) rows.
Proof.
  unfold display, bindB.
  destruct (rowsOf_run h env (actions userData) (actionTimestamps userData)
              (Object_keys h (actions userData)) b) as (rows & k & -> & Hrows).
  exists rows, k. split; [reflexivity | exact Hrows].
Qed.



(** ** [addAction] *)

Lemma addAction_run (h : Host) (env : Env) (name : jsstring) (score : float)
    (b : Board) (d : UserDoc) :
  user env = true -> store b = Some d ->
  rejects env (boardCalls b) = false ->
  rejects env (S (boardCalls b)) = false ->
  rejects env (S (S (boardCalls b))) = false ->
  let d' := recorded d name score (clock env (boardTicks b)) in
  exists (rows : list Action) (k : nat),
    addAction h env name score b
    = (Normal tt,
       with_carbonScore
         (with_userActions
            (with_boardTicks
               (boardCalled
                  (withActions (boardTicked (boardCalled b))
                               (actions d') (actionTimestamps d')))
               (S (boardTicks b) + k))
            (Array_sort h byTimestampDesc rows))
         (totalOf h (actions d')))
    /\ Forall2 (rowFor h env (actions d') (actionTimestamps d'))
               (Object_keys h (actions d')) rows.
Proof.
  intros Hu Hs H0 H1 H2 d'.
  unfold addAction. rewrite Hu. cbn [negb]. unfold try_catchB.
  unfold bindB at 1. unfold getDocB at 1. rewrite H0, Hs.
  unfold bindB at 1. unfold nowB at 1.
  unfold bindB at 1. unfold updateActions. board_simpl. rewrite H1, Hs.
  unfold bindB at 1. unfold getDocB. board_simpl. rewrite H2, Hs.
  destruct (display_run h env d'
              (boardCalled (withActions (boardTicked (boardCalled b))
                                        (actions d') (actionTimestamps d'))))
    as (rows & k & Hrun & HF).
  exists rows, k. split; [|exact HF]. clear HF.
  unfold d', recorded in Hrun |- *.
  cbn [actions actionTimestamps] in Hrun |- *.
  board_simpl_in Hrun. rewrite Hrun. reflexivity.
Qed.

(** X22. When the user is signed in, the document exists and the store
    answers, [addAction] completes, the document holds the score under the
    action's name and the reading of the clock as its timestamp, with the
    advice history and all other entries as they were; the list and the
    total on display are rebuilt from that document; the dialogs are not
    touched. *)
Theorem addAction_records_score_and_time (h : Host) (env : Env)
    (name : jsstring) (score : float) (b : Board) (d : UserDoc) :
  user env = true -> store b = Some d ->
  rejects env (boardCalls b) = false ->
  rejects env (S (boardCalls b)) = false ->
  rejects env (S (S (boardCalls b))) = false ->
  let out := addAction h env name score b in
  let d' := recorded d name score (clock env (boardTicks b)) in
  fst out = Normal tt
  /\ store (snd out) = Some d'
  /\ actions d' !! name = Some score
  /\ actionTimestamps d' !! name = Some (clock env (boardTicks b))
  /\ (forall other, other <> name ->
        actions d' !! other = actions d !! other
        /\ actionTimestamps d' !! other = actionTimestamps d !! other)
  /\ restKept b (snd out)
  /\ carbonScore (snd out) = totalOf h (actions d')
  /\ exists rows : list Action,
       userActions (snd out) = Array_sort h byTimestampDesc rows
       /\ Forall2 (rowFor h env (actions d') (actionTimestamps d'))
                  (Object_keys h (actions d')) rows.
Proof.
  intros Hu Hs H0 H1 H2 out d'.
  destruct (addAction_run h env name score b d Hu Hs H0 H1 H2)
    as (rows & k & Hrun & HF).
  unfold out. rewrite Hrun. board_simpl. rewrite Hs.
  split; [reflexivity|]. split; [reflexivity|].
  split; [apply lookup_insert_eq|]. split; [apply lookup_insert_eq|].
  split.
  { intros other Hne. unfold d', recorded. cbn [actions actionTimestamps].
    split; apply lookup_insert_ne; congruence. }
  split; [board_frame|]. split; [reflexivity|].
  exists rows. split; [reflexivity | exact HF].
Qed.

Lemma addAction_spec (h : Host) (env : Env) (name : jsstring) (score : float)
    (b : Board) :
  exists (c : Completion unit) (b' : Board),
    addAction h env name score b = (c, b')
    /\ restKept b b'
    /\ (c = Normal tt \/ c = Throw (js "unavailable"))
    /\ (dataKept b b'
        \/ exists d, store b = Some d
             /\ store b' = Some (recorded d name score (clock env (boardTicks b)))).
Proof.
  unfold addAction. destruct (user env); cbn [negb].
  - unfold try_catchB. unfold bindB at 1. unfold getDocB at 1.
    destruct (rejects env (boardCalls b)) eqn:H0.
    + unfold throwB. eexists _, _. split; [reflexivity|].
      split; [board_frame|]. split; [right; reflexivity|]. left. board_frame.
    + destruct (store b) as [d|] eqn:Hs.
      * unfold bindB at 1. unfold nowB at 1.
        unfold bindB at 1. unfold updateActions. board_simpl. rewrite Hs.
        destruct (rejects env (S (boardCalls b))) eqn:H1.
        -- unfold throwB. eexists _, _. split; [reflexivity|].
           split; [board_frame|]. split; [right; reflexivity|].
           left. board_frame; try exact Hs.
        -- unfold bindB at 1. unfold getDocB. board_simpl. rewrite Hs.
           destruct (rejects env (S (S (boardCalls b)))) eqn:H2.
           ++ unfold throwB. eexists _, _. split; [reflexivity|].
              split; [board_frame|]. split; [right; reflexivity|].
              right. exists d. board_simpl. rewrite Hs.
              split; reflexivity.
           ++ match goal with
              | |- context [display h env ?u ?x] =>
                  destruct (display_run h env u x) as (rows & k & -> & _)
              end.
              eexists _, _. split; [reflexivity|].
              split; [board_frame|]. split; [left; reflexivity|].
              right. exists d. board_simpl. rewrite Hs.
              split; reflexivity.
      * unfold retB. eexists _, _. split; [reflexivity|].
        split; [board_frame|]. split; [left; reflexivity|].
        left. board_frame; try exact Hs.
  - unfold retB. eexists _, _. split; [reflexivity|].
    split; [board_frame|]. split; [left; reflexivity|]. left. board_frame.
Qed.

(** ** [handleSubmitAction] *)

Lemma handleSubmitAction_run (h : Host) (env : Env) (b : Board) :
  (length (trim (actionName b)) =? 0)%nat = false ->
  let b0 := with_submitError (with_submitting b true) None in
  let failed message b1 :=
    with_submitting
      (with_submitError b1
         (Some (message_or message (js "Failed to add action. Please try again."))))
      false in
  handleSubmitAction h env b
  = (Normal tt,
     match calculateCarbonFootprint h env (trim (actionName b))
                                    (trim (actionDescription b)) with
     | Normal carbonFootprint =>
         match addAction h env (trim (actionName b)) carbonFootprint b0 with
         | (Normal _, b1) =>
             with_submitting
               (with_showAddActionModal
                  (with_submitError
                     (with_actionDescription (with_actionName b1 []) []) None)
                  false)
               false
         | (Throw message, b1) => failed message b1
         end
     | Throw message => failed message b0
     end).
Proof.
  intros Hname b0 failed. unfold handleSubmitAction. rewrite Hname.
  unfold try_finallyB, try_catchB, bindB, liftB, setSubmitting, setSubmitError,
    setActionName, setActionDescription, setShowAddActionModal.
  fold b0.
  destruct (calculateCarbonFootprint h env (trim (actionName b))
                                     (trim (actionDescription b))) as [x | m].
  - destruct (addAction h env (trim (actionName b)) x b0) as [[u | m] b1];
      reflexivity.
  - reflexivity.
Qed.

(** X24. [handleSubmitAction] never throws and leaves the friends dialog
    alone.  For a blank name it only sets the error.  Otherwise
    [submitting] is false at the end; when no footprint could be computed
    nothing is written and nothing on display changes, the form keeps its
    text and the error is the message of the failure or, for an empty
    message, the fixed sentence; when one was computed, either the form is
    cleared and closed without an error, or the store failed and the form
    stays with that error. *)
Theorem handleSubmitAction_outcomes (h : Host) (env : Env) (b : Board) :
  let out := handleSubmitAction h env b in
  let b' := snd out in
  fst out = Normal tt
  /\ friends b' = friends b /\ dashLoading b' = dashLoading b
  /\ friendsDialogKept b b'
  /\ if (length (trim (actionName b)) =? 0)%nat then
       b' = with_submitError b (Some (js "Please enter an action name"))
     else
       submitting b' = false
       /\ match calculateCarbonFootprint h env (trim (actionName b))
                                         (trim (actionDescription b)) with
          | Throw message =>
              dataKept b b' /\ formKept b b' /\ boardCalls b' = boardCalls b
              /\ submitError b'
                 = Some (message_or message
                           (js "Failed to add action. Please try again."))
          | Normal _ =>
              (submitError b' = None /\ actionName b' = []
               /\ actionDescription b' = [] /\ showAddActionModal b' = false)
              \/ (submitError b' = Some (js "unavailable") /\ formKept b b')
          end.
Proof.
  intros out b'. subst b' out.
  destruct (length (trim (actionName b)) =? 0)%nat eqn:Hname.
  - unfold handleSubmitAction. rewrite Hname. unfold setSubmitError.
    board_frame.
  - rewrite (handleSubmitAction_run h env b Hname). cbn [fst snd].
    destruct (calculateCarbonFootprint h env (trim (actionName b))
                                       (trim (actionDescription b))) as [x | m].
    + destruct (addAction_spec h env (trim (actionName b)) x
                  (with_submitError (with_submitting b true) None))
        as (c & b1 & -> & Hrest & Hc & _).
      destruct Hrest as (Hf & Hl & _ & _ & (Hn & Hd & Hm) & (F1 & F2 & F3 & F4)).
      board_simpl_in Hf. board_simpl_in Hl. board_simpl_in Hn.
      board_simpl_in Hd. board_simpl_in Hm. board_simpl_in F1.
      board_simpl_in F2. board_simpl_in F3. board_simpl_in F4.
      destruct Hc as [-> | ->].
      * board_frame; try assumption. left. repeat split; reflexivity.
      * board_frame; try assumption. right. board_frame; try assumption.
    + board_frame.
Qed.

Lemma addAction_without_document (h : Host) (env : Env) (name : jsstring)
    (score : float) (b : Board) :
  user env = false
  \/ (store b = None /\ rejects env (boardCalls b) = false) ->
  exists b', addAction h env name score b = (Normal tt, b')
             /\ (b' = b \/ b' = boardCalled b).
Proof.
  intros H. unfold addAction. destruct (user env) eqn:Hu; cbn [negb].
  - destruct H as [H | [Hs Hr]]; [discriminate H|].
    unfold try_catchB, bindB, getDocB. rewrite Hr, Hs. unfold retB.
    exists (boardCalled b). split; [reflexivity | right; reflexivity].
  - exists b. split; [reflexivity | left; reflexivity].
Qed.

(** X23. When a footprint was computed but nobody is signed in, or the
    user's document does not exist, [handleSubmitAction] clears and closes
    the form without an error although nothing was stored and the list on
    display is as before. *)
Theorem submit_without_document_looks_successful (h : Host) (env : Env)
    (b : Board) (carbonFootprint : float) :
  (length (trim (actionName b)) =? 0)%nat = false ->
  calculateCarbonFootprint h env (trim (actionName b))
                           (trim (actionDescription b))
  = Normal carbonFootprint ->
  user env = false
  \/ (store b = None /\ rejects env (boardCalls b) = false) ->
  let b' := snd (handleSubmitAction h env b) in
  submitError b' = None /\ showAddActionModal b' = false
  /\ actionName b' = [] /\ actionDescription b' = []
  /\ submitting b' = false
  /\ dataKept b b'.
Proof.
  intros Hname Hcalc Hdoc b'. subst b'.
  rewrite (handleSubmitAction_run h env b Hname), Hcalc. cbn [snd].
  destruct (addAction_without_document h env (trim (actionName b))
              carbonFootprint (with_submitError (with_submitting b true) None)
              Hdoc) as (b1 & -> & [-> | ->]); board_frame.
Qed.

Lemma addAction_refresh_rejected (h : Host) (env : Env) (name : jsstring)
    (score : float) (b : Board) (d : UserDoc) :
  user env = true -> store b = Some d ->
  rejects env (boardCalls b) = false ->
  rejects env (S (boardCalls b)) = false ->
  rejects env (S (S (boardCalls b))) = true ->
  let d' := recorded d name score (clock env (boardTicks b)) in
  addAction h env name score b
  = (Throw (js "unavailable"),
     boardCalled (withActions (boardTicked (boardCalled b))
                              (actions d') (actionTimestamps d'))).
Proof.
  intros Hu Hs H0 H1 H2 d'.
  unfold addAction. rewrite Hu. cbn [negb]. unfold try_catchB.
  unfold bindB at 1. unfold getDocB at 1. rewrite H0, Hs.
  unfold bindB at 1. unfold nowB at 1.
  unfold bindB at 1. unfold updateActions. board_simpl. rewrite H1, Hs.
  unfold bindB at 1. unfold getDocB. board_simpl. rewrite H2.
  reflexivity.
Qed.

(** X25. When the write of [addAction] goes through and the read that
    follows it is rejected, the action is stored, but [handleSubmitAction]
    reports the failure: the error is set, the form stays open with its
    text, and the list and total on display are the old ones. *)
Theorem rejected_refresh_hides_stored_action (h : Host) (env : Env)
    (b : Board) (d : UserDoc) (carbonFootprint : float) :
  (length (trim (actionName b)) =? 0)%nat = false ->
  calculateCarbonFootprint h env (trim (actionName b))
                           (trim (actionDescription b))
  = Normal carbonFootprint ->
  user env = true -> store b = Some d ->
  rejects env (boardCalls b) = false ->
  rejects env (S (boardCalls b)) = false ->
  rejects env (S (S (boardCalls b))) = true ->
  let b' := snd (handleSubmitAction h env b) in
  store b'
  = Some (recorded d (trim (actionName b)) carbonFootprint
                   (clock env (boardTicks b)))
  /\ submitError b' = Some (js "unavailable")
  /\ formKept b b'
  /\ userActions b' = userActions b /\ carbonScore b' = carbonScore b
  /\ submitting b' = false.
Proof.
  intros Hname Hcalc Hu Hs H0 H1 H2 b'. subst b'.
  rewrite (handleSubmitAction_run h env b Hname), Hcalc. cbn [snd].
  rewrite (addAction_refresh_rejected h env (trim (actionName b))
             carbonFootprint (with_submitError (with_submitting b true) None) d
             Hu Hs H0 H1 H2).
  board_simpl. rewrite Hs. board_frame.
Qed.

(** ** [fetchUserData] *)

(** X29. [fetchUserData] never throws, writes nothing and ends with
    [loading] false.  When the read is rejected, or the document does not
    exist, the list on display is empty and the total is zero; when nobody
    is signed in the list and the total are left as they are; otherwise
    they are rebuilt from the document. *)
Theorem fetchUserData_outcomes (h : Host) (env : Env) (b : Board) :
  let out := fetchUserData h env b in
  let b' := snd out in
  fst out = Normal tt
  /\ dashLoading b' = false
  /\ store b' = store b /\ friends b' = friends b
  /\ submitting b' = submitting b /\ submitError b' = submitError b
  /\ formKept b b' /\ friendsDialogKept b b'
  /\ if negb (user env) then
       userActions b' = userActions b /\ carbonScore b' = carbonScore b
       /\ boardCalls b' = boardCalls b
     else if rejects env (boardCalls b) then
       userActions b' = [] /\ carbonScore b' = 0%float
     else
       match store b with
       | None => userActions b' = [] /\ carbonScore b' = 0%float
       | Some userData =>
           carbonScore b' = totalOf h (actions userData)
           /\ exists rows : list Action,
                userActions b' = Array_sort h byTimestampDesc rows
                /\ Forall2 (rowFor h env (actions userData)
                                   (actionTimestamps userData))
                           (Object_keys h (actions userData)) rows
       end.
Proof.
  intros out b'. subst b' out. unfold fetchUserData.
  destruct (user env); cbn [negb].
  - unfold try_finallyB, try_catchB, bindB, setLoadingB, getDocB,
      setUserActions, setCarbonScore.
    change (boardCalls (with_dashLoading b true)) with (boardCalls b).
    change (store (with_dashLoading b true)) with (store b).
    destruct (rejects env (boardCalls b)) eqn:Hr.
    + board_frame.
    + destruct (store b) as [userData|] eqn:Hs.
      * destruct (display_run h env userData
                    (boardCalled (with_dashLoading b true)))
          as (rows & k & -> & HF).
        board_frame; try exact Hs.
        exists rows. split; [reflexivity | exact HF].
      * board_frame; try exact Hs.
  - unfold setLoadingB. board_frame.
Qed.

(** ** [handleAddFriend] *)

Lemma handleAddFriend_spec (h : Host) (env : Env) (dir : Directory) (b : Board) :
  let out := handleAddFriend h env dir b in
  let b' := snd out in
  fst out = Normal tt
  /\ store b' = store b
  /\ userActions b' = userActions b /\ carbonScore b' = carbonScore b
  /\ submitting b' = submitting b /\ submitError b' = submitError b
  /\ formKept b b'
  /\ (friends b' = friends b
      \/ exists friendId rest,
           usersByEmail dir (toLowerCase h (trim (friendEmail b)))
           = friendId :: rest
           /\ friendId <> uid dir
           /\ ~ In friendId (friendsList b)
           /\ friends b' = Some (friendsList b ++ [friendId])
           /\ store b <> None
           /\ showAddFriendModal b' = false /\ friendEmail b' = []
           /\ addFriendError b' = None)
  /\ ((length (trim (friendEmail b)) =? 0)%nat = false -> user env = true ->
      addingFriend b' = false).
Proof.
  intros out b'. subst b' out. unfold handleAddFriend.
  destruct (length (trim (friendEmail b)) =? 0)%nat eqn:Hblank.
  { unfold setAddFriendError. board_frame; try discriminate; try (left; reflexivity). }
  destruct (user env) eqn:Hu; cbn [negb].
  2:{ unfold setAddFriendError. board_frame; try discriminate; try (left; reflexivity). }
  unfold try_finallyB, try_catchB, bindB, getDocs, getDocB, updateFriends,
    setAddingFriend, setAddFriendError, setShowAddFriendModal, setFriendEmail,
    retB.
  board_simpl.
  destruct (rejects env (boardCalls b)) eqn:H0.
  { board_frame; try (left; reflexivity). }
  destruct (usersByEmail dir (toLowerCase h (trim (friendEmail b))))
    as [|friendId rest] eqn:Hq.
  { board_frame; try (left; reflexivity). }
  board_simpl.
  destruct (decide (friendId = uid dir)) as [Hself | Hself].
  { board_frame; try (left; reflexivity). }
  board_simpl.
  destruct (rejects env (S (boardCalls b))) eqn:H1.
  { board_frame; try (left; reflexivity). }
  board_simpl.
  destruct (store b) as [d|] eqn:Hs.
  2:{ board_frame; try exact Hs; try (left; reflexivity). }
  board_simpl.
  destruct (bool_decide (friendId ∈ match friends b with
                                     | Some l => l
                                     | None => []
                                     end)) eqn:Hin.
  { board_frame; try exact Hs; try (left; reflexivity). }
  board_simpl.
  destruct (rejects env (S (S (boardCalls b)))) eqn:H2.
  { board_frame; try exact Hs; try (left; reflexivity). }
  board_simpl. rewrite Hs.
  board_frame; try exact Hs.
  right. exists friendId, rest.
  split; [reflexivity|]. split; [exact Hself|]. split.
  { apply bool_decide_eq_false in Hin. unfold friendsList.
    intros HIn. apply Hin. apply list_elem_of_In. exact HIn. }
  split; [reflexivity|]. split; [discriminate|].
  repeat split; reflexivity.
Qed.

(** X28. [handleAddFriend] never throws and touches neither the stored
    actions nor the list on display nor the add-action form.  The [friends]
    list changes in one way only: the id of the first document found for
    the trimmed, lower-cased email is appended, when that id is not the
    user's own and not yet in the list and the user's document exists; the
    dialog is then closed and cleared.  Whenever the checks on the email and
    on the session pass, [addingFriend] is false at the end. *)
Theorem handleAddFriend_appends_at_most_one (h : Host) (env : Env)
    (dir : Directory) (b : Board) :
  let out := handleAddFriend h env dir b in
  let b' := snd out in
  fst out = Normal tt
  /\ store b' = store b
  /\ userActions b' = userActions b /\ carbonScore b' = carbonScore b
  /\ submitting b' = submitting b /\ submitError b' = submitError b
  /\ formKept b b'
  /\ (friends b' = friends b
      \/ exists friendId rest,
           usersByEmail dir (toLowerCase h (trim (friendEmail b)))
           = friendId :: rest
           /\ friendId <> uid dir
           /\ ~ In friendId (friendsList b)
           /\ friends b' = Some (friendsList b ++ [friendId])
           /\ store b <> None
           /\ showAddFriendModal b' = false /\ friendEmail b' = []
           /\ addFriendError b' = None)
  /\ ((length (trim (friendEmail b)) =? 0)%nat = false -> user env = true ->
      addingFriend b' = false).
Proof. exact (handleAddFriend_spec h env dir b). Qed.

(** X27. A [friends] list without repetitions that does not hold the
    user's own id is still such a list after [handleAddFriend], whatever
    the email typed and whatever the store answers. *)
Theorem handleAddFriend_keeps_friends_distinct (h : Host) (env : Env)
    (dir : Directory) (b : Board) :
  List.NoDup (friendsList b) -> ~ In (uid dir) (friendsList b) ->
  let b' := snd (handleAddFriend h env dir b) in
  List.NoDup (friendsList b') /\ ~ In (uid dir) (friendsList b').
Proof.
  intros Hnd Hself b'.
  destruct (handleAddFriend_spec h env dir b)
    as (_ & _ & _ & _ & _ & _ & _ & Hfriends & _).
  fold b' in Hfriends. unfold friendsList in *.
  destruct Hfriends as [-> | (friendId & rest & _ & Hne & Hnew & -> & _)].
  - split; assumption.
  - split.
    + apply (Permutation_NoDup (l := friendId :: match friends b with
                                                 | Some l => l
                                                 | None => []
                                                 end)).
      * apply Permutation_cons_append.
      * constructor; assumption.
    + intros HIn. apply in_app_or in HIn. destruct HIn as [HIn | [HIn | []]].
      * exact (Hself HIn).
      * exact (Hne HIn).
Qed.

End Pipeline.

(** * The properties at sample inputs, on the reference host *)


Lemma newActions_drops_untimed_witness :
  truthy (ua_timestamp untimedAction) = false
  /\ truthy (ua_date untimedAction) = false
  /\ (~ In untimedAction
          (newActions RefHost.Date_parse [droveToWork; untimedAction]
                      (Some (checkpointHead :: checkpointTail)))
      /\ (forall t, ~ hasTime RefHost.Date_parse untimedAction t)).
Proof.
  split; [reflexivity|]. split; [reflexivity|].
  apply (newActions_drops_untimed RefHost.Date_parse
           [droveToWork; untimedAction] checkpointHead checkpointTail
           untimedAction); reflexivity.
Defined.

Lemma generateLocalAdvice_deterministic_witness :
  let a := formatted "Drove to work" 62 "2025-01-02T08:00:00.000Z" "Transportation" in
  let a' := formatted "Drove to work" 62 "2025-03-09T21:15:00.000Z" "Transportation" in
  Forall2 sameButTimestamp [a] [a']
  /\ Forall2 sameButTimestamp (@nil FAction) []
  /\ generateLocalAdvice RefHost.toFixed1 RefHost.Number_toString [a] 62 62 [a] []
     = generateLocalAdvice RefHost.toFixed1 RefHost.Number_toString [a'] 62 62 [a'] [].
Proof.
  intros a a'.
  assert (H : Forall2 sameButTimestamp [a] [a']).
  { constructor; [|constructor]. repeat split. }
  split; [exact H|]. split; [constructor|].
  apply (generateLocalAdvice_deterministic RefHost.toFixed1
           RefHost.Number_toString [a] [a'] 62 62 [a] [a'] [] []);
    [exact H | exact H | constructor].
Defined.


Lemma no_new_actions_outcomes_witness :
  let st := idle (Some checkpointedDoc) in
  let st' := snd (handleGetAdvice RefHost.Date_parse RefHost.toFixed1
                    RefHost.Number_toString RefHost.StringToNumber
                    helloEnv [oldAction] st) in
  [oldAction] <> []
  /\ checkpointSeen helloEnv st = Some checkpoint0
  /\ newActions RefHost.Date_parse [oldAction] (Some checkpoint0) = []
  /\ rejects helloEnv (S (calls st)) = false
  /\ adviceMap checkpointedDoc !! checkpoint0 = Some storedBlob
  /\ storedBlob <> []
  /\ JSON_parse RefHost.StringToNumber storedBlob = Some (advice_value storedRecord)
  /\ error st' = Some msgNoNewActions
  /\ loading st' = false
  /\ doc st' = doc st
  /\ ticks st' = ticks st
  /\ advice st' = advice_value storedRecord.
Proof.
  intros st st'.
  assert (HA : [oldAction] <> []) by discriminate.
  assert (Hcp : checkpointSeen helloEnv st = Some checkpoint0) by reflexivity.
  assert (Hsel : newActions RefHost.Date_parse [oldAction] (Some checkpoint0) = [])
    by (vm_compute; reflexivity).
  assert (Hrej : rejects helloEnv (S (calls st)) = false) by reflexivity.
  assert (Hm : adviceMap checkpointedDoc !! checkpoint0 = Some storedBlob)
    by (vm_compute; reflexivity).
  assert (Hne : storedBlob <> []) by discriminate.
  assert (Hp : JSON_parse RefHost.StringToNumber storedBlob
               = Some (advice_value storedRecord))
    by (vm_compute; reflexivity).
  destruct (proj1 (proj2 (no_new_actions_outcomes RefHost.Date_parse
                            RefHost.toFixed1 RefHost.Number_toString
                            RefHost.StringToNumber helloEnv [oldAction] st))
              checkpoint0 HA Hcp Hsel)
    as (He & Hl & Hd & Ht & Hshown).
  repeat (split; [assumption|]).
  exact (proj1 (Hshown checkpointedDoc Hrej eq_refl)
               storedBlob (advice_value storedRecord) Hm Hne Hp).
Defined.

Lemma remote_failure_outcomes_witness :
  let st := idle (Some freshDoc) in
  let failed := snd (handleGetAdvice RefHost.Date_parse RefHost.toFixed1
                       RefHost.Number_toString RefHost.StringToNumber
                       failingEnv [droveToWork] st) in
  let answered := snd (handleGetAdvice RefHost.Date_parse RefHost.toFixed1
                         RefHost.Number_toString RefHost.StringToNumber
                         helloEnv [droveToWork] st) in
  newActions RefHost.Date_parse [droveToWork] (checkpointSeen failingEnv st) <> []
  /\ truthy (apiKey failingEnv) = true
  /\ (exists rec : AdviceRecord,
        advice failed = advice_value rec
        /\ exists ts : jsstring,
             persisted st failed ts
               (JSON_stringify RefHost.Number_toString (advice_value rec)))
  /\ adviceFromText RefHost.StringToNumber (js "hello") = rawAdvice (js "hello")
  /\ advice answered = adviceFromText RefHost.StringToNumber (js "hello")
  /\ exists ts : jsstring,
       persisted st answered ts
         (JSON_stringify RefHost.Number_toString
            (adviceFromText RefHost.StringToNumber (js "hello"))).
Proof.
  intros st failed answered.
  assert (Hsel : newActions RefHost.Date_parse [droveToWork]
                   (checkpointSeen failingEnv st) <> [])
    by (vm_compute; discriminate).
  assert (Hkey : truthy (apiKey failingEnv) = true) by reflexivity.
  assert (Hdata : exists data,
             JSON_parse RefHost.StringToNumber helloBody = Some data
             /\ responseTextOf data = Normal (JStr (js "hello"))).
  { eexists. split; vm_compute; reflexivity. }
  split; [exact Hsel|]. split; [exact Hkey|]. split.
  - destruct (remote_failure_outcomes RefHost.Date_parse RefHost.toFixed1
                RefHost.Number_toString RefHost.StringToNumber
                failingEnv [droveToWork] st Hsel Hkey)
      as (l & st2 & _ & Hfail & _).
    destruct (Hfail (or_introl eq_refl)) as (rec & _ & Ha & _ & _ & _ & Hw).
    exists rec. split; [exact Ha|]. eexists.
    exact (Hw freshDoc eq_refl eq_refl eq_refl eq_refl).
  - split; [vm_compute; reflexivity|].
    destruct (remote_failure_outcomes RefHost.Date_parse RefHost.toFixed1
                RefHost.Number_toString RefHost.StringToNumber
                helloEnv [droveToWork] st Hsel Hkey)
      as (l & st2 & _ & _ & Htext).
    destruct Hdata as (data & Hb & Ht).
    destruct (Htext _ data (js "hello") eq_refl eq_refl Hb Ht)
      as (Ha & _ & _ & _ & _ & Hw).
    split; [exact Ha|]. eexists.
    exact (Hw freshDoc eq_refl eq_refl eq_refl eq_refl).
Defined.

(** ** Inputs at which a sentence of the specification fails *)

(** Against C2 as written: the list is empty, so the selected subset is
    empty; a checkpoint is stored, and so is a parseable record under its
    key; yet the handler sets the "No user actions available" error and shows
    nothing. *)
Lemma empty_list_with_checkpoint_is_hard_error :
  let st := idle (Some checkpointedDoc) in
  let st' := snd (handleGetAdvice RefHost.Date_parse RefHost.toFixed1
                    RefHost.Number_toString RefHost.StringToNumber
                    helloEnv [] st) in
  checkpointSeen helloEnv st = Some checkpoint0
  /\ newActions RefHost.Date_parse [] (Some checkpoint0) = []
  /\ adviceMap checkpointedDoc !! checkpoint0 = Some storedBlob
  /\ JSON_parse RefHost.StringToNumber storedBlob = Some (advice_value storedRecord)
  /\ error st' = Some msgNoActions
  /\ error st' <> Some msgNoNewActions
  /\ advice st' = JNull
  /\ advice st' <> advice_value storedRecord.
Proof.
  intros st st'.
  split; [reflexivity|]. split; [reflexivity|].
  split; [vm_compute; reflexivity|]. split; [vm_compute; reflexivity|].
  split; [reflexivity|]. split; [vm_compute; discriminate|].
  split; [reflexivity|]. vm_compute. discriminate.
Qed.

(** Against C3 as written: the service answers 200 with the candidate text
    [hello], which is not JSON; the handler shows the raw text as [message]
    with its lines as [insights], which is no record of the local
    generator. *)
Lemma unparseable_text_is_shown_raw :
  let st' := snd (handleGetAdvice RefHost.Date_parse RefHost.toFixed1
                    RefHost.Number_toString RefHost.StringToNumber
                    helloEnv [droveToWork] (idle (Some freshDoc))) in
  (exists data,
      JSON_parse RefHost.StringToNumber helloBody = Some data
      /\ responseTextOf data = Normal (JStr (js "hello")))
  /\ JSON_parse RefHost.StringToNumber (trim (jsonTextOf (js "hello"))) = None
  /\ advice st' = rawAdvice (js "hello")
  /\ (forall rec : AdviceRecord, advice st' <> advice_value rec).
Proof.
  intros st'.
  assert (Ha : advice st' = rawAdvice (js "hello")) by (vm_compute; reflexivity).
  split.
  { eexists. split; vm_compute; reflexivity. }
  split; [vm_compute; reflexivity|]. split; [exact Ha|].
  intros rec H. rewrite Ha in H. vm_compute in H. discriminate H.
Qed.

(** Against C4 as written: with scores 10 and -5 the total and the mean are
    as stated, but it is false that both actions are in neither bucket: both
    are in the low-impact one. *)
Lemma scores_10_and_minus_5_are_low_impact :
  let a := formatted "Recycled bottles" 10 "2025-01-03T09:30:00.000Z" "Waste" in
  let b := formatted "Planted a tree" (-5) "2025-01-04T17:45:00.000Z" "Environment" in
  ~ (totalScore (statsOf [a; b]) = 5%float
     /\ avgScore (statsOf [a; b]) = 2.5%float
     /\ forall x, In x [a; b] ->
          ~ In x (highImpactActions (statsOf [a; b]))
          /\ ~ In x (lowImpactActions (statsOf [a; b]))).
Proof.
  intros a b (_ & _ & H).
  destruct (H a (or_introl eq_refl)) as [_ Hl]. apply Hl.
  vm_compute. left. reflexivity.
Qed.

(** * The further properties at sample inputs *)

Lemma saveInsights_is_best_effort_witness :
  let out := saveInsightsToFirestore RefHost.Number_toString offlineEnv
               (advice_value storedRecord) (idle (Some checkpointedDoc)) in
  rejects offlineEnv (calls (idle (Some checkpointedDoc))) = true
  /\ fst out = Normal tt
  /\ doc (snd out) = Some checkpointedDoc.
Proof.
  intros out.
  assert (Hr : rejects offlineEnv (calls (idle (Some checkpointedDoc))) = true)
    by reflexivity.
  destruct (saveInsights_is_best_effort RefHost.Number_toString offlineEnv
              (advice_value storedRecord) (idle (Some checkpointedDoc)))
    as (H1 & _ & _ & _ & H5).
  split; [exact Hr|]. split; [exact H1|].
  exact (H5 (or_intror (or_intror (or_introl Hr)))).
Defined.

Lemma advice_history_is_append_only_witness :
  doc (idle (Some checkpointedDoc)) = Some checkpointedDoc
  /\ exists d' : UserDoc,
       doc (snd (handleGetAdvice RefHost.Date_parse RefHost.toFixed1
                   RefHost.Number_toString RefHost.StringToNumber
                   keylessEnv [droveToWork] (idle (Some checkpointedDoc))))
       = Some d'
       /\ (adviceMap d' !! checkpoint0 = Some storedBlob
           \/ mostRecentInsightsTimestamp d' = Some checkpoint0).
Proof.
  split; [reflexivity|].
  destruct (advice_history_is_append_only RefHost.Date_parse RefHost.toFixed1
              RefHost.Number_toString RefHost.StringToNumber
              keylessEnv [droveToWork] (idle (Some checkpointedDoc))
              checkpointedDoc eq_refl)
    as (d' & Hd & Hkeep & _).
  exists d'. split; [exact Hd|].
  apply Hkeep. vm_compute. reflexivity.
Defined.

Lemma unparseable_checkpoint_selects_nothing_witness :
  RefHost.Date_parse (104 :: js "ello") = None
  /\ newActions RefHost.Date_parse [droveToWork; plantedTree]
                (Some (104 :: js "ello")) = [].
Proof.
  assert (H : RefHost.Date_parse (104 :: js "ello") = None) by reflexivity.
  split; [exact H|].
  exact (unparseable_checkpoint_selects_nothing RefHost.Date_parse
           [droveToWork; plantedTree] 104 (js "ello") H).
Defined.

Lemma later_checkpoint_narrows_selection_witness :
  RefHost.Date_parse (checkpointHead :: checkpointTail) = Some 1735689600000%Z
  /\ RefHost.Date_parse (50 :: js "025-01-03T00:00:00.000Z") = Some 1735862400000%Z
  /\ (1735689600000 <= 1735862400000)%Z
  /\ newActions RefHost.Date_parse
       (newActions RefHost.Date_parse [droveToWork; oldAction; plantedTree]
                   (Some (checkpointHead :: checkpointTail)))
       (Some (50 :: js "025-01-03T00:00:00.000Z"))
     = newActions RefHost.Date_parse [droveToWork; oldAction; plantedTree]
                  (Some (50 :: js "025-01-03T00:00:00.000Z")).
Proof.
  assert (H1 : RefHost.Date_parse (checkpointHead :: checkpointTail)
               = Some 1735689600000%Z) by (vm_compute; reflexivity).
  assert (H2 : RefHost.Date_parse (50 :: js "025-01-03T00:00:00.000Z")
               = Some 1735862400000%Z) by (vm_compute; reflexivity).
  assert (H3 : (1735689600000 <= 1735862400000)%Z) by lia.
  split; [exact H1|]. split; [exact H2|]. split; [exact H3|].
  exact (later_checkpoint_narrows_selection RefHost.Date_parse
           [droveToWork; oldAction; plantedTree]
           checkpointHead checkpointTail 50 (js "025-01-03T00:00:00.000Z")
           _ _ H1 H2 H3).
Defined.

Lemma statistics_cover_selected_actions_witness :
  let st := idle (Some checkpointedDoc) in
  let A := [droveToWork; oldAction] in
  newActions RefHost.Date_parse A (checkpointSeen keylessEnv st) <> []
  /\ exists l : list FAction,
       Forall2 formats (newActions RefHost.Date_parse A (checkpointSeen keylessEnv st)) l
       /\ locals (snd (handleGetAdvice RefHost.Date_parse RefHost.toFixed1
                         RefHost.Number_toString RefHost.StringToNumber
                         keylessEnv A st)) = statsOf l.
Proof.
  intros st A.
  assert (Hsel : newActions RefHost.Date_parse A (checkpointSeen keylessEnv st) <> [])
    by (vm_compute; discriminate).
  split; [exact Hsel|].
  destruct (statistics_cover_selected_actions RefHost.Date_parse RefHost.toFixed1
              RefHost.Number_toString RefHost.StringToNumber keylessEnv A st Hsel)
    as (l & HF & Hl & _).
  exists l. split; assumption.
Defined.

Lemma failed_checkpoint_read_degrades_to_first_run_witness :
  let st := idle (Some checkpointedDoc) in
  let st' := snd (handleGetAdvice RefHost.Date_parse RefHost.toFixed1
                    RefHost.Number_toString RefHost.StringToNumber
                    offlineEnv [oldAction] st) in
  [oldAction] <> []
  /\ rejects offlineEnv (calls st) = true
  /\ error st' = None /\ loading st' = false.
Proof.
  intros st st'.
  assert (HA : [oldAction] <> []) by discriminate.
  assert (Hr : rejects offlineEnv (calls st) = true) by reflexivity.
  split; [exact HA|]. split; [exact Hr|].
  exact (proj2 (failed_checkpoint_read_degrades_to_first_run RefHost.Date_parse
                  RefHost.toFixed1 RefHost.Number_toString RefHost.StringToNumber
                  offlineEnv [oldAction] st HA (or_intror (or_introl Hr)))).
Defined.

Lemma missing_credentials_use_local_generator_witness :
  let st := idle (Some freshDoc) in
  let st' := snd (handleGetAdvice RefHost.Date_parse RefHost.toFixed1
                    RefHost.Number_toString RefHost.StringToNumber
                    keylessEnv [droveToWork] st) in
  newActions RefHost.Date_parse [droveToWork] (checkpointSeen keylessEnv st) <> []
  /\ truthy (apiKey keylessEnv) = false
  /\ error st' = None /\ loading st' = false.
Proof.
  intros st st'.
  assert (Hsel : newActions RefHost.Date_parse [droveToWork]
                   (checkpointSeen keylessEnv st) <> [])
    by (vm_compute; discriminate).
  assert (Hkey : truthy (apiKey keylessEnv) = false) by reflexivity.
  split; [exact Hsel|]. split; [exact Hkey|].
  destruct (missing_credentials_use_local_generator RefHost.Date_parse
              RefHost.toFixed1 RefHost.Number_toString RefHost.StringToNumber
              keylessEnv [droveToWork] st Hsel Hkey)
    as (l & rec & _ & _ & _ & He & Hl & _).
  split; assumption.
Defined.

Lemma unfenced_text_is_parsed_whole_witness :
  hasFence (js "hello") = false
  /\ jsonTextOf (js "hello") = js "hello".
Proof.
  assert (H : hasFence (js "hello") = false) by reflexivity.
  split; [exact H|].
  exact (proj1 (unfenced_text_is_parsed_whole RefHost.StringToNumber
                  (js "hello") H)).
Defined.

Lemma fenced_payload_is_extracted_witness :
  let pre := js "Here is the analysis you asked for: " in
  let ws := [10] in
  let payload := js "{ }" in
  noBacktick pre = true /\ allSpace ws = true /\ tight payload = true
  /\ noBacktick payload = true
  /\ jsonTextOf (pre ++ js "```json" ++ ws ++ payload ++ ws ++ fence ++ js " Bye.")
     = payload.
Proof.
  intros pre ws payload.
  assert (H1 : noBacktick pre = true) by reflexivity.
  assert (H2 : allSpace ws = true) by reflexivity.
  assert (H3 : tight payload = true) by reflexivity.
  assert (H4 : noBacktick payload = true) by reflexivity.
  repeat (split; [assumption|]).
  exact (proj1 (fenced_payload_is_extracted pre ws payload ws (js " Bye.")
                  H1 H2 H3 H4 H2)).
Defined.

Lemma fenced_record_is_recovered_witness :
  let blob := JSON_stringify RefHost.Number_toString (advice_value storedRecord) in
  noBacktick blob = true
  /\ adviceFromText RefHost.StringToNumber
       (js "Sure! " ++ js "```json" ++ [10] ++ blob ++ [10] ++ fence ++ [])
     = advice_value storedRecord.
Proof.
  intros blob.
  assert (H : noBacktick blob = true) by (vm_compute; reflexivity).
  split; [exact H|].
  exact (fenced_record_is_recovered RefHost.Number_toString RefHost.StringToNumber
           storedRecord (js "Sure! ") [10] [10] []
           eq_refl eq_refl eq_refl H).
Defined.

Lemma answer_without_candidates_gives_empty_advice_witness :
  let st := idle (Some freshDoc) in
  let st' := snd (handleGetAdvice RefHost.Date_parse RefHost.toFixed1
                    RefHost.Number_toString RefHost.StringToNumber
                    noCandidatesEnv [droveToWork] st) in
  newActions RefHost.Date_parse [droveToWork] (checkpointSeen noCandidatesEnv st) <> []
  /\ truthy (apiKey noCandidatesEnv) = true
  /\ (exists props,
         JSON_parse RefHost.StringToNumber noCandidatesBody = Some (JObj props)
         /\ obj_get (js "candidates") props = None)
  /\ advice st' = emptyAdvice /\ error st' = None.
Proof.
  intros st st'.
  assert (Hsel : newActions RefHost.Date_parse [droveToWork]
                   (checkpointSeen noCandidatesEnv st) <> [])
    by (vm_compute; discriminate).
  assert (Hkey : truthy (apiKey noCandidatesEnv) = true) by reflexivity.
  assert (Hbody : JSON_parse RefHost.StringToNumber noCandidatesBody
                  = Some (JObj [(js "error", JObj [(js "code", JNum 429)])]))
    by (vm_compute; reflexivity).
  assert (Hc : obj_get (js "candidates")
                 [(js "error", JObj [(js "code", JNum 429)])] = None)
    by (vm_compute; reflexivity).
  split; [exact Hsel|]. split; [exact Hkey|]. split; [eauto|].
  destruct (answer_without_candidates_gives_empty_advice RefHost.Date_parse
              RefHost.toFixed1 RefHost.Number_toString RefHost.StringToNumber
              noCandidatesEnv [droveToWork] st _ _ Hsel Hkey eq_refl eq_refl
              Hbody Hc)
    as (Ha & He & _).
  split; assumption.
Defined.

Lemma stored_advice_is_shown_again_witness :
  let st := idle (Some freshDoc) in
  let st1 := snd (handleGetAdvice RefHost.Date_parse RefHost.toFixed1
                    RefHost.Number_toString RefHost.StringToNumber
                    keylessEnv [droveToWork] st) in
  let st2 := snd (handleGetAdvice RefHost.Date_parse RefHost.toFixed1
                    RefHost.Number_toString RefHost.StringToNumber
                    helloEnv [droveToWork] st1) in
  newActions RefHost.Date_parse [droveToWork] (checkpointSeen keylessEnv st) <> []
  /\ (exists d1, doc st1 = Some d1
                 /\ mostRecentInsightsTimestamp d1 = Some (sampleClock 0))
  /\ newActions RefHost.Date_parse [droveToWork] (Some (sampleClock 0)) = []
  /\ advice st2 = advice st1 /\ error st2 = Some msgNoNewActions.
Proof.
  intros st st1 st2.
  assert (Hsel : newActions RefHost.Date_parse [droveToWork]
                   (checkpointSeen keylessEnv st) <> [])
    by (vm_compute; discriminate).
  assert (Hp : exists d1, doc st1 = Some d1
                          /\ mostRecentInsightsTimestamp d1 = Some (sampleClock 0)).
  { eexists. split; vm_compute; reflexivity. }
  assert (Hsel2 : newActions RefHost.Date_parse [droveToWork]
                    (Some (sampleClock 0)) = [])
    by (vm_compute; reflexivity).
  split; [exact Hsel|]. split; [exact Hp|]. split; [exact Hsel2|].
  destruct (stored_advice_is_shown_again RefHost.Date_parse RefHost.toFixed1
              RefHost.Number_toString RefHost.StringToNumber
              keylessEnv helloEnv [droveToWork] [droveToWork] st freshDoc
              eq_refl (fun _ => eq_refl) eq_refl eq_refl Hsel)
    as (ts & (d1 & Hd1 & Hts) & Hnext).
  destruct Hp as (d1' & Hd1' & Hts').
  fold st1 in Hd1. rewrite Hd1' in Hd1. injection Hd1 as <-.
  rewrite Hts' in Hts. injection Hts as <-.
  destruct (Hnext ltac:(discriminate) eq_refl eq_refl eq_refl
                  ltac:(discriminate) Hsel2) as (Ha & He & _).
  split; assumption.
Defined.

(** * The properties of the Dashboard at sample inputs *)


Lemma inferCategory_recycle_is_transportation_witness :
  includes (toLowerCase refHost (js "Recycled bottles")) (js "recycle") = true
  /\ inferCategory refHost (js "Recycled bottles") = js "Transportation".
Proof.
  assert (H : includes (toLowerCase refHost (js "Recycled bottles"))
                       (js "recycle") = true) by (vm_compute; reflexivity).
  split; [exact H|].
  exact (proj1 (inferCategory_recycle_is_transportation
                  refHost (js "Recycled bottles")) H).
Defined.

Lemma numericMatch_takes_first_number_witness :
  noDigit (js "about -") = true
  /\ js "12" <> []
  /\ forallb is_digit (js "12") = true
  /\ noLeadingDigit (js ".5 kg, or 1,234") = true
  /\ numericMatch (js "about -" ++ js "12" ++ js ".5 kg, or 1,234")
     = Some ((if endsWithMinus (js "about -") then [45] else [])
             ++ js "12" ++ match_fraction (js ".5 kg, or 1,234")).
Proof.
  assert (H1 : noDigit (js "about -") = true) by reflexivity.
  assert (H2 : js "12" <> []) by (vm_compute; discriminate).
  assert (H3 : forallb is_digit (js "12") = true) by reflexivity.
  assert (H4 : noLeadingDigit (js ".5 kg, or 1,234") = true) by reflexivity.
  repeat (split; [assumption|]).
  exact (numericMatch_takes_first_number _ _ _ H1 H2 H3 H4).
Defined.

Lemma calculateCarbonFootprint_result_witness :
  calculateCarbonFootprint RefHost.StringToNumber refHost footprintEnv
                           (js "Took the train") []
  = Normal (-0x1.9p+3)%float
  /\ exists text token : jsstring,
       noDigit text = false
       /\ numericMatch text = Some token
       /\ (-0x1.9p+3)%float = parseFloat refHost token.
Proof.
  assert (H : calculateCarbonFootprint RefHost.StringToNumber refHost
                footprintEnv (js "Took the train") []
              = Normal (-0x1.9p+3)%float) by (vm_compute; reflexivity).
  split; [exact H|].
  destruct (proj2 (calculateCarbonFootprint_result RefHost.StringToNumber
                     refHost footprintEnv (js "Took the train") []) _ H)
    as (_ & r & geminiData & text & token & _ & _ & _ & _ & Hd & Hm & Hx).
  exists text, token. repeat split; assumption.
Defined.

Lemma answer_without_digit_is_rejected_witness :
  noDigit (js "hello") = true
  /\ calculateCarbonFootprint RefHost.StringToNumber refHost helloEnv
                              (js "Took the train") []
     = Throw msgNoNumber.
Proof.
  assert (Hnd : noDigit (js "hello") = true) by reflexivity.
  assert (Hdata : exists data,
             JSON_parse RefHost.StringToNumber helloBody = Some data
             /\ responseTextOf data = Normal (JStr (js "hello"))).
  { eexists. split; vm_compute; reflexivity. }
  split; [exact Hnd|].
  destruct Hdata as (data & Hb & Ht).
  exact (proj2 (answer_without_digit_is_rejected RefHost.StringToNumber refHost
                  helloEnv (js "Took the train") [] _ data (js "hello"))
               eq_refl eq_refl eq_refl Hb Ht Hnd).
Defined.


Lemma addAction_records_score_and_time_witness :
  let b := board (Some oneActionDoc) None "" "" "" in
  let out := addAction RefHost.Date_parse refHost footprintEnv
               (js "Planted a tree") (-5)%float b in
  user footprintEnv = true
  /\ store b = Some oneActionDoc
  /\ fst out = Normal tt
  /\ store (snd out)
     = Some (recorded oneActionDoc (js "Planted a tree") (-5)%float (sampleClock 0)).
Proof.
  intros b out.
  assert (Hu : user footprintEnv = true) by reflexivity.
  assert (Hs : store b = Some oneActionDoc) by reflexivity.
  split; [exact Hu|]. split; [exact Hs|].
  destruct (addAction_records_score_and_time RefHost.Date_parse refHost
              footprintEnv (js "Planted a tree") (-5)%float b oneActionDoc
              Hu Hs eq_refl eq_refl eq_refl) as (H1 & H2 & _).
  split; [exact H1 | exact H2].
Defined.

Lemma submit_without_document_looks_successful_witness :
  let b := board None None "  Took the train " "" "" in
  let b' := snd (handleSubmitAction RefHost.Date_parse RefHost.StringToNumber
                   refHost footprintEnv b) in
  (length (trim (actionName b)) =? 0)%nat = false
  /\ store b = None
  /\ submitError b' = None /\ showAddActionModal b' = false
  /\ store b' = None /\ userActions b' = [].
Proof.
  intros b b'.
  assert (Hname : (length (trim (actionName b)) =? 0)%nat = false)
    by (vm_compute; reflexivity).
  assert (Hcalc : calculateCarbonFootprint RefHost.StringToNumber refHost
                    footprintEnv (trim (actionName b)) (trim (actionDescription b))
                  = Normal (-0x1.9p+3)%float) by (vm_compute; reflexivity).
  assert (Hs : store b = None) by reflexivity.
  split; [exact Hname|]. split; [exact Hs|].
  destruct (submit_without_document_looks_successful RefHost.Date_parse
              RefHost.StringToNumber refHost footprintEnv b _ Hname Hcalc
              (or_intror (conj Hs eq_refl)))
    as (H1 & H2 & _ & _ & _ & (H3 & _ & H4 & _)).
  split; [exact H1|]. split; [exact H2|].
  split; [exact H3 | exact H4].
Defined.

Lemma rejected_refresh_hides_stored_action_witness :
  let b := board (Some oneActionDoc) None "Took the train" "" "" in
  let b' := snd (handleSubmitAction RefHost.Date_parse RefHost.StringToNumber
                   refHost flakyEnv b) in
  rejects flakyEnv 2 = true
  /\ store b'
     = Some (recorded oneActionDoc (js "Took the train") (-0x1.9p+3)%float
                      (sampleClock 0))
  /\ submitError b' = Some (js "unavailable")
  /\ userActions b' = [].
Proof.
  intros b b'.
  assert (Hname : (length (trim (actionName b)) =? 0)%nat = false)
    by (vm_compute; reflexivity).
  assert (Hcalc : calculateCarbonFootprint RefHost.StringToNumber refHost
                    flakyEnv (trim (actionName b)) (trim (actionDescription b))
                  = Normal (-0x1.9p+3)%float) by (vm_compute; reflexivity).
  assert (H2 : rejects flakyEnv 2 = true) by reflexivity.
  split; [exact H2|].
  destruct (rejected_refresh_hides_stored_action RefHost.Date_parse
              RefHost.StringToNumber refHost flakyEnv b oneActionDoc _
              Hname Hcalc eq_refl eq_refl eq_refl eq_refl H2)
    as (Hstore & Herr & _ & Hrows & _).
  split; [exact Hstore|]. split; [exact Herr | exact Hrows].
Defined.

Lemma handleAddFriend_keeps_friends_distinct_witness :
  let b := board (Some oneActionDoc) (Some [js "u3"]) "" "" " Ada@Example.org " in
  let b' := snd (handleAddFriend refHost footprintEnv sampleDirectory b) in
  List.NoDup (friendsList b)
  /\ ~ In (uid sampleDirectory) (friendsList b)
  /\ friendsList b' = [js "u3"; js "u2"]
  /\ List.NoDup (friendsList b')
  /\ ~ In (uid sampleDirectory) (friendsList b').
Proof.
  intros b b'.
  assert (Hnd : List.NoDup (friendsList b)).
  { constructor; [intros [] | constructor]. }
  assert (Hself : ~ In (uid sampleDirectory) (friendsList b)).
  { intros [H | []]. vm_compute in H. discriminate H. }
  assert (Hl : friendsList b' = [js "u3"; js "u2"]) by (vm_compute; reflexivity).
  split; [exact Hnd|]. split; [exact Hself|]. split; [exact Hl|].
  exact (handleAddFriend_keeps_friends_distinct refHost footprintEnv
           sampleDirectory b Hnd Hself).
Defined.
